(** * The customer loader of [1million.py]

    A shallow embedding of the three steps of the script
    ([setup_database], [process_and_insert_csv], [get_filtered_customers])
    and of its main block, over a model of the psycopg2 connection and of
    the [customers] table the script's SQL declares.

    Python values are modelled as far as the script handles them: a cell of
    a [csv.DictReader] row is a [str] or [None]; a dict is a [gmap]; an
    exception is a constructor of [exn] and every effectful function returns
    the state it leaves behind together with its result or the exception it
    raised.

    A [str] is a [string] of the standard library, one [ascii] standing for
    one character: the texts of the model are those over a one-byte
    alphabet, for which the length that [VARCHAR(n)] and [LIKE] go by, a
    number of characters, is [String.length]. *)

From Stdlib Require Import String Ascii DecimalString.
From stdpp Require Import gmap strings list fin_maps sorting.

Local Open Scope string_scope.
Local Open Scope list_scope.

(** ** Python values and exceptions *)

Inductive pyval :=
  | PNone
  | PStr (s : string).

#[global] Instance pyval_eq_dec : EqDecision pyval.
Proof. solve_decision. Defined.

(** The exception classes that can arise in the script.  All of them derive
    from [Exception]; [PermissionError] stands for the failures of [open]
    other than [FileNotFoundError]; [IndexError] and [TypeError] are what
    psycopg2 raises for a parameter tuple that is too short or too long for
    the placeholders of a statement; [ValueError] is what it raises for a
    parameter that holds the character NUL, and what the constructor of
    [datetime.date] raises for a year, a month or a day out of its range. *)
Inductive exn :=
  | AttributeError
  | FileNotFoundError
  | PermissionError
  | OperationalError
  | InterfaceError
  | ProgrammingError
  | DataError
  | IntegrityError
  | IndexError
  | TypeError
  | ValueError.

#[global] Instance exn_eq_dec : EqDecision exn.
Proof. solve_decision. Defined.

Inductive result (A : Type) :=
  | Ok (a : A)
  | Raise (e : exn).
Arguments Ok {A} a.
Arguments Raise {A} e.

(** [str(n)] for a non-negative [int]. *)
Definition str_int (n : nat) : string := NilZero.string_of_uint (Nat.to_uint n).

Definition nl : string := String (ascii_of_nat 10) "".

(** ** Rows of [csv.DictReader]

    The text of the file is tokenised by [csv.reader]; the model starts from
    the records it yields, the first of which is the header.  [DictReader]
    skips records that are empty lists, zips the field names with the
    record (a later duplicate label overwrites an earlier one) and fills the
    labels a short record leaves out with [restval], which is [None].  The
    surplus cells of a long record go under the key [None], which no lookup
    of the script reaches; they are left out. *)

Definition dict_zip (fieldnames record : list string) : gmap string pyval :=
  foldl (fun d kv => <[kv.1 := PStr kv.2]> d) ∅ (zip fieldnames record).

Definition restval_fill (d : gmap string pyval) (labels : list string)
  : gmap string pyval :=
  foldl (fun d k => <[k := PNone]> d) d labels.

Definition DictReader_row (fieldnames record : list string) : gmap string pyval :=
  restval_fill (dict_zip fieldnames record) (drop (length record) fieldnames).

Definition blank (record : list string) : bool :=
  match record with [] => true | _ => false end.

Definition DictReader (records : list (list string)) : list (gmap string pyval) :=
  match records with
  | [] => []
  | fieldnames :: rest =>
      map (DictReader_row fieldnames) (filter (fun r => blank r = false) rest)
  end.

(** [row.get(key)] and [row.get(key, default)]. *)
Definition dict_get (row : gmap string pyval) (key : string) : pyval :=
  match row !! key with Some v => v | None => PNone end.

Definition dict_get_default (row : gmap string pyval) (key : string) (d : pyval) : pyval :=
  match row !! key with Some v => v | None => d end.

(** [v.startswith(p)]: [None] has no such attribute. *)
Definition startswith (v : pyval) (p : string) : result bool :=
  match v with
  | PStr s => Ok (String.prefix p s)
  | PNone => Raise AttributeError
  end.

(** Truth value of a cell, as [not sub_date] tests it. *)
Definition truthy (v : pyval) : bool :=
  match v with
  | PNone => false
  | PStr "" => false
  | PStr _ => true
  end.

(** ** The loop of [process_and_insert_csv], lines 100 to 128 *)

Definition CSV_HEADERS : list string :=
  [ "Index"; "Customer Id"; "First Name"; "Last Name"; "Company"; "City";
    "Country"; "Phone 1"; "Phone 2"; "Email"; "Subscription Date"; "Website" ].

Definition DB_COLUMNS : list string :=
  [ "customer_id"; "first_name"; "last_name"; "company"; "city";
    "country"; "phone_1"; "phone_2"; "email"; "subscription_date"; "website" ].

Record loop_state := mkLoop {
  batch : list (list pyval);
  total_processed : nat;
  total_inserted : nat
}.

Definition sub_date_of (row : gmap string pyval) : pyval :=
  let sub_date := dict_get row "Subscription date" in
  if truthy sub_date then sub_date else PNone.

Definition data_tuple (row : gmap string pyval) (first_name last_name : pyval)
  : list pyval :=
  [ dict_get row "Customer Id";
    first_name;
    last_name;
    dict_get row "Company";
    dict_get row "City";
    dict_get row "Country";
    dict_get row "Phone 1";
    dict_get row "Phone 2";
    dict_get row "Email";
    sub_date_of row;
    dict_get row "Website" ].

(** [first_name.startswith('A') and last_name.startswith('F')]: the right
    operand is evaluated only when the left one is true. *)
Definition passes (first_name last_name : pyval) : result bool :=
  match startswith first_name "A" with
  | Raise e => Raise e
  | Ok false => Ok false
  | Ok true => startswith last_name "F"
  end.

(** Lines 101 to 128: count the row, test it, append its tuple. *)
Definition select_row (row : gmap string pyval) (st : loop_state) : result loop_state :=
  let processed := S (total_processed st) in
  let first_name := dict_get_default row "First Name" (PStr "") in
  let last_name := dict_get_default row "Last Name" (PStr "") in
  match passes first_name last_name with
  | Raise e => Raise e
  | Ok true =>
      Ok (mkLoop (batch st ++ [data_tuple row first_name last_name])
                 processed (S (total_inserted st)))
  | Ok false => Ok (mkLoop (batch st) processed (total_inserted st))
  end.

(** The filter in the words of the specification: a name that is missing
    counts as the empty string. *)
Definition field_text (row : gmap string pyval) (key : string) : string :=
  match row !! key with Some (PStr s) => s | _ => "" end.

Definition name_filter (row : gmap string pyval) : bool :=
  String.prefix "A" (field_text row "First Name")
  && String.prefix "F" (field_text row "Last Name").

(** The tuple a kept row contributes. *)
Definition row_tuple (row : gmap string pyval) : list pyval :=
  data_tuple row (dict_get_default row "First Name" (PStr ""))
                 (dict_get_default row "Last Name" (PStr "")).

(** ** The [customers] table

    The columns of [create_table_sql]: the surrogate [id SERIAL] and the
    eleven columns of [DB_COLUMNS].  [customer_id] is [NOT NULL]; the other
    columns are nullable. *)

(** A value of the column type [DATE]: a day of the calendar, its year
    counted astronomically (year 0 is 1 BC, so that the years of the server
    run from -4712 to 5874897), or one of the two infinities.  The server
    holds only days that exist. *)
Inductive date :=
  | MinusInfinity
  | Day (year : Z) (month day : nat)
  | PlusInfinity.

Record columns := mkColumns {
  customer_id : string;
  first_name : option string;
  last_name : option string;
  company : option string;
  city : option string;
  country : option string;
  phone_1 : option string;
  phone_2 : option string;
  email : option string;
  subscription_date : option date;
  website : option string
}.

Record customer := mkCustomer { id : nat; cols : columns }.

#[global] Instance date_eq_dec : EqDecision date.
Proof. solve_decision. Defined.

(** A text that holds the character NUL, which neither psycopg2 nor the
    server admits in a value. *)
Definition has_nul (s : string) : bool :=
  existsb (fun a => Ascii.eqb a Ascii.zero) (list_ascii_of_string s).

(** Assignment to a [VARCHAR(n)] column: a longer string is an error unless
    the excess is all spaces, in which case it is cut to [n] characters.
    The length is counted in characters, one [ascii] each. *)
Definition all_spaces (s : string) : bool :=
  forallb (fun a => Ascii.eqb a " "%char) (list_ascii_of_string s).

Definition varchar (n : nat) (s : string) : option string :=
  if Nat.leb (String.length s) n then Some s
  else if all_spaces (substring n (String.length s - n) s)
       then Some (substring 0 n s)
       else None.

Definition varchar_in (n : nat) (v : pyval) : option (option string) :=
  match v with
  | PNone => Some None
  | PStr s => if has_nul s then None else Some <$> varchar n s
  end.

Inductive statement := create_table_sql | sql_insert | sql_query.

Inductive event :=
  | EvExecute (sql : statement)
  | EvExecutemany (sql : statement) (params : list (list pyval))
  | EvCommit
  | EvRollback
  | EvClose.

#[global] Instance statement_eq_dec : EqDecision statement.
Proof. solve_decision. Defined.

#[global] Instance event_eq_dec : EqDecision event.
Proof. solve_decision. Defined.

(** A psycopg2 connection together with the server behind it, as one session
    sees them.  [durable] is what the server holds committed ([None]: the
    table does not exist), [snapshot] what the open transaction sees,
    [serial] the last value of the sequence behind [id] (sequences are not
    rolled back; the sequence of a [SERIAL] column stops at [serial_max]),
    [in_txn] whether a transaction is open, [link] the number of round trips
    the network link still carries ([None]: it holds), and [history] the
    calls made on the connection, oldest first. *)
Record connection := mkConn {
  durable : option (list customer);
  snapshot : option (list customer);
  serial : nat;
  in_txn : bool;
  link : option nat;
  closed : bool;
  history : list event
}.

Definition record_event (ev : event) (c : connection) : connection :=
  mkConn (durable c) (snapshot c) (serial c) (in_txn c) (link c) (closed c)
         (history c ++ [ev]).

(** The server side of a lost link: the open transaction is aborted, the
    connection object is marked broken. *)
Definition lose (c : connection) : connection :=
  mkConn (durable c) (durable c) (serial c) false (Some 0) true (history c).

(** One statement sent to the server. *)
Definition round_trip (c : connection) : connection * result unit :=
  if closed c then (c, Raise InterfaceError)
  else match link c with
       | None => (c, Ok tt)
       | Some (S n) =>
           (mkConn (durable c) (snapshot c) (serial c) (in_txn c) (Some n)
                   (closed c) (history c), Ok tt)
       | Some 0 => (lose c, Raise OperationalError)
       end.

(** A statement opens a transaction when none is open. *)
Definition begin (c : connection) : connection :=
  mkConn (durable c) (snapshot c) (serial c) true (link c) (closed c) (history c).

Definition set_table (rows : option (list customer)) (next : nat) (c : connection)
  : connection :=
  mkConn (durable c) rows next (in_txn c) (link c) (closed c) (history c).

(** [conn.cursor()]. *)
Definition cursor (c : connection) : result unit :=
  if closed c then Raise InterfaceError else Ok tt.

(** [SET col = EXCLUDED.col] for the ten columns the statement lists. *)
Definition do_update (old : customer) (excluded : columns) : customer :=
  {| id := id old;
     cols := {| customer_id := customer_id (cols old);
                first_name := first_name excluded;
                last_name := last_name excluded;
                company := company excluded;
                city := city excluded;
                country := country excluded;
                phone_1 := phone_1 excluded;
                phone_2 := phone_2 excluded;
                email := email excluded;
                subscription_date := subscription_date excluded;
                website := website excluded |} |}.

Definition conflicts (key : string) (r : customer) : bool :=
  bool_decide (customer_id (cols r) = key).

(** The largest value the sequence of a [SERIAL] column gives out. *)
Definition serial_max : Z := 2147483647.

(** [PRIMARY KEY (id)]: the row proposed for insertion, which no stored row
    conflicts with on [customer_id], takes an [id] that a stored row has. *)
Definition pkey_violation (nextval : nat) (excluded : columns)
  (rows : list customer) : bool :=
  negb (existsb (conflicts (customer_id excluded)) rows)
  && existsb (fun r => Nat.eqb (id r) nextval) rows.

(** [INSERT ... ON CONFLICT (customer_id) DO UPDATE SET ...] of one row: the
    table the statement leaves when it goes through, which it does unless
    [pkey_violation] holds. *)
Definition upsert (nextval : nat) (excluded : columns) (rows : list customer)
  : list customer :=
  if existsb (conflicts (customer_id excluded)) rows
  then map (fun r => if conflicts (customer_id excluded) r
                     then do_update r excluded else r) rows
  else rows ++ [ {| id := nextval; cols := excluded |} ].

(** [LIKE 'p%'] on a nullable column. *)
Definition like_prefix (p : string) (v : option string) : bool :=
  match v with Some s => String.prefix p s | None => false end.

Definition where_clause (r : customer) : bool :=
  like_prefix "A" (first_name (cols r)) && like_prefix "F" (last_name (cols r)).

(** The order of [DATE]: [-infinity] below and [infinity] above every day. *)
Definition date_le (a b : date) : Prop :=
  match a, b with
  | MinusInfinity, _ => True
  | _, PlusInfinity => True
  | Day y1 m1 d1, Day y2 m2 d2 =>
      (y1 < y2)%Z \/ (y1 = y2 /\ (m1 < m2 \/ (m1 = m2 /\ d1 <= d2)))
  | _, _ => False
  end.

(** [ORDER BY subscription_date DESC]: PostgreSQL puts nulls first in a
    descending order. *)
Definition desc (a b : option date) : Prop :=
  match a, b with
  | None, _ => True
  | Some _, None => False
  | Some x, Some y => date_le y x
  end.

Definition by_date_desc (r1 r2 : customer) : Prop :=
  desc (subscription_date (cols r1)) (subscription_date (cols r2)).

#[global] Instance date_le_dec a b : Decision (date_le a b).
Proof. destruct a, b; simpl; apply _. Defined.

#[global] Instance desc_dec a b : Decision (desc a b).
Proof. destruct a, b; simpl; apply _. Defined.

#[global] Instance by_date_desc_dec r1 r2 : Decision (by_date_desc r1 r2).
Proof. unfold by_date_desc. apply _. Defined.

(** A row of the result set as the server sends it: [first_name, last_name,
    company, subscription_date]. *)
Definition answer : Type :=
  option string * option string * option string * option date.

Definition select_list (r : customer) : answer :=
  (first_name (cols r), last_name (cols r), company (cols r),
   subscription_date (cols r)).

(** The rows [sql_query] selects, in the order it asks for.  The order among
    rows of equal date, which the server leaves open, is the one the merge
    sort gives; the statement about the report leaves it open as well. *)
Definition run_query (rows : list customer) : list answer :=
  map select_list (merge_sort by_date_desc (filter (fun r => where_clause r = true) rows)).

(** A [datetime.date], which is what psycopg2 hands back for a [DATE].  Its
    constructor refuses a year outside 1 to 9999, a month outside 1 to 12
    and a day the month does not have. *)
Record datetime_date := mkDate { year : nat; month : nat; day : nat }.

Definition leap (y : nat) : bool :=
  (Nat.eqb (y mod 4) 0 && negb (Nat.eqb (y mod 100) 0)) || Nat.eqb (y mod 400) 0.

Definition days_in_month (y m : nat) : nat :=
  match m with
  | 1 | 3 | 5 | 7 | 8 | 10 | 12 => 31
  | 4 | 6 | 9 | 11 => 30
  | 2 => if leap y then 29 else 28
  | _ => 0
  end.

Definition new_date (y : Z) (m d : nat) : result datetime_date :=
  if Z.leb 1 y && Z.leb y 9999 && Nat.leb 1 m && Nat.leb m 12
     && Nat.leb 1 d && Nat.leb d (days_in_month (Z.to_nat y) m)
  then Ok (mkDate (Z.to_nat y) m d)
  else Raise ValueError.

(** The typecaster of psycopg2 for [DATE]: a null becomes [None], the
    infinities become [date.max] and [date.min], a day is handed to the
    constructor of [datetime.date]. *)
Definition typecast_date (v : option date) : result (option datetime_date) :=
  match v with
  | None => Ok None
  | Some PlusInfinity => Ok (Some (mkDate (Z.to_nat 9999) 12 31))
  | Some MinusInfinity => Ok (Some (mkDate 1 1 1))
  | Some (Day y m d) =>
      match new_date y m d with
      | Ok x => Ok (Some x)
      | Raise e => Raise e
      end
  end.

(** A row of the result set as [fetchall] hands it over. *)
Definition selected : Type :=
  option string * option string * option string * option datetime_date.

Definition typecast_row (a : answer) : result selected :=
  match a with
  | (first, last, firm, subscribed) =>
      match typecast_date subscribed with
      | Ok d => Ok (first, last, firm, d)
      | Raise e => Raise e
      end
  end.

(** [cur.fetchall()]: the rows are built one after the other, and the first
    value that cannot be built ends the call. *)
Fixpoint fetchall (answers : list answer) : result (list selected) :=
  match answers with
  | [] => Ok []
  | a :: answers =>
      match typecast_row a with
      | Raise e => Raise e
      | Ok r =>
          match fetchall answers with
          | Raise e => Raise e
          | Ok rs => Ok (r :: rs)
          end
      end
  end.

(** [str(v)] of the values psycopg2 hands back: [None], a [str], or a
    [datetime.date], whose [str] is its ISO form [%04d-%02d-%02d]. *)
Fixpoint zeros (n : nat) : string :=
  match n with 0 => "" | S n => "0" +:+ zeros n end.

Definition zero_pad (width n : nat) : string :=
  let digits := str_int n in
  zeros (width - String.length digits) +:+ digits.

Definition str_date (d : datetime_date) : string :=
  zero_pad 4 (year d) +:+ "-" +:+ zero_pad 2 (month d) +:+ "-" +:+ zero_pad 2 (day d).

Definition str_text (v : option string) : string :=
  match v with Some s => s | None => "None" end.

Definition str_date_opt (v : option datetime_date) : string :=
  match v with Some d => str_date d | None => "None" end.

(** A reader of dates written [YYYY-MM-DD], used where an example needs a
    concrete date input function. *)
Definition digit (a : ascii) : option nat :=
  let n := nat_of_ascii a in
  if (48 <=? n)%nat && (n <=? 57)%nat then Some (n - 48) else None.

Definition number (s : string) : option nat :=
  foldl (fun acc a => match acc, digit a with
                      | Some n, Some d => Some (10 * n + d)
                      | _, _ => None
                      end)
        (Some 0) (list_ascii_of_string s).

Definition iso_date_in (s : string) : option date :=
  if bool_decide (String.length s = 10 /\ substring 4 1 s = "-" /\ substring 7 1 s = "-")
  then match number (substring 0 4 s), number (substring 5 2 s), number (substring 8 2 s) with
       | Some y, Some m, Some d =>
           if Nat.leb 1 y && Nat.leb 1 m && Nat.leb m 12 && Nat.leb 1 d
              && Nat.leb d (days_in_month y m)
           then Some (Day (Z.of_nat y) m d) else None
       | _, _, _ => None
       end
  else None.

(** ** State and exceptions

    A computation takes the state it runs in and returns the state it leaves
    together with its value or the exception that escaped it. *)

Definition M (S A : Type) : Type := S -> S * result A.

Definition ret {S A} (a : A) : M S A := fun s => (s, Ok a).

Definition bind {S A B} (m : M S A) (k : A -> M S B) : M S B :=
  fun s => match m s with
           | (s', Ok a) => k a s'
           | (s', Raise e) => (s', Raise e)
           end.

Definition throw {S A} (e : exn) : M S A := fun s => (s, Raise e).

Definition lift {S A} (r : result A) : M S A := fun s => (s, r).

(** [try: m  except Exception as e: handler e]. *)
Definition try_except {S A} (m : M S A) (handler : exn -> M S A) : M S A :=
  fun s => match m s with
           | (s', Ok a) => (s', Ok a)
           | (s', Raise e) => handler e s'
           end.

(** [try: m  finally: f]. *)
Definition try_finally {S A} (m : M S A) (f : M S unit) : M S A :=
  fun s => match m s with
           | (s', r) => match f s' with
                        | (s'', Ok _) => (s'', r)
                        | (s'', Raise e) => (s'', Raise e)
                        end
           end.

Notation "'do' x <- m ; k" := (bind m (fun x => k))
  (at level 10, x name, m at level 100, k at level 200).
Notation "m ;; k" := (bind m (fun _ => k))
  (at level 100, k at level 200, right associativity).

Fixpoint each {S A} (f : A -> M S unit) (l : list A) : M S unit :=
  match l with
  | [] => ret tt
  | x :: l => f x ;; each f l
  end.

(** What [print] receives: a text, or a text followed by the rendering of an
    exception, which the libraries choose. *)
Inductive message :=
  | Text (s : string)
  | TextExn (s : string) (e : exn).

Record env := mkEnv { out : list message; conn : connection }.

Definition print (m : message) : M env unit :=
  fun s => (mkEnv (out s ++ [m]) (conn s), Ok tt).

Definition on_conn {A} (f : M connection A) : M env A :=
  fun s => match f (conn s) with (c, r) => (mkEnv (out s) c, r) end.

(** What [open] finds under a name: nothing, a file it may not read, or a
    file holding the records [csv.reader] yields, header first. *)
Inductive file :=
  | Missing
  | Unreadable
  | Csv (records : list (list string)).

Section Store.

(** PostgreSQL's input conversion for [DATE], which the script leaves to the
    server: [None] when the text is rejected. *)
Variable date_in : string -> option date.

Definition date_col (v : pyval) : option (option date) :=
  match v with
  | PNone => Some None
  | PStr s => if has_nul s then None else Some <$> date_in s
  end.

(** The eleven parameters coerced to the column types, in the order of
    [DB_COLUMNS].  The outer [None] is a value a column type rejects, the
    inner one a null [customer_id]. *)
Definition coerce (t : list pyval) : option (option columns) :=
  match t with
  | [a; b; c; d; e; f; g; h; i; j; k] =>
      match varchar_in 100 a, varchar_in 255 b, varchar_in 255 c,
            varchar_in 255 d, varchar_in 255 e, varchar_in 255 f,
            varchar_in 100 g, varchar_in 100 h, varchar_in 255 i,
            date_col j, varchar_in 255 k with
      | Some a, Some b, Some c, Some d, Some e, Some f, Some g, Some h,
        Some i, Some j, Some k =>
          Some (match a with
                | Some key => Some (mkColumns key b c d e f g h i j k)
                | None => None
                end)
      | _, _, _, _, _, _, _, _, _, _, _ => None
      end
  | _ => None
  end.

(** ** Calls on the connection *)

Definition opened : M connection unit := fun c => (c, cursor c).

Definition logged (ev : event) : M connection unit :=
  fun c => (record_event ev c, Ok tt).

Definition statement_sent : M connection unit :=
  round_trip ;; (fun c => (begin c, Ok tt)).

(** [cur.execute(create_table_sql)]: [CREATE TABLE IF NOT EXISTS]. *)
Definition execute_create : M connection unit :=
  opened ;;
  logged (EvExecute create_table_sql) ;;
  statement_sent ;;
  fun c => match snapshot c with
           | None => (set_table (Some []) 0 c, Ok tt)
           | Some _ => (c, Ok tt)
           end.

(** The parameters of one execution are put into the statement one
    placeholder after the other: a placeholder the tuple has no value for
    raises [IndexError], a text that holds NUL raises [ValueError], and
    values left over once the placeholders are filled raise [TypeError].
    Nothing has been sent to the server by then. *)
Fixpoint mogrify (placeholders : nat) (t : list pyval) {struct t} : result unit :=
  match t, placeholders with
  | [], 0 => Ok tt
  | [], S _ => Raise IndexError
  | _ :: _, 0 => Raise TypeError
  | PNone :: t, S n => mogrify n t
  | PStr s :: t, S n => if has_nul s then Raise ValueError else mogrify n t
  end.

(** One execution of [sql_insert] with the parameters [t].  The values are
    coerced to the column types; the default of [id] takes the next value
    of the sequence, which fails once the sequence has reached its limit; a
    null [customer_id] and an [id] already taken break a constraint, and the
    value drawn from the sequence is lost with the statement. *)
Definition insert_one (t : list pyval) : M connection unit :=
  lift (mogrify 11 t) ;;
  statement_sent ;;
  fun c => match snapshot c with
           | None => (c, Raise ProgrammingError)
           | Some rows =>
               match coerce t with
               | None => (c, Raise DataError)
               | Some new =>
                   if Z.leb serial_max (Z.of_nat (serial c))
                   then (c, Raise DataError)
                   else
                     match new with
                     | None =>
                         (set_table (Some rows) (S (serial c)) c,
                          Raise IntegrityError)
                     | Some excluded =>
                         if pkey_violation (S (serial c)) excluded rows
                         then (set_table (Some rows) (S (serial c)) c,
                               Raise IntegrityError)
                         else (set_table (Some (upsert (S (serial c)) excluded rows))
                                         (S (serial c)) c, Ok tt)
                     end
               end
           end.

(** [with conn.cursor() as cur: cur.executemany(sql_insert, params)]: the
    statement is executed once for each parameter tuple, in order. *)
Definition executemany (params : list (list pyval)) : M connection unit :=
  opened ;;
  logged (EvExecutemany sql_insert params) ;;
  each insert_one params.

(** [cur.execute(sql_query)] followed by [cur.fetchall()]. *)
Definition execute_query : M connection (list selected) :=
  opened ;;
  logged (EvExecute sql_query) ;;
  statement_sent ;;
  fun c => match snapshot c with
           | None => (c, Raise ProgrammingError)
           | Some rows => (c, fetchall (run_query rows))
           end.

(** [conn.commit()] and [conn.rollback()] do nothing when no transaction is
    open. *)
Definition end_txn (kept : connection -> option (list customer)) : M connection unit :=
  fun c =>
    if closed c then (c, Raise InterfaceError)
    else if in_txn c then
      match round_trip c with
      | (c', Raise e) => (c', Raise e)
      | (c', Ok _) =>
          (mkConn (kept c') (kept c') (serial c') false (link c') (closed c')
                  (history c'), Ok tt)
      end
    else (c, Ok tt).

Definition commit : M connection unit := logged EvCommit ;; end_txn snapshot.

Definition rollback : M connection unit := logged EvRollback ;; end_txn durable.

(** [conn.close()]: what was not committed is discarded. *)
Definition close : M connection unit :=
  logged EvClose ;;
  fun c => (mkConn (durable c) (durable c) (serial c) false (link c) true
                   (history c), Ok tt).

(** ** [setup_database] *)

Definition setup_database : M env pyval :=
  try_except
    (on_conn execute_create ;;
     on_conn commit ;;
     print (Text "Successfully ensured 'customers' table exists."))
    (fun e =>
       on_conn rollback ;;
       print (TextExn "Error during table setup: " e) ;;
       throw e) ;;
  ret PNone.

(** ** [process_and_insert_csv] *)

(** Lines 131 to 135. *)
Definition flush_if_full (batch_size : Z) (st : loop_state) : M env loop_state :=
  if (batch_size <=? Z.of_nat (length (batch st)))%Z then
    on_conn (executemany (batch st)) ;;
    print (Text ("  ... inserted batch of " +:+ str_int (length (batch st))
                 +:+ " rows. (Total processed: "
                 +:+ str_int (total_processed st) +:+ ")")) ;;
    ret (mkLoop [] (total_processed st) (total_inserted st))
  else ret st.

Definition loop_body (batch_size : Z) (row : gmap string pyval) (st : loop_state)
  : M env loop_state :=
  do st' <- lift (select_row row st);
  flush_if_full batch_size st'.

Fixpoint for_rows (batch_size : Z) (rows : list (gmap string pyval))
  (st : loop_state) : M env loop_state :=
  match rows with
  | [] => ret st
  | row :: rows =>
      do st' <- loop_body batch_size row st;
      for_rows batch_size rows st'
  end.

(** Lines 138 to 141. *)
Definition flush_rest (st : loop_state) : M env unit :=
  match batch st with
  | [] => ret tt
  | _ :: _ =>
      on_conn (executemany (batch st)) ;;
      print (Text ("  ... inserted final batch of " +:+ str_int (length (batch st))
                   +:+ " rows."))
  end.

Definition report_totals (st : loop_state) : M env unit :=
  print (Text (nl +:+ "--- Processing Complete ---")) ;;
  print (Text ("Total rows processed from CSV: " +:+ str_int (total_processed st))) ;;
  print (Text ("Total rows inserted/updated in DB: " +:+ str_int (total_inserted st))).

(** [open(csv_filename)] and [csv.DictReader(f)]. *)
Definition open_rows (fs : string -> file) (csv_filename : string)
  : M env (list (gmap string pyval)) :=
  match fs csv_filename with
  | Missing => throw FileNotFoundError
  | Unreadable => throw PermissionError
  | Csv records => ret (DictReader records)
  end.

Definition process_and_insert_csv (fs : string -> file) (csv_filename : string)
  (batch_size : Z) : M env pyval :=
  print (Text ("Starting to process '" +:+ csv_filename +:+ "'...")) ;;
  try_except
    (do rows <- open_rows fs csv_filename;
     do st <- for_rows batch_size rows (mkLoop [] 0 0);
     flush_rest st ;;
     report_totals st)
    (fun e =>
       match e with
       | FileNotFoundError =>
           print (Text ("Error: Input file '" +:+ csv_filename +:+ "' not found."))
       | _ =>
           print (TextExn "An error occurred while processing the file: " e) ;;
           throw e
       end) ;;
  ret PNone.

(** ** [get_filtered_customers] *)

Definition result_line (row : selected) : message :=
  match row with
  | (first, last, firm, subscribed) =>
      Text ("Name: " +:+ str_text first +:+ " " +:+ str_text last
            +:+ ", Company: " +:+ str_text firm
            +:+ ", Subscribed: " +:+ str_date_opt subscribed)
  end.

Definition get_filtered_customers : M env pyval :=
  print (Text (nl +:+ "--- Querying Database for Inserted Customers (Sorted by Date) ---")) ;;
  try_except
    (do results <- on_conn execute_query;
     match results with
     | [] => print (Text "No matching customers found in the database.")
     | _ :: _ => each (fun row => print (result_line row)) results
     end)
    (fun e => print (TextExn "An error occurred while querying the database: " e)) ;;
  ret PNone.

(** ** The main block

    [reach] is the connection [psycopg2.connect] returns, or [None] when it
    raises [OperationalError]. *)

Definition CSV_FILE_TO_PROCESS : string := "customers.csv".

(** Parts 1 to 3 of the [try] body, after [psycopg2.connect]. *)
Definition load_and_commit (fs : string -> file) : M env unit :=
  print (Text "Database connection established.") ;;
  setup_database ;;
  process_and_insert_csv fs CSV_FILE_TO_PROCESS 1000 ;;
  on_conn commit ;;
  print (Text (nl +:+ "All database changes have been committed.")).

(** The [try] body: parts 1 to 3, then part 4, the report. *)
Definition steps (fs : string -> file) : M env unit :=
  load_and_commit fs ;;
  get_filtered_customers ;;
  ret tt.

Definition handlers (e : exn) : M env unit :=
  match e with
  | OperationalError =>
      print (Text "CRITICAL: Connection Error. Check credentials/host/port.") ;;
      print (TextExn "Details: " e)
  | _ =>
      print (Text "An error occurred. Rolling back all changes.") ;;
      print (TextExn "Details: " e) ;;
      on_conn rollback
  end.

Definition shutdown : M env unit :=
  on_conn close ;;
  print (Text (nl +:+ "Database connection closed.")).

Definition main (fs : string -> file) (reach : option connection)
  : list message * option connection * result unit :=
  match reach with
  | None =>
      ([ Text "CRITICAL: Connection Error. Check credentials/host/port.";
         TextExn "Details: " OperationalError ], None, Ok tt)
  | Some c =>
      match try_finally (try_except (steps fs) handlers) shutdown (mkEnv [] c) with
      | (s, r) => (out s, Some (conn s), r)
      end
  end.

(** ** Vocabulary of the statements *)

(** The rows that satisfy the filter, in source order. *)
Definition kept (rows : list (gmap string pyval)) : list (gmap string pyval) :=
  filter (fun row => name_filter row = true) rows.

(** Rows inserted by [sql_insert] one after the other, [n] being the last
    value the sequence gave out. *)
Fixpoint upsert_all (n : nat) (es : list columns) (rows : list customer)
  : list customer :=
  match es with
  | [] => rows
  | e :: es => upsert_all (S n) es (upsert (S n) e rows)
  end.

(** The effect of one [sql_insert] on a row that is already stored. *)
Definition hit (e : columns) (r : customer) : customer :=
  if conflicts (customer_id e) r then do_update r e else r.

(** Every update of [es] that hits the row [r], applied in order. *)
Definition overwrite (es : list columns) (r : customer) : customer :=
  foldl (fun r e => hit e r) r es.

Definition keys (rows : list customer) : list string :=
  map (fun r => customer_id (cols r)) rows.

(** The parameter tuples [ts] are accepted by the column types as [es]. *)
Definition coerced (ts : list (list pyval)) (es : list columns) : Prop :=
  Forall2 (fun t e => coerce t = Some (Some e)) ts es.

(** The connection [c'] sees the table of [c] with [ts] inserted. *)
Definition stored (ts : list (list pyval)) (c c' : connection) : Prop :=
  exists es, coerced ts es
    /\ snapshot c' = upsert_all (serial c) es <$> snapshot c
    /\ serial c' = serial c + length es.

(** A tuple whose [subscription_date] position, the tenth, holds [None]. *)
Definition dateless (t : list pyval) : Prop := t !! 9 = Some PNone.

Definition writes_dateless (ev : event) : Prop :=
  match ev with
  | EvExecutemany _ params => Forall dateless params
  | _ => True
  end.

(** A tuple the column types accept, with a [customer_id] that is not null. *)
Definition coercible (t : list pyval) : Prop :=
  exists e, coerce t = Some (Some e).

(** A row the loop gets through: its names can be tested, and if it passes
    the filter its tuple is one the store accepts. *)
Definition accepted (row : gmap string pyval) : Prop :=
  exists b, passes (dict_get_default row "First Name" (PStr ""))
                   (dict_get_default row "Last Name" (PStr "")) = Ok b
            /\ (b = true -> coercible (row_tuple row)).

(** A connection that is open, on a link that holds, to a server that has
    the table. *)
Definition serving (c : connection) : Prop :=
  closed c = false /\ link c = None /\ exists rows, snapshot c = Some rows.

Definition commits (h : list event) : nat :=
  length (filter (fun ev => ev = EvCommit) h).

(** The labels the loop body looks up in a row. *)
Definition read_labels : list string :=
  [ "First Name"; "Last Name"; "Subscription date"; "Customer Id"; "Company";
    "City"; "Country"; "Phone 1"; "Phone 2"; "Email"; "Website" ].

(** Two rows that hold the same cells under the labels the loop reads. *)
Definition agree (row1 row2 : gmap string pyval) : Prop :=
  forall key, key ∈ read_labels -> row1 !! key = row2 !! key.

(** What identifies a stored row: its [id] and its [customer_id]. *)
Definition identity (r : customer) : nat * string := (id r, customer_id (cols r)).

(** A connection as [psycopg2.connect] hands it over: open, with no
    transaction under way, seeing what the server holds committed. *)
Definition fresh (c : connection) : Prop :=
  closed c = false /\ in_txn c = false /\ snapshot c = durable c.

(** The tuples of the rows of the source of the main block that pass the
    filter; none when the file is missing or cannot be read. *)
Definition source_tuples (fs : string -> file) : list (list pyval) :=
  match fs "customers.csv" with
  | Csv records => map row_tuple (kept (DictReader records))
  | _ => []
  end.

(** The labels whose cells the loop passes on as they are, each with its
    position in the tuple, which is that of its column in [DB_COLUMNS]. *)
Definition passed_on : list (string * nat) :=
  [ ("Customer Id", 0); ("Company", 3); ("City", 4); ("Country", 5);
    ("Phone 1", 6); ("Phone 2", 7); ("Email", 8); ("Website", 10) ].

(** The cell of a record at a position, as [DictReader] hands it over. *)
Definition cell (record : list string) (i : nat) : pyval :=
  match record !! i with Some v => PStr v | None => PNone end.

(** The batch each row gives rise to when every row is flushed at once. *)
Definition row_batch (row : gmap string pyval) : list (list pyval) :=
  if name_filter row then [row_tuple row] else [].

(** A value psycopg2 can put into a statement. *)
Definition nul_free (v : pyval) : Prop :=
  match v with PStr s => has_nul s = false | PNone => True end.

(** The sequence behind [id] is ahead of the table: every stored [id] is a
    value it has given out.  This is so when every row was inserted with
    the default of [id]. *)
Definition sequence_ahead (c : connection) : Prop :=
  forall rows, snapshot c = Some rows -> Forall (fun r => id r <= serial c) rows.

(** The sequence can give out [k] more values. *)
Definition room (k : nat) (c : connection) : Prop :=
  (Z.of_nat (serial c) + Z.of_nat k <= serial_max)%Z.

(** The [id]s of the stored rows. *)
Definition ids (rows : list customer) : list nat := map id rows.

(** ** Sample inputs

    The source of the specification's example, a source with three rows that
    pass the filter, a file system that holds one source under the name the
    main block opens, and sessions on a server without and with the table. *)

Definition alice : list string :=
  [ "1"; "1"; "Alice"; "Fox"; "Acme"; "Oslo"; "Norway"; "555-0100"; "555-0101";
    "alice@example.org"; "2020-01-01"; "example.org" ].

Definition bob : list string :=
  [ "2"; "2"; "Bob"; "Fox"; "Initech"; "Bergen"; "Norway"; "555-0102";
    "555-0103"; "bob@example.org"; "2021-06-30"; "example.net" ].

Definition anna : list string :=
  [ "3"; "3"; "Anna"; "Frost"; "Globex"; "Turku"; "Finland"; "555-0104";
    "555-0105"; "anna@example.org"; "2019-03-15"; "example.com" ].

Definition adam : list string :=
  [ "4"; "4"; "Adam"; "Ford"; "Hooli"; "Lund"; "Sweden"; "555-0106";
    "555-0107"; "adam@example.org"; ""; "example.edu" ].

Definition example_source : list (list string) := [CSV_HEADERS; alice; bob].

Definition three_kept : list (list string) := [CSV_HEADERS; alice; bob; anna; adam].

Definition disk (records : list (list string)) (name : string) : file :=
  if String.eqb name "customers.csv" then Csv records else Missing.

Definition empty_disk (name : string) : file := Missing.

Definition new_session (link : option nat) : connection :=
  mkConn None None 0 false link false [].

Definition ready_session : connection :=
  mkConn (Some []) (Some []) 0 false None false [].

Definition stored_alice : customer :=
  mkCustomer 1
    (mkColumns "1" (Some "Alice") (Some "Fox") (Some "Acme") (Some "Oslo")
               (Some "Norway") (Some "555-0100") (Some "555-0101")
               (Some "alice@example.org") (Some (Day 2020 1 1))
               (Some "example.org")).

Definition stored_anna : customer :=
  mkCustomer 2
    (mkColumns "3" (Some "Anna") (Some "Frost") (Some "Globex") (Some "Turku")
               (Some "Finland") None None None (Some (Day 2021 12 24)) None).

Definition stored_bob : customer :=
  mkCustomer 3
    (mkColumns "2" (Some "Bob") (Some "Fox") None None None None None None
               None None).

(** The record of [alice] as a later export has it: another company and a
    later subscription date. *)
Definition alice_again : list string :=
  [ "7"; "1"; "Alice"; "Fox"; "Initech"; "Oslo"; "Norway"; "555-0100";
    "555-0101"; "alice@example.org"; "2021-06-30"; "example.org" ].

(** A stored row with a date [datetime.date] cannot hold. *)
Definition stored_far : customer :=
  mkCustomer 4
    (mkColumns "4" (Some "Ada") (Some "Fay") None None None None None None
               (Some (Day 10000 1 1)) None).

(** A session on a server that holds [rows], the sequence having given out
    [n] values. *)
Definition session_on (rows : list customer) (n : nat) : connection :=
  mkConn (Some rows) (Some rows) n false None false [].

(** A record that passes the filter and holds the character NUL in its
    company. *)
Definition nul_record : list string :=
  [ "5"; "5"; "Anna"; "Frost"; String Ascii.zero "Globex" ].

(** ** The filter step *)

Lemma field_text_get row key :
  dict_get_default row key (PStr "") = PStr (field_text row key)
  \/ (dict_get_default row key (PStr "") = PNone /\ field_text row key = "").
Proof.
  unfold dict_get_default, field_text.
  destruct (row !! key) as [[|s]|]; auto.
Qed.

Lemma passes_name_filter row b :
  passes (dict_get_default row "First Name" (PStr ""))
         (dict_get_default row "Last Name" (PStr "")) = Ok b ->
  b = name_filter row.
Proof.
  unfold passes, name_filter.
  destruct (field_text_get row "First Name") as [-> | [-> E1]]; simpl;
    [| discriminate].
  destruct (String.prefix "A" (field_text row "First Name")); simpl;
    [| congruence].
  destruct (field_text_get row "Last Name") as [-> | [-> E2]]; simpl; congruence.
Qed.


Lemma select_row_ok row st st' :
  select_row row st = Ok st' ->
  st' = mkLoop (batch st ++ (if name_filter row then [row_tuple row] else []))
               (S (total_processed st))
               (total_inserted st + (if name_filter row then 1 else 0)).
Proof.
  unfold select_row. intros H.
  destruct (passes _ _) as [b|e] eqn:P; [| discriminate].
  apply passes_name_filter in P. subst b.
  destruct (name_filter row); injection H as <-; unfold row_tuple; f_equal.
  - lia.
  - by rewrite app_nil_r.
  - lia.
Qed.


(** ** Calls on the connection *)

Ltac run :=
  repeat (progress (unfold bind, ret, throw, lift, try_except, try_finally,
                      on_conn, print, opened, logged, statement_sent in *));
  simpl in *.

Lemma round_trip_ok c c' u :
  round_trip c = (c', Ok u) ->
  closed c = false /\ closed c' = false /\ durable c' = durable c
  /\ snapshot c' = snapshot c /\ serial c' = serial c
  /\ in_txn c' = in_txn c /\ history c' = history c.
Proof.
  unfold round_trip. destruct (closed c) eqn:E; [done |].
  destruct (link c) as [[|n]|]; intros H; inversion H; subst; simpl; auto 10.
Qed.

Lemma round_trip_keeps c :
  history (round_trip c).1 = history c /\ durable (round_trip c).1 = durable c.
Proof.
  unfold round_trip. destruct (closed c); [done |].
  by destruct (link c) as [[|n]|].
Qed.

Lemma insert_one_ok t c c' u :
  insert_one t c = (c', Ok u) ->
  exists e rows, coerce t = Some (Some e)
    /\ snapshot c = Some rows
    /\ snapshot c' = Some (upsert (S (serial c)) e rows)
    /\ serial c' = S (serial c)
    /\ history c' = history c /\ durable c' = durable c
    /\ closed c' = false.
Proof.
  unfold insert_one. run.
  destruct (mogrify 11 t) as [[]|e0]; simpl; [| done].
  destruct (round_trip c) as [c1 [[]|e]] eqn:R; simpl; [| done].
  apply round_trip_ok in R as (_ & Hc & Hd & Hs & Hn & _ & Hh).
  simpl. rewrite Hs, Hn.
  destruct (snapshot c) as [rows|]; [| done].
  destruct (coerce t) as [[e|]|]; [| | done];
    (destruct (Z.leb serial_max (Z.of_nat (serial c))); [done |]); [| done].
  destruct (pkey_violation (S (serial c)) e rows); [done |].
  intros H. inversion H; subst; simpl. eauto 10.
Qed.

(** What a statement that goes through has found: parameters psycopg2
    admits, a sequence below its limit and an [id] that is free. *)
Lemma insert_one_checked t c c' u :
  insert_one t c = (c', Ok u) ->
  mogrify 11 t = Ok tt
  /\ (Z.of_nat (serial c) < serial_max)%Z
  /\ exists e rows, coerce t = Some (Some e) /\ snapshot c = Some rows
       /\ pkey_violation (S (serial c)) e rows = false.
Proof.
  unfold insert_one. run.
  destruct (mogrify 11 t) as [[]|e0]; simpl; [| done].
  destruct (round_trip c) as [c1 [[]|e]] eqn:R; simpl; [| done].
  apply round_trip_ok in R as (_ & Hc & Hd & Hs & Hn & _ & Hh).
  simpl. rewrite Hs, Hn.
  destruct (snapshot c) as [rows|]; [| done].
  destruct (coerce t) as [[e|]|]; [| | done];
    (destruct (Z.leb_spec serial_max (Z.of_nat (serial c))); [done |]); [| done].
  destruct (pkey_violation (S (serial c)) e rows) eqn:P; [done |].
  intros _. split; [done |]. split; [done |]. eauto.
Qed.

Lemma insert_one_keeps t c :
  history (insert_one t c).1 = history c /\ durable (insert_one t c).1 = durable c.
Proof.
  unfold insert_one. run.
  destruct (mogrify 11 t) as [[]|e0]; simpl; [| done].
  pose proof (round_trip_keeps c) as [Hh Hd].
  destruct (round_trip c) as [c1 [[]|e]]; simpl in *; [| done].
  destruct (snapshot c1) as [rows|]; [| done].
  destruct (coerce t) as [[e|]|]; [| | done];
    (destruct (Z.leb serial_max (Z.of_nat (serial c1))); [done |]); [| done].
  by destruct (pkey_violation (S (serial c1)) e rows).
Qed.

Lemma each_insert_keeps ts c :
  history (each insert_one ts c).1 = history c
  /\ durable (each insert_one ts c).1 = durable c.
Proof.
  revert c. induction ts as [|t ts IH]; intros c; [done |].
  simpl. run. pose proof (insert_one_keeps t c) as [Hh Hd].
  destruct (insert_one t c) as [c1 [[]|e]]; simpl in *; [| done].
  destruct (IH c1) as [IH1 IH2]. by rewrite IH1, IH2.
Qed.

Lemma stored_nil c : stored [] c c.
Proof.
  exists []. split; [constructor |]. simpl. split; [| lia].
  by destruct (snapshot c).
Qed.

Lemma upsert_all_app n es1 es2 rows :
  upsert_all n (es1 ++ es2) rows
  = upsert_all (n + length es1) es2 (upsert_all n es1 rows).
Proof.
  revert n rows. induction es1 as [|e es1 IH]; intros n rows; simpl.
  - by rewrite Nat.add_0_r.
  - rewrite IH. by replace (n + S (length es1)) with (S n + length es1) by lia.
Qed.

Lemma stored_app ts1 ts2 c1 c2 c3 :
  stored ts1 c1 c2 -> stored ts2 c2 c3 -> stored (ts1 ++ ts2) c1 c3.
Proof.
  intros (es1 & F1 & S1 & N1) (es2 & F2 & S2 & N2).
  exists (es1 ++ es2). split; [by apply Forall2_app |].
  rewrite S2, S1, N2, N1, length_app. split; [| lia].
  destruct (snapshot c1) as [rows|]; simpl; [| done].
  by rewrite upsert_all_app.
Qed.

Lemma each_insert_ok ts c c' u :
  each insert_one ts c = (c', Ok u) ->
  stored ts c c' /\ (closed c = false -> closed c' = false).
Proof.
  revert c. induction ts as [|t ts IH]; intros c; simpl.
  - run. intros H. inversion H; subst. split; [apply stored_nil | done].
  - run. destruct (insert_one t c) as [c1 [[]|e]] eqn:I; simpl; [| done].
    apply insert_one_ok in I as (e & rows & Hco & Hs & Hs1 & Hn & _ & _ & Hc).
    intros H. apply IH in H as [St Cl]. split; [| auto].
    apply (stored_app [t] ts c c1 c'); [| done].
    exists [e]. split; [by repeat constructor |].
    rewrite Hs, Hs1, Hn. simpl. split; [done | lia].
Qed.

Lemma executemany_ok ts c c' u :
  executemany ts c = (c', Ok u) ->
  stored ts c c'
  /\ history c' = history c ++ [EvExecutemany sql_insert ts]
  /\ durable c' = durable c
  /\ closed c' = false.
Proof.
  unfold executemany. run. unfold cursor.
  destruct (closed c) eqn:Cl; [done |].
  intros H.
  pose proof (each_insert_keeps ts (record_event (EvExecutemany sql_insert ts) c))
    as [Hh Hd].
  rewrite H in Hh, Hd. simpl in Hh, Hd.
  apply each_insert_ok in H as [(es & F & S1 & N1) C]. simpl in *.
  split; [by exists es |]. auto.
Qed.

(** Whatever its outcome, [executemany] leaves at most its own event in the
    history. *)
Lemma executemany_history ts c :
  history (executemany ts c).1 = history c
  \/ history (executemany ts c).1 = history c ++ [EvExecutemany sql_insert ts].
Proof.
  unfold executemany. run. unfold cursor.
  destruct (closed c); [by left |]. right.
  pose proof (each_insert_keeps ts (record_event (EvExecutemany sql_insert ts) c))
    as [Hh _].
  by destruct (each insert_one ts _) as [c1 [[]|e]].
Qed.

(** ** The loop *)

Lemma kept_cons row rows :
  kept (row :: rows) = (if name_filter row then [row] else []) ++ kept rows.
Proof.
  unfold kept. destruct (name_filter row) eqn:E.
  - by rewrite filter_cons_True.
  - rewrite filter_cons_False; [done |]. by rewrite E.
Qed.

Lemma flush_if_full_ok bs st s s' st' :
  flush_if_full bs st s = (s', Ok st') ->
  ((bs <= Z.of_nat (length (batch st)))%Z
   /\ st' = mkLoop [] (total_processed st) (total_inserted st)
   /\ history (conn s') = history (conn s) ++ [EvExecutemany sql_insert (batch st)]
   /\ stored (batch st) (conn s) (conn s')
   /\ durable (conn s') = durable (conn s)
   /\ closed (conn s') = false
   /\ exists line, out s' = out s ++ [line])
  \/ ((Z.of_nat (length (batch st)) < bs)%Z /\ st' = st /\ s' = s).
Proof.
  unfold flush_if_full.
  destruct (bs <=? Z.of_nat (length (batch st)))%Z eqn:E.
  - apply Z.leb_le in E. run.
    destruct (executemany (batch st) (conn s)) as [c1 [[]|e]] eqn:X; simpl; [| done].
    apply executemany_ok in X as (St & Hh & Hd & Hc).
    intros H. inversion H; subst; simpl. left. eauto 10.
  - apply Z.leb_gt in E. run. intros H. inversion H; subst. right. auto.
Qed.

Lemma for_rows_ok bs rows st s s' st' :
  for_rows bs rows st s = (s', Ok st') ->
  total_processed st' = total_processed st + length rows
  /\ total_inserted st' = total_inserted st + length (kept rows)
  /\ durable (conn s') = durable (conn s)
  /\ (exists lines, out s' = out s ++ lines)
  /\ exists calls,
       history (conn s') = history (conn s) ++ map (EvExecutemany sql_insert) calls
       /\ concat calls ++ batch st' = batch st ++ map row_tuple (kept rows)
       /\ stored (concat calls) (conn s) (conn s')
       /\ ((0 < bs)%Z -> (Z.of_nat (length (batch st)) < bs)%Z ->
           Forall (fun b => Z.of_nat (length b) = bs) calls
           /\ (Z.of_nat (length (batch st')) < bs)%Z).
Proof.
  revert st s. induction rows as [|row rows IH]; intros st s; simpl.
  - run. intros H. inversion H; subst. repeat split; [lia | lia | |].
    + exists []. by rewrite app_nil_r.
    + exists []. simpl. rewrite !app_nil_r.
      repeat split; [apply stored_nil | constructor | done].
  - unfold loop_body. run.
    destruct (select_row row st) as [st1|e] eqn:Sel; simpl; [| done].
    apply select_row_ok in Sel.
    destruct (flush_if_full bs st1 s) as [s1 [st2|e]] eqn:Fl; simpl; [| done].
    intros H. apply IH in H as (Hp & Hi & Hd & [lines Ho] & calls & Hh & Hb & St & Sz).
    rewrite kept_cons, length_app, map_app.
    apply flush_if_full_ok in Fl
      as [(Full & -> & Hh1 & St1 & Hd1 & _ & [line Ho1]) | (Small & -> & ->)].
    + subst st1. simpl in *.
      split; [lia |]. split; [destruct (name_filter row); simpl; lia |].
      split; [congruence |].
      split; [exists (line :: lines); by rewrite Ho, Ho1, <- app_assoc |].
      exists ((batch st ++ (if name_filter row then [row_tuple row] else [])) :: calls).
      split; [by rewrite Hh, Hh1, <- app_assoc |].
      split; [simpl; rewrite <- !app_assoc, Hb; by destruct (name_filter row) |].
      split; [by apply stored_app with (conn s1) |].
      intros Pos Lt. destruct Sz as [Sz1 Sz2]; [done | lia |].
      split; [| done]. constructor; [| done].
      rewrite length_app in *. destruct (name_filter row); simpl in *; lia.
    + subst st1. simpl in *.
      split; [lia |]. split; [destruct (name_filter row); simpl; lia |].
      split; [done |]. split; [by exists lines |].
      exists calls. split; [done |].
      split; [rewrite Hb, <- !app_assoc; by destruct (name_filter row) |].
      split; [done |].
      intros Pos Lt. by apply Sz.
Qed.

(** No call on the connection and no step of the loop raises
    [FileNotFoundError]: only [open] does. *)

Lemma round_trip_raise c c' e :
  round_trip c = (c', Raise e) -> e <> FileNotFoundError.
Proof.
  unfold round_trip. destruct (closed c); [by intros [= _ <-] |].
  destruct (link c) as [[|n]|]; by intros [= _ <-].
Qed.

Lemma insert_one_raise t c c' e :
  insert_one t c = (c', Raise e) -> e <> FileNotFoundError.
Proof.
  unfold insert_one. run.
  destruct (mogrify 11 t) as [[]|e0] eqn:Mo; simpl.
  - destruct (round_trip c) as [c1 [[]|e1]] eqn:R; simpl.
    + destruct (snapshot c1) as [rows|]; [| by intros [= _ <-]].
      destruct (coerce t) as [[x|]|]; [| | by intros [= _ <-]];
        (destruct (Z.leb serial_max (Z.of_nat (serial c1))); [by intros [= _ <-] |]);
        [| by intros [= _ <-]].
      destruct (pkey_violation (S (serial c1)) x rows); [by intros [= _ <-] | done].
    + intros [= _ <-]. by apply round_trip_raise in R.
  - intros [= _ <-]. clear -Mo. intros ->. revert Mo. generalize 11.
    induction t as [|[|s] t IH]; intros [|n]; simpl; try done; [apply IH |].
    destruct (has_nul s); [done | apply IH].
Qed.

Lemma each_insert_raise ts c c' e :
  each insert_one ts c = (c', Raise e) -> e <> FileNotFoundError.
Proof.
  revert c. induction ts as [|t ts IH]; intros c; simpl; run; [done |].
  destruct (insert_one t c) as [c1 [[]|e1]] eqn:I; simpl.
  - apply IH.
  - intros [= _ <-]. by apply insert_one_raise in I.
Qed.

Lemma executemany_raise ts c c' e :
  executemany ts c = (c', Raise e) -> e <> FileNotFoundError.
Proof.
  unfold executemany. run. unfold cursor.
  destruct (closed c); [by intros [= _ <-] |]. apply each_insert_raise.
Qed.

Lemma select_row_raise row st e :
  select_row row st = Raise e -> e = AttributeError.
Proof.
  unfold select_row, passes, startswith.
  repeat case_match; congruence.
Qed.

Lemma flush_if_full_raise bs st s s' e :
  flush_if_full bs st s = (s', Raise e) -> e <> FileNotFoundError.
Proof.
  unfold flush_if_full. case_match; run; [| done].
  destruct (executemany _ _) as [c1 [[]|e1]] eqn:X; simpl; [done |].
  intros [= _ <-]. by apply executemany_raise in X.
Qed.

Lemma for_rows_raise bs rows st s s' e :
  for_rows bs rows st s = (s', Raise e) -> e <> FileNotFoundError.
Proof.
  revert st s. induction rows as [|row rows IH]; intros st s; simpl; run; [done |].
  unfold loop_body. run.
  destruct (select_row row st) as [st1|e1] eqn:Sel; simpl.
  - destruct (flush_if_full bs st1 s) as [s1 [st2|e2]] eqn:Fl; simpl.
    + apply IH.
    + intros [= _ <-]. by apply flush_if_full_raise in Fl.
  - intros [= _ <-]. by apply select_row_raise in Sel as ->.
Qed.

Lemma flush_rest_raise st s s' e :
  flush_rest st s = (s', Raise e) -> e <> FileNotFoundError.
Proof.
  unfold flush_rest. destruct (batch st); run; [done |].
  destruct (executemany _ _) as [c1 [[]|e1]] eqn:X; simpl; [done |].
  intros [= _ <-]. by apply executemany_raise in X.
Qed.

(** ** The loader on a readable source *)

Lemma flush_rest_ok st s s' u :
  flush_rest st s = (s', Ok u) ->
  durable (conn s') = durable (conn s)
  /\ (exists lines, out s' = out s ++ lines)
  /\ exists rest,
       history (conn s') = history (conn s) ++ map (EvExecutemany sql_insert) rest
       /\ concat rest = batch st
       /\ stored (batch st) (conn s) (conn s')
       /\ (rest = [] \/ (rest = [batch st] /\ batch st <> [])).
Proof.
  unfold flush_rest. destruct (batch st) as [|t ts] eqn:B; run.
  - intros [= <-]. split; [done |]. split; [exists []; by rewrite app_nil_r |].
    exists []. simpl. rewrite app_nil_r.
    split; [done |]. split; [done |]. split; [apply stored_nil | by left].
  - destruct (executemany (t :: ts) (conn s)) as [c1 [[]|e]] eqn:X; simpl; [| done].
    apply executemany_ok in X as (St & Hh & Hd & _).
    intros [= <-]. simpl. split; [done |]. split; [by eexists |].
    exists [t :: ts]. simpl. rewrite app_nil_r. auto 10.
Qed.

Lemma load_ok fs name bs s s' v records :
  fs name = Csv records ->
  process_and_insert_csv fs name bs s = (s', Ok v) ->
  v = PNone
  /\ durable (conn s') = durable (conn s)
  /\ (exists lines,
        out s' = out s ++ lines
          ++ [ Text (nl +:+ "--- Processing Complete ---");
               Text ("Total rows processed from CSV: "
                     +:+ str_int (length (DictReader records)));
               Text ("Total rows inserted/updated in DB: "
                     +:+ str_int (length (kept (DictReader records)))) ])
  /\ exists full rest,
       history (conn s')
       = history (conn s) ++ map (EvExecutemany sql_insert) (full ++ rest)
       /\ concat (full ++ rest) = map row_tuple (kept (DictReader records))
       /\ stored (concat (full ++ rest)) (conn s) (conn s')
       /\ ((0 < bs)%Z ->
           Forall (fun b => Z.of_nat (length b) = bs) full
           /\ (rest = [] \/ exists b, rest = [b] /\ b <> []
                                      /\ (Z.of_nat (length b) < bs)%Z)).
Proof.
  intros Hfs. unfold process_and_insert_csv, open_rows. rewrite Hfs. run.
  destruct (for_rows bs (DictReader records) (mkLoop [] 0 0) _)
    as [s1 [st|e]] eqn:Loop; simpl.
  - destruct (flush_rest st s1) as [s2 [[]|e]] eqn:Rest; simpl.
    + unfold report_totals. run. intros [= <- <-]. simpl.
      apply for_rows_ok in Loop
        as (Hp & Hi & Hd & [lines Ho] & full & Hh & Hb & St & Sz).
      apply flush_rest_ok in Rest
        as (Hd2 & [lines2 Ho2] & rest & Hh2 & Hb2 & St2 & Hrest).
      simpl in *. split; [done |]. split; [congruence |].
      split.
      { exists ([Text ("Starting to process '" +:+ name +:+ "'...")] ++ lines ++ lines2).
        rewrite Ho2, Ho, Hp, Hi. simpl. by rewrite <- !app_assoc. }
      exists full, rest.
      split; [by rewrite Hh2, Hh, map_app, app_assoc |].
      split; [by rewrite concat_app, Hb2 |].
      split; [rewrite concat_app, Hb2; by apply stored_app with (conn s1) |].
      intros Pos. destruct Sz as [Sz1 Sz2]; [done | simpl; lia |].
      split; [done |].
      destruct Hrest as [-> | [-> Hne]]; [by left | right].
      exists (batch st). auto.
    + destruct e; run; try done.
      by apply flush_rest_raise in Rest.
  - destruct e; run; try done.
    by apply for_rows_raise in Loop.
Qed.

(** ** The counters *)

Lemma coerce_length t x : coerce t = Some x -> length t = 11.
Proof.
  destruct t as [|a [|b [|c [|d [|e [|f [|g [|h [|i [|j [|k [|l t]]]]]]]]]]]];
    simpl; intros H; try discriminate H; reflexivity.
Qed.

(** C3, as amended.  When a readable source has been loaded without an
    exception, the processed counter is the number of data rows (the records
    after the header that are not blank) and the inserted counter the number
    of rows that satisfy the filter; both are printed in the closing report,
    and the value handed back to the caller is [None]. *)
Theorem counters_are_printed (fs : string -> file) (name : string) (bs : Z)
    (records : list (list string)) (s s' : env) (v : pyval) :
  fs name = Csv records ->
  process_and_insert_csv fs name bs s = (s', Ok v) ->
  v = PNone
  /\ exists lines,
       out s' = out s ++ lines
         ++ [ Text (nl +:+ "--- Processing Complete ---");
              Text ("Total rows processed from CSV: "
                    +:+ str_int (length (DictReader records)));
              Text ("Total rows inserted/updated in DB: "
                    +:+ str_int (length (kept (DictReader records)))) ].
Proof.
  intros Hfs H. by destruct (load_ok _ _ _ _ _ _ _ Hfs H) as (Hv & _ & Ho & _).
Qed.

Lemma full_batches_length (bs : Z) (full : list (list (list pyval))) :
  Forall (fun b => Z.of_nat (length b) = bs) full ->
  Z.of_nat (length (concat full)) = (bs * Z.of_nat (length full))%Z.
Proof.
  induction 1 as [|b full Hb _ IH]; simpl; [lia |].
  rewrite length_app. lia.
Qed.

(** C4.  With a positive batch size [bs] and [M] rows passing the filter, a
    load that completes makes exactly [ceil(M/bs)] calls of [executemany]
    and no other call on the connection: every call but the last carries
    [bs] tuples, the last carries [M mod bs] of them, or [bs] when that is
    zero, and no call is made when [M] is zero. *)
Theorem write_calls_ceil (fs : string -> file) (name : string) (bs : Z)
    (records : list (list string)) (s s' : env) (v : pyval) :
  (0 < bs)%Z ->
  fs name = Csv records ->
  process_and_insert_csv fs name bs s = (s', Ok v) ->
  exists calls,
    history (conn s') = history (conn s) ++ map (EvExecutemany sql_insert) calls
    /\ Z.of_nat (length calls)
       = ((Z.of_nat (length (kept (DictReader records))) + bs - 1) / bs)%Z
    /\ (forall i b, calls !! i = Some b -> S i < length calls ->
          Z.of_nat (length b) = bs)
    /\ (forall b, last calls = Some b ->
          Z.of_nat (length b)
          = if (Z.of_nat (length (kept (DictReader records))) mod bs =? 0)%Z
            then bs
            else (Z.of_nat (length (kept (DictReader records))) mod bs)%Z)
    /\ (length (kept (DictReader records)) = 0 -> calls = []).
Proof.
  intros Pos Hfs H.
  destruct (load_ok _ _ _ _ _ _ _ Hfs H)
    as (_ & _ & _ & full & rest & Hh & Hc & _ & Sz).
  destruct (Sz Pos) as [Full Rest]. clear Sz.
  exists (full ++ rest). split; [done |].
  assert (M : Z.of_nat (length (kept (DictReader records)))
              = (bs * Z.of_nat (length full) + Z.of_nat (length (concat rest)))%Z).
  { rewrite <- (length_map row_tuple), <- Hc, concat_app, length_app.
    rewrite Nat2Z.inj_add. by rewrite (full_batches_length bs full). }
  rewrite M. clear Hh Hc H Hfs.
  destruct Rest as [-> | (b & -> & Hne & Hlt)]; simpl; rewrite ?app_nil_r.
  - rewrite Z.add_0_r.
    replace (bs * Z.of_nat (length full) + bs - 1)%Z
      with (Z.of_nat (length full) * bs + (bs - 1))%Z by lia.
    rewrite Z.div_add_l by lia. rewrite (Z.div_small (bs - 1)) by lia.
    rewrite Z.mul_comm, Z.mod_mul by lia. simpl.
    split; [lia |]. split; [| split].
    + intros i b Hi _. apply list_elem_of_lookup_2 in Hi.
      by apply (proj1 (Forall_forall _ _) Full).
    + intros b Hl. apply last_Some_elem_of in Hl.
      by apply (proj1 (Forall_forall _ _) Full).
    + intros Z0. rewrite Z0 in M. destruct full as [|b full]; [done |].
      simpl in M. nia.
  - rewrite length_app. simpl.
    assert (0 < length b) by (destruct b; [done | simpl; lia]).
    replace (bs * Z.of_nat (length full) + Z.of_nat (length b) + bs - 1)%Z
      with ((Z.of_nat (length full) + 1) * bs + (Z.of_nat (length b) - 1))%Z by lia.
    rewrite Z.div_add_l by lia. rewrite (Z.div_small (_ - 1)) by lia.
    replace (bs * Z.of_nat (length full) + Z.of_nat (length b))%Z
      with (Z.of_nat (length b) + Z.of_nat (length full) * bs)%Z by lia.
    rewrite Z.mod_add by lia. rewrite Z.mod_small by lia.
    destruct (Z.eqb_spec (Z.of_nat (length b)) 0); [lia |].
    split; [lia |]. split; [| split].
    + intros i x Hi Hlt'. assert (Hi' : i < length full) by lia.
      rewrite (lookup_app_l _ _ _ Hi') in Hi.
      apply list_elem_of_lookup_2 in Hi.
      by apply (proj1 (Forall_forall _ _) Full).
    + intros x. rewrite last_snoc. by intros [= <-].
    + intros Z0. rewrite Z0 in M. simpl in M. rewrite app_nil_r in M. nia.
Qed.

(** C10.  With a positive batch size, the batches passed to [executemany]
    by a load that completes, put end to end in call order, are the tuples
    of the rows that pass the filter, each once and in source order. *)
Theorem writes_concat_kept (fs : string -> file) (name : string) (bs : Z)
    (records : list (list string)) (s s' : env) (v : pyval) :
  (0 < bs)%Z ->
  fs name = Csv records ->
  process_and_insert_csv fs name bs s = (s', Ok v) ->
  exists calls,
    history (conn s') = history (conn s) ++ map (EvExecutemany sql_insert) calls
    /\ concat calls = map row_tuple (kept (DictReader records)).
Proof.
  intros _ Hfs H.
  destruct (load_ok _ _ _ _ _ _ _ Hfs H)
    as (_ & _ & _ & full & rest & Hh & Hc & _).
  by exists (full ++ rest).
Qed.

(** ** The subscription date *)

Lemma restval_fill_absent d labels key :
  key ∉ labels -> restval_fill d labels !! key = d !! key.
Proof.
  unfold restval_fill. revert d.
  induction labels as [|k labels IH]; intros d Hk; simpl; [done |].
  apply not_elem_of_cons in Hk as [Hne Hk].
  rewrite IH by done. by apply lookup_insert_ne.
Qed.

Lemma zip_fold_absent (d : gmap string pyval) fieldnames record key :
  key ∉ fieldnames ->
  foldl (fun d kv => <[kv.1 := PStr kv.2]> d) d (zip fieldnames record) !! key
  = d !! key.
Proof.
  revert d record.
  induction fieldnames as [|k ks IH]; intros d record Hk; simpl; [done |].
  apply not_elem_of_cons in Hk as [Hne Hk].
  destruct record as [|v vs]; simpl; [done |].
  rewrite IH by done. by apply lookup_insert_ne.
Qed.

Lemma DictReader_row_absent fieldnames record key :
  key ∉ fieldnames -> DictReader_row fieldnames record !! key = None.
Proof.
  intros Hk. unfold DictReader_row, dict_zip.
  rewrite restval_fill_absent.
  - by rewrite zip_fold_absent.
  - intros Hin. apply Hk. by apply (subseteq_drop (length record) fieldnames).
Qed.

Lemma row_tuple_dateless row :
  row !! "Subscription date" = None -> dateless (row_tuple row).
Proof.
  intros H. unfold dateless, row_tuple, data_tuple, sub_date_of, dict_get.
  by rewrite H.
Qed.

Lemma flush_if_full_history bs st s :
  history (conn (flush_if_full bs st s).1) = history (conn s)
  \/ history (conn (flush_if_full bs st s).1)
     = history (conn s) ++ [EvExecutemany sql_insert (batch st)].
Proof.
  unfold flush_if_full. case_match; run; [| by left].
  pose proof (executemany_history (batch st) (conn s)) as Hh.
  by destruct (executemany _ _) as [c1 [[]|e]].
Qed.

Lemma for_rows_dateless bs rows st s :
  Forall (fun row => row !! "Subscription date" = None) rows ->
  Forall dateless (batch st) ->
  (exists evs, history (conn (for_rows bs rows st s).1) = history (conn s) ++ evs
               /\ Forall writes_dateless evs)
  /\ (forall st', (for_rows bs rows st s).2 = Ok st' -> Forall dateless (batch st')).
Proof.
  intros Hrows. revert st s.
  induction Hrows as [|row rows Hrow _ IH]; intros st s Hb; simpl.
  - split; [exists []; by rewrite app_nil_r |]. run. by intros st' [= <-].
  - unfold loop_body. run.
    destruct (select_row row st) as [st1|e] eqn:Sel; simpl;
      [| split; [exists []; by rewrite app_nil_r | done]].
    apply select_row_ok in Sel.
    assert (Hb1 : Forall dateless (batch st1)).
    { subst st1. simpl. apply Forall_app. split; [done |].
      destruct (name_filter row); [| constructor].
      repeat constructor. by apply row_tuple_dateless. }
    pose proof (flush_if_full_history bs st1 s) as Hh.
    destruct (flush_if_full bs st1 s) as [s1 [st2|e]] eqn:Fl; simpl in *.
    + assert (Hb2 : Forall dateless (batch st2)).
      { apply flush_if_full_ok in Fl as [(_ & -> & _) | (_ & -> & _)];
          [constructor | done]. }
      destruct (IH st2 s1 Hb2) as [(evs & He & Hd) Hok].
      split; [| done].
      destruct Hh as [Hh | Hh]; rewrite He, Hh.
      * by exists evs.
      * exists (EvExecutemany sql_insert (batch st1) :: evs).
        rewrite <- app_assoc. split; [done |]. by constructor.
    + split; [| done].
      destruct Hh as [Hh | Hh]; rewrite Hh.
      * exists []. by rewrite app_nil_r.
      * eexists. split; [done |]. by repeat constructor.
Qed.

Lemma flush_rest_history st s :
  history (conn (flush_rest st s).1) = history (conn s)
  \/ history (conn (flush_rest st s).1)
     = history (conn s) ++ [EvExecutemany sql_insert (batch st)].
Proof.
  unfold flush_rest. destruct (batch st) as [|t ts]; run; [by left |].
  pose proof (executemany_history (t :: ts) (conn s)) as Hh.
  by destruct (executemany _ _) as [c1 [[]|e]].
Qed.

Lemma load_dateless fs name bs header records s :
  fs name = Csv (header :: records) ->
  "Subscription date" ∉ header ->
  exists evs,
    history (conn (process_and_insert_csv fs name bs s).1) = history (conn s) ++ evs
    /\ Forall writes_dateless evs.
Proof.
  intros Hfs Hk. unfold process_and_insert_csv, open_rows. rewrite Hfs. run.
  set (s0 := mkEnv _ _).
  assert (Hrows : Forall (fun row => row !! "Subscription date" = None)
                         (DictReader (header :: records))).
  { simpl. apply Forall_forall. intros row Hin.
    apply list_elem_of_In, in_map_iff in Hin as (record & <- & _).
    by apply DictReader_row_absent. }
  destruct (for_rows_dateless bs _ (mkLoop [] 0 0) s0 Hrows)
    as [(evs & He & Hd) Hok]; [constructor |].
  change (history (conn s0)) with (history (conn s)) in He.
  destruct (for_rows bs _ _ s0) as [s1 [st|e]]; simpl in He, Hok |- *;
    [| destruct e; simpl; by exists evs].
  specialize (Hok st eq_refl).
  pose proof (flush_rest_history st s1) as Hh.
  assert (exists evs', history (conn (flush_rest st s1).1) = history (conn s) ++ evs'
                       /\ Forall writes_dateless evs') as (evs' & He' & Hd').
  { destruct Hh as [Hh | Hh]; rewrite Hh, He; [by exists evs |].
    exists (evs ++ [EvExecutemany sql_insert (batch st)]).
    rewrite app_assoc. split; [done |].
    apply Forall_app. split; [done |]. by repeat constructor. }
  clear Hh. destruct (flush_rest st s1) as [s2 [[]|e]]; simpl in He' |- *.
  - by exists evs'.
  - destruct e; simpl; by exists evs'.
Qed.

(** C9.  When the header of the source carries the column labels of
    [CSV_HEADERS], in any order, every tuple the loader appends to a batch,
    and so every tuple of every batch it passes to [executemany], holds
    [None] in the [subscription_date] position, whatever the row has under
    [Subscription Date]: the loader reads the key [Subscription date], which
    is not among the labels. *)
Theorem subscription_date_always_none (fs : string -> file) (name : string)
    (bs : Z) (header : list string) (records : list (list string)) (s : env) :
  fs name = Csv (header :: records) ->
  header ≡ₚ CSV_HEADERS ->
  (forall record st st',
      select_row (DictReader_row header record) st = Ok st' ->
      exists added, batch st' = batch st ++ added /\ Forall dateless added)
  /\ exists evs,
       history (conn (process_and_insert_csv fs name bs s).1)
       = history (conn s) ++ evs
       /\ Forall writes_dateless evs.
Proof.
  intros Hfs Hperm.
  assert (Hk : "Subscription date" ∉ header).
  { rewrite Hperm. unfold CSV_HEADERS. intros Hin.
    repeat (apply elem_of_cons in Hin as [Hin | Hin]; [discriminate |]).
    by apply elem_of_nil in Hin. }
  split; [| by eapply load_dateless].
  intros record st st' Sel. apply select_row_ok in Sel. subst st'. simpl.
  eexists. split; [done |].
  destruct (name_filter _); [| constructor].
  repeat constructor. apply row_tuple_dateless. by apply DictReader_row_absent.
Qed.

(** ** The upsert *)

Lemma existsb_conflicts key rows :
  existsb (conflicts key) rows = true <-> key ∈ keys rows.
Proof.
  unfold keys, conflicts. rewrite existsb_exists, list_elem_of_In, in_map_iff.
  split; intros (r & H1 & H2); exists r.
  - by apply bool_decide_eq_true in H2.
  - by rewrite bool_decide_eq_true.
Qed.

Lemma upsert_hit n e rows :
  customer_id e ∈ keys rows -> upsert n e rows = map (hit e) rows.
Proof.
  intros H. unfold upsert. by rewrite (proj2 (existsb_conflicts _ _) H).
Qed.

Lemma upsert_miss n e rows :
  customer_id e ∉ keys rows -> upsert n e rows = rows ++ [mkCustomer n e].
Proof.
  intros H. unfold upsert.
  destruct (existsb _ rows) eqn:E; [| done].
  by apply existsb_conflicts in E.
Qed.

Lemma hit_same e r : id (hit e r) = id r /\ customer_id (cols (hit e r)) = customer_id (cols r).
Proof. unfold hit. by destruct (conflicts _ r). Qed.

Lemma keys_hit e rows : keys (map (hit e) rows) = keys rows.
Proof.
  unfold keys. rewrite map_map. apply map_ext. intros r. apply hit_same.
Qed.

Lemma overwrite_same es r :
  id (overwrite es r) = id r
  /\ customer_id (cols (overwrite es r)) = customer_id (cols r).
Proof.
  unfold overwrite. revert r. induction es as [|e es IH]; intros r; simpl; [done |].
  destruct (IH (hit e r)) as [-> ->]. apply hit_same.
Qed.

Lemma overwrite_snoc es e r : overwrite (es ++ [e]) r = hit e (overwrite es r).
Proof. unfold overwrite. by rewrite foldl_app. Qed.

Lemma do_update_same x y e :
  id x = id y -> customer_id (cols x) = customer_id (cols y) ->
  do_update x e = do_update y e.
Proof. unfold do_update. by intros -> ->. Qed.

Lemma do_update_new n e : do_update (mkCustomer n e) e = mkCustomer n e.
Proof. by destruct e. Qed.

Lemma do_update_cols old e :
  customer_id (cols old) = customer_id e -> do_update old e = mkCustomer (id old) e.
Proof. unfold do_update. intros ->. by destruct e. Qed.

Lemma upsert_all_snoc n es e rows :
  upsert_all n (es ++ [e]) rows
  = upsert (S (n + length es)) e (upsert_all n es rows).
Proof. by rewrite upsert_all_app. Qed.

Lemma keys_upsert n e rows :
  customer_id e ∈ keys (upsert n e rows)
  /\ (forall key, key ∈ keys rows -> key ∈ keys (upsert n e rows)).
Proof.
  destruct (decide (customer_id e ∈ keys rows)) as [H | H].
  - by rewrite (upsert_hit _ _ _ H), keys_hit.
  - rewrite (upsert_miss _ _ _ H). unfold keys. rewrite map_app. simpl.
    split; [| intros key Hk]; apply elem_of_app; [right | left]; [| done].
    apply list_elem_of_singleton. done.
Qed.

(** After [es] has been inserted, every key of [es] is stored. *)
Lemma upsert_all_covers n es rows e :
  e ∈ es -> customer_id e ∈ keys (upsert_all n es rows).
Proof.
  revert e. induction es as [|e' es IH] using rev_ind; intros e Hin.
  - by apply elem_of_nil in Hin.
  - rewrite upsert_all_snoc.
    apply elem_of_app in Hin as [Hin | Hin%list_elem_of_singleton].
    + apply (proj2 (keys_upsert _ _ _)). by apply IH.
    + subst. apply (proj1 (keys_upsert _ _ _)).
Qed.

(** After [es] has been inserted, applying its updates again changes no
    stored row. *)
Lemma upsert_all_settled n es rows r :
  r ∈ upsert_all n es rows -> overwrite es r = r.
Proof.
  revert r. induction es as [|e es IH] using rev_ind; intros r Hin; [done |].
  rewrite upsert_all_snoc in Hin. rewrite overwrite_snoc.
  destruct (decide (customer_id e ∈ keys (upsert_all n es rows))) as [H | H].
  - rewrite (upsert_hit _ _ _ H) in Hin.
    apply list_elem_of_In, in_map_iff in Hin as (r0 & <- & Hin%list_elem_of_In).
    unfold hit at 2 3. destruct (conflicts (customer_id e) r0) eqn:C.
    + unfold hit. destruct (overwrite_same es (do_update r0 e)) as [Hi Hk].
      unfold conflicts in *. rewrite Hk. simpl. rewrite C.
      by apply do_update_same.
    + rewrite (IH _ Hin). unfold hit. by rewrite C.
  - rewrite (upsert_miss _ _ _ H) in Hin.
    apply elem_of_app in Hin as [Hin | Hin%list_elem_of_singleton].
    + rewrite (IH _ Hin). unfold hit, conflicts.
      rewrite bool_decide_eq_false_2; [done |].
      intros Hk. apply H. rewrite <- Hk. unfold keys.
      apply list_elem_of_In, (in_map (fun r => customer_id (cols r))).
      by apply list_elem_of_In.
    + subst r. destruct (overwrite_same es (mkCustomer (S (n + length es)) e))
        as [Hi Hk]. simpl in *.
      unfold hit, conflicts. rewrite Hk, bool_decide_eq_true_2 by done.
      rewrite <- (do_update_new (S (n + length es)) e) at 2.
      by apply do_update_same.
Qed.

(** When every key of [es] is stored already, inserting [es] only
    overwrites. *)
Lemma upsert_all_overwrites n es rows :
  (forall e, e ∈ es -> customer_id e ∈ keys rows) ->
  upsert_all n es rows = map (overwrite es) rows.
Proof.
  revert n rows. induction es as [|e es IH]; intros n rows Hcov; simpl.
  - unfold overwrite. simpl. by rewrite map_id.
  - rewrite upsert_hit by (apply Hcov; left).
    rewrite IH, map_map; [done |].
    intros e' Hin. rewrite keys_hit. apply Hcov. by right.
Qed.

Lemma upsert_all_idempotent n1 n2 es rows :
  upsert_all n2 es (upsert_all n1 es rows) = upsert_all n1 es rows.
Proof.
  rewrite upsert_all_overwrites by (intros e; apply upsert_all_covers).
  rewrite <- (map_id (upsert_all n1 es rows)) at 2.
  apply map_ext_in. intros r Hin%list_elem_of_In.
  by apply upsert_all_settled in Hin.
Qed.

Lemma coerced_functional ts es es' : coerced ts es -> coerced ts es' -> es = es'.
Proof.
  unfold coerced. intros H. revert es'.
  induction H as [|t e ts es Ht _ IH]; intros es' H'; inversion H'; subst; [done |].
  f_equal; [congruence | by apply IH].
Qed.

Lemma stored_again ts c1 c2 c2' c3 :
  stored ts c1 c2 -> snapshot c2' = snapshot c2 -> stored ts c2' c3 ->
  snapshot c3 = snapshot c2.
Proof.
  intros (es & F & S1 & _) Heq (es' & F' & S2 & _).
  rewrite (coerced_functional _ _ _ F' F) in S2.
  rewrite S2, Heq, S1. destruct (snapshot c1) as [rows|]; simpl; [| done].
  by rewrite upsert_all_idempotent.
Qed.

Lemma filter_key_hit e key rows :
  filter (fun r => customer_id (cols r) = key) (map (hit e) rows)
  = map (hit e) (filter (fun r => customer_id (cols r) = key) rows).
Proof.
  induction rows as [|r rows IH]; simpl; [done |].
  rewrite !filter_cons, IH. destruct (hit_same e r) as [_ ->].
  by case_decide.
Qed.

Lemma filter_other_hit e rows :
  filter (fun r => customer_id (cols r) <> customer_id e) (map (hit e) rows)
  = filter (fun r => customer_id (cols r) <> customer_id e) rows.
Proof.
  induction rows as [|r rows IH]; simpl; [done |].
  rewrite !filter_cons, IH. destruct (hit_same e r) as [_ ->].
  case_decide as Hne; [| done].
  unfold hit, conflicts. by rewrite bool_decide_eq_false_2.
Qed.

Lemma filter_key_absent key rows :
  key ∉ keys rows -> filter (fun r => customer_id (cols r) = key) rows = [].
Proof.
  induction rows as [|r rows IH]; simpl; [done |].
  intros [Hne Hk]%not_elem_of_cons.
  rewrite filter_cons_False by done. by apply IH.
Qed.

Lemma filter_key_unique rows old :
  NoDup (keys rows) -> old ∈ rows ->
  filter (fun r => customer_id (cols r) = customer_id (cols old)) rows = [old].
Proof.
  induction rows as [|r rows IH]; simpl; intros Hnd Hin.
  - by apply elem_of_nil in Hin.
  - apply NoDup_cons in Hnd as [Hfresh Hnd].
    apply elem_of_cons in Hin as [-> | Hin].
    + rewrite filter_cons_True by done. by rewrite filter_key_absent.
    + rewrite filter_cons_False; [by apply IH |].
      intros Heq. apply Hfresh. rewrite Heq.
      apply list_elem_of_In, (in_map (fun r => customer_id (cols r))).
      by apply list_elem_of_In.
Qed.

(** X24.  [sql_insert] is keyed on [customer_id] and replaces: when a row
    with the incoming [customer_id] is stored, the statement leaves the number of
    rows as it was and exactly one row under that [customer_id], which keeps
    its [id] and holds the incoming value in every other column, the rows
    under other keys being untouched; and a source loaded a second time, on
    a table that stands as the first load left it, leaves the table as the
    first load left it. *)
Theorem upsert_replaces_and_reload_is_idempotent :
  (forall (t : list pyval) (e : columns) (c c' : connection) (u : unit)
          (rows : list customer) (old : customer),
      coerce t = Some (Some e) ->
      snapshot c = Some rows ->
      NoDup (keys rows) ->
      old ∈ rows ->
      customer_id (cols old) = customer_id e ->
      insert_one t c = (c', Ok u) ->
      exists rows',
        snapshot c' = Some rows'
        /\ length rows' = length rows
        /\ NoDup (keys rows')
        /\ filter (fun r => customer_id (cols r) = customer_id e) rows'
           = [mkCustomer (id old) e]
        /\ filter (fun r => customer_id (cols r) <> customer_id e) rows'
           = filter (fun r => customer_id (cols r) <> customer_id e) rows)
  /\ (forall (fs : string -> file) (name : string) (bs bs' : Z)
             (records : list (list string)) (s s1 s1' s2 : env) (v1 v2 : pyval),
        fs name = Csv records ->
        process_and_insert_csv fs name bs s = (s1, Ok v1) ->
        snapshot (conn s1') = snapshot (conn s1) ->
        process_and_insert_csv fs name bs' s1' = (s2, Ok v2) ->
        snapshot (conn s2) = snapshot (conn s1)).
Proof.
  split.
  - intros t e c c' u rows old Hco Hs Hnd Hin Hkey Hrun.
    apply insert_one_ok in Hrun as (e' & rows0 & Hco' & Hs' & Hs1 & _).
    assert (e' = e) as -> by congruence.
    assert (rows0 = rows) as -> by congruence.
    assert (Hk : customer_id e ∈ keys rows).
    { rewrite <- Hkey. apply list_elem_of_In, (in_map (fun r => customer_id (cols r))).
      by apply list_elem_of_In. }
    rewrite (upsert_hit _ _ _ Hk) in Hs1.
    eexists. split; [done |].
    split; [by rewrite length_map |].
    split; [by rewrite keys_hit |].
    split; [| apply filter_other_hit].
    rewrite filter_key_hit, <- Hkey, (filter_key_unique _ _ Hnd Hin). simpl.
    unfold hit, conflicts. rewrite Hkey, bool_decide_eq_true_2 by done.
    by rewrite do_update_cols.
  - intros fs name bs bs' records s s1 s1' s2 v1 v2 Hfs H1 Heq H2.
    destruct (load_ok _ _ _ _ _ _ _ Hfs H1)
      as (_ & _ & _ & full & rest & _ & Hc & St & _).
    destruct (load_ok _ _ _ _ _ _ _ Hfs H2)
      as (_ & _ & _ & full' & rest' & _ & Hc' & St' & _).
    rewrite Hc in St. rewrite Hc' in St'.
    by eapply stored_again.
Qed.

(** ** The report *)

Lemma date_le_total a b : date_le a b \/ date_le b a.
Proof. destruct a, b; simpl; auto; lia. Qed.

Lemma date_le_trans a b c : date_le a b -> date_le b c -> date_le a c.
Proof. destruct a, b, c; simpl; try done; lia. Qed.

#[local] Instance by_date_desc_total : Total by_date_desc.
Proof.
  intros r1 r2. unfold by_date_desc, desc.
  destruct (subscription_date (cols r1)) as [a|],
           (subscription_date (cols r2)) as [b|]; auto.
  destruct (date_le_total a b); auto.
Qed.

#[local] Instance by_date_desc_trans : Transitive by_date_desc.
Proof.
  intros r1 r2 r3. unfold by_date_desc, desc.
  destruct (subscription_date (cols r1)) as [a|],
           (subscription_date (cols r2)) as [b|],
           (subscription_date (cols r3)) as [c|]; try done.
  intros. by apply date_le_trans with b.
Qed.

Lemma where_clause_spec r :
  where_clause r = true
  <-> exists first last,
        first_name (cols r) = Some first /\ last_name (cols r) = Some last
        /\ String.prefix "A" first = true /\ String.prefix "F" last = true.
Proof.
  unfold where_clause, like_prefix. rewrite andb_true_iff.
  destruct (first_name (cols r)) as [f|], (last_name (cols r)) as [l|]; split;
    try (intros [? ?]; discriminate);
    try (intros (? & ? & ? & ? & _); discriminate).
  - intros [? ?]. by exists f, l.
  - by intros (? & ? & [= <-] & [= <-] & ? & ?).
Qed.

Lemma each_print (lines : list selected) s :
  each (fun row => print (result_line row)) lines s
  = (mkEnv (out s ++ map result_line lines) (conn s), Ok tt).
Proof.
  revert s. induction lines as [|l lines IH]; intros s; simpl; run.
  - rewrite app_nil_r. by destruct s.
  - rewrite IH. simpl. by rewrite <- app_assoc.
Qed.

Lemma typecast_date_raise v e : typecast_date v = Raise e -> e = ValueError.
Proof.
  destruct v as [[|y m d|]|]; simpl; try done.
  unfold new_date. destruct (_ && _); [done |]. by intros [= <-].
Qed.

(** What [fetchall] builds of a stored row whose date has become [d]. *)
Lemma fetchall_ok (sorted : list customer) (dates : list (option datetime_date)) :
  Forall2 (fun r d => typecast_date (subscription_date (cols r)) = Ok d)
          sorted dates ->
  fetchall (map select_list sorted)
  = Ok (zip_with (fun r d => (first_name (cols r), last_name (cols r),
                              company (cols r), d)) sorted dates).
Proof.
  induction 1 as [|r d sorted dates Hd _ IH]; simpl; [done |].
  by rewrite Hd, IH.
Qed.

Lemma fetchall_raise (sorted : list customer) :
  Exists (fun r => typecast_date (subscription_date (cols r)) = Raise ValueError)
         sorted ->
  fetchall (map select_list sorted) = Raise ValueError.
Proof.
  induction 1 as [r sorted Hr | r sorted _ IH]; simpl.
  - by rewrite Hr.
  - rewrite IH.
    destruct (typecast_date (subscription_date (cols r))) as [d|e] eqn:Hd; [done |].
    by rewrite (typecast_date_raise _ _ Hd).
Qed.

Lemma fetchall_cases (sorted : list customer) :
  (exists dates,
     Forall2 (fun r d => typecast_date (subscription_date (cols r)) = Ok d)
             sorted dates)
  \/ Exists (fun r => typecast_date (subscription_date (cols r)) = Raise ValueError)
            sorted.
Proof.
  induction sorted as [|r sorted IH]; [left; exists []; constructor |].
  destruct (typecast_date (subscription_date (cols r))) as [d|e] eqn:Hd.
  - destruct IH as [[dates IH] | IH].
    + left. exists (d :: dates). by constructor.
    + right. by apply Exists_cons_tl.
  - right. apply Exists_cons_hd. by rewrite (typecast_date_raise _ _ Hd) in Hd.
Qed.

Lemma execute_query_ok c rows :
  closed c = false -> link c <> Some 0 -> snapshot c = Some rows ->
  exists c', execute_query c = (c', fetchall (run_query rows)).
Proof.
  intros Hc Hl Hs. unfold execute_query. run. unfold cursor, round_trip. simpl.
  rewrite Hc. destruct (link c) as [[|n]|]; [done | |]; simpl; rewrite Hs; eauto.
Qed.

Lemma execute_query_fails c :
  closed c = true \/ link c = Some 0 \/ snapshot c = None ->
  exists c' e, execute_query c = (c', Raise e).
Proof.
  intros H. unfold execute_query. run. unfold cursor, round_trip. simpl.
  destruct (closed c) eqn:Hc; [eauto |].
  destruct (link c) as [[|n]|] eqn:Hl; simpl; [eauto | |];
    (destruct (snapshot c) eqn:Hs; [| eauto]);
    destruct H as [H | [H | H]]; done.
Qed.

Lemma report_returns s : (get_filtered_customers s).2 = Ok PNone.
Proof.
  pose proof each_print as EP. unfold get_filtered_customers. run.
  destruct (execute_query (conn s)) as [c1 [results|e]]; simpl; [| done].
  destruct results as [|r results]; [by run |].
  by rewrite EP.
Qed.

(** Once parts 1 to 3 have succeeded, the run ends normally whatever the
    report meets: the connection is closed and the closing line printed. *)
Lemma report_then_shutdown fs c s3 :
  load_and_commit fs (mkEnv [] c) = (s3, Ok tt) ->
  exists c',
    main fs (Some c)
    = (out (get_filtered_customers s3).1
         ++ [Text (nl +:+ "Database connection closed.")], Some c', Ok tt)
    /\ closed c' = true.
Proof.
  intros H. unfold main, steps, try_finally, try_except, bind at 1 2.
  rewrite H. pose proof (report_returns s3) as Ret.
  destruct (get_filtered_customers s3) as [s4 r]. simpl in Ret. subst r.
  unfold shutdown, close. run. eauto.
Qed.

(** C8.  The report reader never raises.  When the query goes through it
    selects the stored rows whose [first_name] begins with [A] and whose
    [last_name] begins with [F], each as often as it is stored, in
    descending order of [subscription_date] (nulls first).  When every
    date among them is one [datetime.date] can hold, it prints one line
    [Name: first last, Company: company, Subscribed: date] for each, or the
    single notice that nothing matched when there is none.  A read failure
    is reported and the reader returns normally: the failure of the query,
    and that of [fetchall] on a date [datetime.date] cannot hold, which is
    a [ValueError].  Either way the main block then closes the connection
    and ends without an exception. *)
Theorem report_reader_spec (s : env) :
  (exists s', get_filtered_customers s = (s', Ok PNone))
  /\ (forall r, where_clause r = true
        <-> exists first last,
              first_name (cols r) = Some first /\ last_name (cols r) = Some last
              /\ String.prefix "A" first = true /\ String.prefix "F" last = true)
  /\ (forall rows,
        closed (conn s) = false -> link (conn s) <> Some 0 ->
        snapshot (conn s) = Some rows ->
        exists sorted,
          sorted ≡ₚ filter (fun r => where_clause r = true) rows
          /\ StronglySorted
               (fun r1 r2 => desc (subscription_date (cols r1))
                                  (subscription_date (cols r2))) sorted
          /\ ((exists dates,
                 Forall2 (fun r d => typecast_date (subscription_date (cols r)) = Ok d)
                         sorted dates)
              \/ Exists (fun r => typecast_date (subscription_date (cols r))
                                  = Raise ValueError) sorted)
          /\ (forall dates,
                Forall2 (fun r d => typecast_date (subscription_date (cols r)) = Ok d)
                        sorted dates ->
                out (get_filtered_customers s).1
                = out s
                  ++ [Text (nl +:+ "--- Querying Database for Inserted Customers (Sorted by Date) ---")]
                  ++ match sorted with
                     | [] => [Text "No matching customers found in the database."]
                     | _ :: _ =>
                         zip_with
                           (fun r d =>
                              Text ("Name: " +:+ str_text (first_name (cols r))
                                    +:+ " " +:+ str_text (last_name (cols r))
                                    +:+ ", Company: " +:+ str_text (company (cols r))
                                    +:+ ", Subscribed: " +:+ str_date_opt d))
                           sorted dates
                     end)
          /\ (Exists (fun r => typecast_date (subscription_date (cols r))
                               = Raise ValueError) sorted ->
              out (get_filtered_customers s).1
              = out s
                ++ [ Text (nl +:+ "--- Querying Database for Inserted Customers (Sorted by Date) ---");
                     TextExn "An error occurred while querying the database: "
                             ValueError ]))
  /\ (forall y m d,
        typecast_date (Some (Day y m d))
        = if Z.leb 1 y && Z.leb y 9999 && Nat.leb 1 m && Nat.leb m 12
             && Nat.leb 1 d && Nat.leb d (days_in_month (Z.to_nat y) m)
          then Ok (Some (mkDate (Z.to_nat y) m d)) else Raise ValueError)
  /\ (closed (conn s) = true \/ link (conn s) = Some 0 \/ snapshot (conn s) = None ->
      exists e,
        out (get_filtered_customers s).1
        = out s
          ++ [ Text (nl +:+ "--- Querying Database for Inserted Customers (Sorted by Date) ---");
               TextExn "An error occurred while querying the database: " e ])
  /\ (forall fs c,
        load_and_commit fs (mkEnv [] c) = (s, Ok tt) ->
        exists c',
          main fs (Some c)
          = (out (get_filtered_customers s).1
               ++ [Text (nl +:+ "Database connection closed.")], Some c', Ok tt)
          /\ closed c' = true).
Proof.
  split; [| split; [apply where_clause_spec | split; [| split; [| split]]]];
    [| | | | intros fs c; apply report_then_shutdown].
  - pose proof each_print as EP. unfold get_filtered_customers. run.
    destruct (execute_query (conn s)) as [c1 [results|e]]; simpl; [| eauto].
    destruct results as [|r results]; [run; eauto |].
    eexists. rewrite EP. simpl. reflexivity.
  - intros rows Hc Hl Hs.
    exists (merge_sort by_date_desc (filter (fun r => where_clause r = true) rows)).
    split; [apply merge_sort_Permutation |].
    split; [apply (StronglySorted_merge_sort by_date_desc) |].
    split; [apply fetchall_cases |].
    pose proof each_print as EP. unfold get_filtered_customers. run.
    destruct (execute_query_ok _ _ Hc Hl Hs) as [c' ->]. simpl.
    unfold run_query. split.
    + intros dates Hdates. rewrite (fetchall_ok _ _ Hdates).
      destruct Hdates as [|r d sorted dates Hd Hdates];
        [simpl; run; by rewrite <- app_assoc |].
      change (zip_with ?f (r :: sorted) (d :: dates))
        with (f r d :: zip_with f sorted dates).
      cbv beta iota. rewrite EP. simpl. rewrite <- app_assoc. simpl.
      do 3 f_equal. clear. revert dates.
      induction sorted as [|r sorted IH]; intros [|d dates]; simpl; try done.
      by rewrite IH.
    + intros Hbad. rewrite (fetchall_raise _ Hbad). simpl.
      by rewrite <- app_assoc.
  - intros y m d. simpl. unfold new_date. by destruct (_ && _).
  - intros H. unfold get_filtered_customers. run.
    destruct (execute_query_fails _ H) as (c' & e & ->). simpl.
    exists e. by rewrite <- app_assoc.
Qed.

(** ** The run as a whole *)

Lemma end_txn_ok kept_rows c c' u :
  end_txn kept_rows c = (c', Ok u) ->
  history c' = history c /\ closed c' = false.
Proof.
  unfold end_txn. destruct (closed c) eqn:Hc; [done |].
  destruct (in_txn c); [| by intros [= <-]].
  destruct (round_trip c) as [c1 [[]|e]] eqn:R; [| done].
  apply round_trip_ok in R as (_ & Hc1 & _ & _ & _ & _ & Hh).
  by intros [= <-].
Qed.

Lemma commit_ok c c' u :
  commit c = (c', Ok u) ->
  history c' = history c ++ [EvCommit] /\ closed c' = false.
Proof.
  unfold commit. run.
  intros H. by apply end_txn_ok in H as [Hh Hc].
Qed.

Lemma execute_create_ok c c' u :
  execute_create c = (c', Ok u) ->
  history c' = history c ++ [EvExecute create_table_sql].
Proof.
  unfold execute_create. run. unfold cursor.
  destruct (closed c); [done |].
  destruct (round_trip _) as [c1 [[]|e]] eqn:R; simpl; [| done].
  apply round_trip_ok in R as (_ & _ & _ & _ & _ & _ & Hh). simpl in Hh.
  destruct (snapshot c1); intros [= <-]; by simpl.
Qed.

Lemma setup_database_ok s s' v :
  setup_database s = (s', Ok v) ->
  history (conn s')
  = history (conn s) ++ [EvExecute create_table_sql; EvCommit].
Proof.
  unfold setup_database. run.
  destruct (execute_create (conn s)) as [c1 [[]|e]] eqn:X; simpl.
  - apply execute_create_ok in X.
    destruct (commit c1) as [c2 [[]|e]] eqn:Y; simpl.
    + apply commit_ok in Y as [Hh _]. intros [= <- _]. simpl.
      by rewrite Hh, X, <- app_assoc.
    + by destruct (rollback c2) as [c3 [[]|e']].
  - by destruct (rollback c1) as [c3 [[]|e']].
Qed.

(** A load that returns normally has made bulk writes only, and has
    committed none of them. *)
Lemma load_returns fs name bs s s' v :
  process_and_insert_csv fs name bs s = (s', Ok v) ->
  durable (conn s') = durable (conn s)
  /\ exists calls,
       history (conn s') = history (conn s) ++ map (EvExecutemany sql_insert) calls.
Proof.
  destruct (fs name) as [| |records] eqn:Hfs.
  - unfold process_and_insert_csv, open_rows. rewrite Hfs. run.
    intros [= <- _]. split; [done |]. exists []. by rewrite app_nil_r.
  - unfold process_and_insert_csv, open_rows. rewrite Hfs. by run.
  - intros H.
    destruct (load_ok _ _ _ _ _ _ _ Hfs H) as (_ & Hd & _ & full & rest & Hh & _).
    split; [done |]. by exists (full ++ rest).
Qed.

Lemma report_history s :
  closed (conn s) = false ->
  history (conn (get_filtered_customers s).1)
  = history (conn s) ++ [EvExecute sql_query].
Proof.
  intros Hc. pose proof each_print as EP. unfold get_filtered_customers. run.
  unfold execute_query. run. unfold cursor. simpl. rewrite Hc.
  pose proof (round_trip_keeps (record_event (EvExecute sql_query) (conn s)))
    as [Hh _].
  destruct (round_trip _) as [c1 [[]|e]]; simpl in *; [| done].
  destruct (snapshot c1); simpl; [| done].
  destruct (fetchall (run_query _)) as [[|r results]|e]; [by run | | done].
  by rewrite EP.
Qed.

(** A missing file is reported and the loader returns normally, the
    connection untouched. *)
Lemma missing_source_is_skipped fs name bs s :
  fs name = Missing ->
  process_and_insert_csv fs name bs s
  = (mkEnv (out s ++ [ Text ("Starting to process '" +:+ name +:+ "'...");
                       Text ("Error: Input file '" +:+ name +:+ "' not found.") ])
           (conn s), Ok PNone).
Proof.
  intros Hfs. unfold process_and_insert_csv, open_rows. rewrite Hfs. run.
  by rewrite <- app_assoc.
Qed.





Lemma end_txn_history kept_rows c : history (end_txn kept_rows c).1 = history c.
Proof.
  unfold end_txn. destruct (closed c); [done |]. destruct (in_txn c); [| done].
  pose proof (round_trip_keeps c) as [Hh _].
  by destruct (round_trip c) as [c1 [[]|e]].
Qed.

(** What the main block does with an exception that leaves its [try] body:
    [OperationalError] is printed as a connection error and the connection
    closed; for any other exception [rollback] is called first. *)
Lemma failure_handling fs c s e :
  steps fs (mkEnv [] c) = (s, Raise e) ->
  exists o c' r,
    main fs (Some c) = (o, Some c', r)
    /\ closed c' = true
    /\ history c'
       = history (conn s)
         ++ (if decide (e = OperationalError) then [EvClose]
             else [EvRollback; EvClose]).
Proof.
  intros H. unfold main, try_finally, try_except. rewrite H.
  unfold shutdown, close.
  destruct (decide (e = OperationalError)) as [-> | Hne].
  - unfold handlers. run. eauto 10.
  - assert (handlers e s
            = ((print (Text "An error occurred. Rolling back all changes.") ;;
                print (TextExn "Details: " e) ;;
                on_conn rollback) s)) as -> by (by destruct e).
    unfold rollback. run.
    pose proof (end_txn_history durable (record_event EvRollback (conn s))) as Hh.
    destruct (end_txn durable _) as [c1 [[]|e1]]; simpl in *;
      do 3 eexists; (split; [reflexivity |]); simpl;
      by rewrite Hh, <- app_assoc.
Qed.

(** C6, as amended.  A run whose steps all succeed commits twice: the schema
    initializer commits its [CREATE TABLE] when it is done, and the main
    block commits once more after the loader has returned.  Every bulk
    write of the loader lies between the two commits, none of them is
    committed before the second one, and nothing is committed in between
    or afterwards. *)
Theorem run_commits_twice (fs : string -> file) (c : connection) (s : env) :
  steps fs (mkEnv [] c) = (s, Ok tt) ->
  exists calls c' sa sb va vb,
    main fs (Some c)
    = (out s ++ [Text (nl +:+ "Database connection closed.")], Some c', Ok tt)
    /\ history c'
       = history c ++ [EvExecute create_table_sql; EvCommit]
           ++ map (EvExecutemany sql_insert) calls
           ++ [EvCommit; EvExecute sql_query; EvClose]
    /\ commits (history c') = commits (history c) + 2
    /\ setup_database (mkEnv [Text "Database connection established."] c)
       = (sa, Ok va)
    /\ process_and_insert_csv fs CSV_FILE_TO_PROCESS 1000 sa = (sb, Ok vb)
    /\ durable (conn sb) = durable (conn sa).
Proof.
  intros H. unfold main. unfold try_finally, try_except at 1. rewrite H.
  unfold shutdown, close. run.
  unfold steps, load_and_commit in H. run.
  destruct (setup_database _) as [sa [va|e]] eqn:Setup; simpl in H; [| done].
  destruct (process_and_insert_csv _ _ _ sa) as [sb [vb|e]] eqn:Load;
    simpl in H; [| done].
  destruct (commit (conn sb)) as [cc [[]|e]] eqn:Commit; simpl in H; [| done].
  pose proof (report_returns (mkEnv (out sb ++ [Text (nl +:+ "All database changes have been committed.")]) cc)) as Ret.
  pose proof (report_history (mkEnv (out sb ++ [Text (nl +:+ "All database changes have been committed.")]) cc)) as Hq.
  destruct (get_filtered_customers _) as [sq [vq|e]]; simpl in *; [| done].
  injection H as <-.
  pose proof (setup_database_ok _ _ _ Setup) as Hs. simpl in Hs.
  destruct (load_returns _ _ _ _ _ _ Load) as [Hd [calls Hl]].
  apply commit_ok in Commit as [Hc Hcl].
  specialize (Hq Hcl).
  exists calls. eexists. exists sa, sb, va, vb.
  split; [reflexivity |]. simpl.
  assert (Hh : history (conn sq) ++ [EvClose]
               = history c ++ [EvExecute create_table_sql; EvCommit]
                   ++ map (EvExecutemany sql_insert) calls
                   ++ [EvCommit; EvExecute sql_query; EvClose]).
  { rewrite Hq, Hc, Hl, Hs. by rewrite <- !app_assoc. }
  split; [done |]. split; [| done].
  rewrite Hh. unfold commits. rewrite !filter_app, !length_app. simpl.
  assert (filter (fun ev => ev = EvCommit) (map (EvExecutemany sql_insert) calls) = [])
    as ->; [| simpl; lia].
  clear. induction calls as [|b calls IH]; simpl; [done |].
  by rewrite filter_cons_False.
Qed.

(** ** The loader, whatever its outcome *)

Lemma executemany_any ts c :
  durable (executemany ts c).1 = durable c
  /\ (history (executemany ts c).1 = history c
      \/ (history (executemany ts c).1 = history c ++ [EvExecutemany sql_insert ts])).
Proof.
  split; [| apply executemany_history].
  unfold executemany. run. unfold cursor. destruct (closed c); [done |].
  pose proof (each_insert_keeps ts (record_event (EvExecutemany sql_insert ts) c))
    as [_ Hd].
  by destruct (each insert_one ts _) as [c1 [[]|e]].
Qed.

(** The batches a pass over the rows has written, [calls], against the
    tuples of the rows that pass the filter: all of them when the pass
    returns, a prefix when it raises. *)
Lemma for_rows_any bs rows st s :
  durable (conn (for_rows bs rows st s).1) = durable (conn s)
  /\ exists calls,
       history (conn (for_rows bs rows st s).1)
       = history (conn s) ++ map (EvExecutemany sql_insert) calls
       /\ match (for_rows bs rows st s).2 with
          | Ok st' => concat calls ++ batch st' = batch st ++ map row_tuple (kept rows)
          | Raise _ => concat calls `prefix_of` batch st ++ map row_tuple (kept rows)
          end
       /\ ((0 < bs)%Z -> (Z.of_nat (length (batch st)) < bs)%Z ->
           Forall (fun b => 0 < length b /\ (Z.of_nat (length b) <= bs)%Z) calls
           /\ match (for_rows bs rows st s).2 with
              | Ok st' => (Z.of_nat (length (batch st')) < bs)%Z
              | Raise _ => True
              end).
Proof.
  revert st s. induction rows as [|row rows IH]; intros st s; simpl.
  - run. split; [done |]. exists []. simpl. rewrite !app_nil_r. auto.
  - unfold loop_body. run.
    destruct (select_row row st) as [st1|e] eqn:Sel; simpl.
    2:{ split; [done |]. exists []. simpl. rewrite app_nil_r.
        split; [done |]. split; [apply prefix_nil | auto]. }
    apply select_row_ok in Sel. rewrite kept_cons, map_app.
    assert (Hb1 : batch st1 ++ map row_tuple (kept rows)
                  = batch st ++ map row_tuple (if name_filter row then [row] else [])
                      ++ map row_tuple (kept rows)).
    { subst st1. simpl. rewrite <- app_assoc. by destruct (name_filter row). }
    assert (Hl1 : length (batch st1) <= S (length (batch st))).
    { subst st1. simpl. rewrite length_app. destruct (name_filter row); simpl; lia. }
    rewrite <- Hb1. clear Hb1 Sel.
    unfold flush_if_full.
    destruct (bs <=? Z.of_nat (length (batch st1)))%Z eqn:Full; run.
    + apply Z.leb_le in Full.
      destruct (executemany_any (batch st1) (conn s)) as [Hd Hh].
      destruct (executemany (batch st1) (conn s)) as [c1 [[]|e]] eqn:X; simpl in *.
      * apply executemany_ok in X as (_ & Hh1 & _ & _).
        set (s1 := mkEnv _ c1).
        destruct (IH (mkLoop [] (total_processed st1) (total_inserted st1)) s1)
          as (Hd2 & calls & Hh2 & Hc2 & Hz2).
        split; [by rewrite Hd2 |].
        exists (batch st1 :: calls). simpl.
        split; [by rewrite Hh2; simpl; rewrite Hh1, <- app_assoc |].
        split.
        { destruct (for_rows bs rows _ s1).2; simpl in Hc2.
          - by rewrite <- app_assoc, Hc2.
          - by apply prefix_app. }
        intros Pos Lt. destruct Hz2 as [Hz Hz']; [done | simpl; lia |].
        split; [| done]. constructor; [lia | done].
      * split; [done |].
        destruct Hh as [Hh | Hh]; rewrite Hh.
        -- exists []. simpl. rewrite app_nil_r.
           split; [done |]. split; [apply prefix_nil | auto].
        -- exists [batch st1]. simpl. rewrite app_nil_r.
           split; [done |]. split; [by apply prefix_app_r |].
           intros Pos Lt. split; [| done]. repeat constructor; lia.
    + apply Z.leb_gt in Full.
      destruct (IH st1 s) as (Hd2 & calls & Hh2 & Hc2 & Hz2).
      split; [done |]. exists calls. split; [done |]. split; [done |].
      intros Pos Lt. by apply Hz2.
Qed.

Lemma flush_rest_any st s :
  durable (conn (flush_rest st s).1) = durable (conn s)
  /\ exists rest,
       history (conn (flush_rest st s).1)
       = history (conn s) ++ map (EvExecutemany sql_insert) rest
       /\ (rest = [] \/ (rest = [batch st] /\ batch st <> [])).
Proof.
  unfold flush_rest. destruct (batch st) as [|t ts] eqn:B; run.
  - split; [done |]. exists []. simpl. rewrite app_nil_r. auto.
  - destruct (executemany_any (t :: ts) (conn s)) as [Hd Hh].
    destruct (executemany (t :: ts) (conn s)) as [c1 [[]|e]]; simpl in *;
      (split; [done |]);
      (destruct Hh as [Hh | Hh]; rewrite Hh;
       [exists []; simpl; rewrite app_nil_r; auto
       | exists [t :: ts]; simpl; split; [done |]; right; by split]).
Qed.

(** The loader on any file system, batch size and state. *)
Lemma load_any fs name bs s :
  durable (conn (process_and_insert_csv fs name bs s).1) = durable (conn s)
  /\ exists calls,
       history (conn (process_and_insert_csv fs name bs s).1)
       = history (conn s) ++ map (EvExecutemany sql_insert) calls
       /\ (forall records, fs name = Csv records ->
             concat calls `prefix_of` map row_tuple (kept (DictReader records)))
       /\ ((forall records, fs name <> Csv records) -> calls = [])
       /\ ((0 < bs)%Z ->
           Forall (fun b => 0 < length b /\ (Z.of_nat (length b) <= bs)%Z) calls).
Proof.
  unfold process_and_insert_csv, open_rows.
  destruct (fs name) as [| |records] eqn:Hfs; run.
  1,2: split; [done |]; exists []; simpl; rewrite app_nil_r;
       split; [done |]; split; [done |]; split; [done | by constructor].
  set (s0 := mkEnv _ _).
  destruct (for_rows_any bs (DictReader records) (mkLoop [] 0 0) s0)
    as (Hd & calls & Hh & Hc & Hz).
  change (conn s0) with (conn s) in Hd, Hh. simpl in Hc, Hz.
  destruct (for_rows bs _ _ s0) as [s1 [st|e]]; simpl in *.
  - destruct (flush_rest_any st s1) as (Hd2 & rest & Hh2 & Hrest).
    assert (Hfin : durable (conn (flush_rest st s1).1) = durable (conn s)
              /\ exists calls',
                   history (conn (flush_rest st s1).1)
                   = history (conn s) ++ map (EvExecutemany sql_insert) calls'
                   /\ (forall records0, Csv records = Csv records0 ->
                         concat calls' `prefix_of`
                           map row_tuple (kept (DictReader records0)))
                   /\ ((forall records0, Csv records <> Csv records0) -> calls' = [])
                   /\ ((0 < bs)%Z ->
                       Forall (fun b => 0 < length b
                                        /\ (Z.of_nat (length b) <= bs)%Z) calls')).
    { split; [congruence |]. exists (calls ++ rest).
      split; [by rewrite Hh2, Hh, map_app, app_assoc |].
      split; [| split].
      - intros records0 [= <-]. rewrite concat_app, <- Hc.
        apply prefix_app.
        destruct Hrest as [-> | [-> _]]; simpl; [apply prefix_nil |].
        by rewrite app_nil_r.
      - intros Hne. by destruct (Hne records).
      - intros Pos. destruct Hz as [Hz1 Hz2]; [done | simpl; lia |].
        apply Forall_app. split; [done |].
        destruct Hrest as [-> | [-> Hne]]; [constructor |].
        repeat constructor; [| lia].
        destruct (batch st); [done | simpl; lia]. }
    clear Hd2 Hh2 Hrest.
    destruct (flush_rest st s1) as [s2 [[]|e]]; simpl in *.
    + unfold report_totals. by run.
    + by destruct e.
  - assert (Hfin : durable (conn s1) = durable (conn s)
              /\ exists calls',
                   history (conn s1)
                   = history (conn s) ++ map (EvExecutemany sql_insert) calls'
                   /\ (forall records0, Csv records = Csv records0 ->
                         concat calls' `prefix_of`
                           map row_tuple (kept (DictReader records0)))
                   /\ ((forall records0, Csv records <> Csv records0) -> calls' = [])
                   /\ ((0 < bs)%Z ->
                       Forall (fun b => 0 < length b
                                        /\ (Z.of_nat (length b) <= bs)%Z) calls')).
    { split; [done |]. exists calls. split; [done |]. split; [| split].
      - by intros records0 [= <-].
      - intros Hne. by destruct (Hne records).
      - intros Pos. by apply Hz. }
    by destruct e.
Qed.

(** X1.  Whatever its outcome, the loader commits nothing and makes no call
    on the connection other than [executemany]: what the server holds
    committed is what it held before, and the calls added to the history
    are bulk writes only. *)
Theorem loader_only_writes (fs : string -> file) (name : string) (bs : Z) (s : env) :
  durable (conn (process_and_insert_csv fs name bs s).1) = durable (conn s)
  /\ exists calls,
       history (conn (process_and_insert_csv fs name bs s).1)
       = history (conn s) ++ map (EvExecutemany sql_insert) calls.
Proof.
  destruct (load_any fs name bs s) as (Hd & calls & Hh & _). eauto.
Qed.

(** X2.  With a positive batch size, every bulk write the loader makes,
    also in a load that fails later, carries at least one tuple and at most
    [batch_size] of them. *)
Theorem batches_are_bounded (fs : string -> file) (name : string) (bs : Z) (s : env) :
  (0 < bs)%Z ->
  exists calls,
    history (conn (process_and_insert_csv fs name bs s).1)
    = history (conn s) ++ map (EvExecutemany sql_insert) calls
    /\ Forall (fun b => 0 < length b /\ (Z.of_nat (length b) <= bs)%Z) calls.
Proof.
  intros Pos. destruct (load_any fs name bs s) as (_ & calls & Hh & _ & _ & Hz).
  exists calls. auto.
Qed.

(** X3.  Whatever the outcome and the batch size, the tuples the loader has
    passed to [executemany], taken in call order, are a prefix of the tuples
    of the rows that pass the filter: a load that fails has sent no row
    twice, none out of order and none that fails the filter. *)
Theorem writes_are_a_prefix (fs : string -> file) (name : string) (bs : Z)
    (records : list (list string)) (s : env) :
  fs name = Csv records ->
  exists calls,
    history (conn (process_and_insert_csv fs name bs s).1)
    = history (conn s) ++ map (EvExecutemany sql_insert) calls
    /\ concat calls `prefix_of` map row_tuple (kept (DictReader records)).
Proof.
  intros Hfs. destruct (load_any fs name bs s) as (_ & calls & Hh & Hp & _).
  exists calls. auto.
Qed.

(** ** Cells the loop does not read *)

Lemma agree_select_row row1 row2 st :
  agree row1 row2 -> select_row row1 st = select_row row2 st.
Proof.
  intros H.
  assert (Hk : forall key, key ∈ read_labels -> row1 !! key = row2 !! key) by done.
  unfold select_row, data_tuple, sub_date_of, dict_get, dict_get_default.
  rewrite !(Hk "First Name"), !(Hk "Last Name"), !(Hk "Subscription date"),
    !(Hk "Customer Id"), !(Hk "Company"), !(Hk "City"), !(Hk "Country"),
    !(Hk "Phone 1"), !(Hk "Phone 2"), !(Hk "Email"), !(Hk "Website");
    [done | unfold read_labels; repeat constructor ..].
Qed.

Lemma agree_for_rows bs rows1 rows2 st s :
  Forall2 agree rows1 rows2 -> for_rows bs rows1 st s = for_rows bs rows2 st s.
Proof.
  intros H. revert st s.
  induction H as [|row1 row2 rows1 rows2 Hrow _ IH]; intros st s; simpl; [done |].
  unfold loop_body. run. rewrite (agree_select_row _ _ st Hrow).
  destruct (select_row row2 st) as [st1|e]; simpl; [| done].
  destruct (flush_if_full bs st1 s) as [s1 [st2|e]]; simpl; [| done].
  apply IH.
Qed.

(** X4.  The loader depends on a source only through the cells under the
    eleven labels it looks up: two sources whose rows hold the same cells
    under those labels are loaded with the same output, the same calls on
    the connection and the same result.  [Index] and [Subscription Date] are
    not among the labels, so neither has any influence. *)
Theorem unread_columns_are_ignored (fs1 fs2 : string -> file) (name : string)
    (bs : Z) (records1 records2 : list (list string)) (s : env) :
  fs1 name = Csv records1 ->
  fs2 name = Csv records2 ->
  Forall2 agree (DictReader records1) (DictReader records2) ->
  process_and_insert_csv fs1 name bs s = process_and_insert_csv fs2 name bs s
  /\ ("Index" ∉ read_labels) /\ ("Subscription Date" ∉ read_labels).
Proof.
  intros H1 H2 Hag.
  split; [| split; unfold read_labels; intros H;
            repeat (apply elem_of_cons in H as [H | H]; [discriminate |]);
            by apply elem_of_nil in H].
  unfold process_and_insert_csv, open_rows. rewrite H1, H2. run.
  by rewrite (agree_for_rows bs _ _ _ _ Hag).
Qed.

(** ** A record cut short *)

Lemma for_rows_app bs rows1 rows2 st s :
  for_rows bs (rows1 ++ rows2) st s
  = (do st' <- for_rows bs rows1 st; for_rows bs rows2 st') s.
Proof.
  revert st s. induction rows1 as [|row rows1 IH]; intros st s; simpl; run; [done |].
  destruct (loop_body bs row st s) as [s1 [st1|e]]; simpl; [| done].
  apply IH.
Qed.

Lemma for_rows_below bs rows st s :
  Forall (fun row => exists b,
            passes (dict_get_default row "First Name" (PStr ""))
                   (dict_get_default row "Last Name" (PStr "")) = Ok b) rows ->
  (Z.of_nat (length (batch st) + length (kept rows)) < bs)%Z ->
  exists st', for_rows bs rows st s = (s, Ok st').
Proof.
  intros H. revert st.
  induction H as [|row rows [b Hb] _ IH]; intros st Hlt; simpl; run; [eauto |].
  unfold loop_body, select_row. run. rewrite Hb.
  rewrite kept_cons, length_app in Hlt.
  rewrite (passes_name_filter _ _ Hb) in *.
  destruct (name_filter row); simpl in *.
  - unfold flush_if_full. simpl. rewrite length_app. simpl.
    destruct (Z.leb_spec bs (Z.of_nat (length (batch st) + 1))); [lia |]. run.
    apply IH. simpl. rewrite length_app. simpl. lia.
  - unfold flush_if_full. simpl.
    destruct (Z.leb_spec bs (Z.of_nat (length (batch st)))); [lia |]. run.
    apply IH. simpl. lia.
Qed.

(** X5.  A record so short that [DictReader] fills its First Name with
    [None] stops the load with [AttributeError].  When fewer than
    [batch_size] rows had passed the filter before it, nothing was written:
    the rows gathered in the batch are dropped, no call is made on the
    connection, and the rows after the record are not read. *)
Theorem short_record_aborts (fs : string -> file) (name : string) (bs : Z)
    (records : list (list string))
    (before after : list (gmap string pyval)) (bad : gmap string pyval) (s : env) :
  fs name = Csv records ->
  DictReader records = before ++ bad :: after ->
  bad !! "First Name" = Some PNone ->
  Forall (fun row => exists b,
            passes (dict_get_default row "First Name" (PStr ""))
                   (dict_get_default row "Last Name" (PStr "")) = Ok b) before ->
  (Z.of_nat (length (kept before)) < bs)%Z ->
  process_and_insert_csv fs name bs s
  = (mkEnv (out s ++ [ Text ("Starting to process '" +:+ name +:+ "'...");
                       TextExn "An error occurred while processing the file: "
                               AttributeError ])
           (conn s),
     Raise AttributeError).
Proof.
  intros Hfs Hrows Hbad Hbefore Hlt.
  unfold process_and_insert_csv, open_rows. rewrite Hfs, Hrows. run.
  rewrite for_rows_app. run.
  destruct (for_rows_below bs before (mkLoop [] 0 0)
              (mkEnv (out s ++ [Text ("Starting to process '" +:+ name +:+ "'...")])
                     (conn s)) Hbefore) as [st' ->]; [simpl; lia |].
  simpl. unfold loop_body, select_row, passes, dict_get_default. run.
  rewrite Hbad. simpl. by rewrite <- app_assoc.
Qed.

(** ** The table set up *)

(** X6.  On an open connection whose link holds, [setup_database] succeeds
    and commits: a table that exists keeps every row the session sees, a
    table that does not exist is created empty.  Calling it again changes
    nothing. *)
Theorem setup_creates_if_absent (s : env) :
  closed (conn s) = false ->
  link (conn s) = None ->
  exists s' s'',
    setup_database s = (s', Ok PNone)
    /\ durable (conn s') = Some (default [] (snapshot (conn s)))
    /\ snapshot (conn s') = durable (conn s')
    /\ in_txn (conn s') = false
    /\ out s' = out s ++ [Text "Successfully ensured 'customers' table exists."]
    /\ setup_database s' = (s'', Ok PNone)
    /\ durable (conn s'') = durable (conn s')
    /\ snapshot (conn s'') = snapshot (conn s').
Proof.
  destruct s as [o [d sn se it l cl h]]. simpl. intros -> ->.
  unfold setup_database, execute_create, commit, end_txn. run.
  unfold cursor, round_trip. simpl.
  destruct sn as [rows|]; simpl; eexists _, _; repeat split.
Qed.

(** ** The table after a load *)

Lemma hit_identity e r : identity (hit e r) = identity r.
Proof. unfold identity. by destruct (hit_same e r) as [-> ->]. Qed.

Lemma identity_upsert_all n es rows :
  exists new,
    map identity (upsert_all n es rows) = map identity rows ++ new
    /\ Forall (fun p => n < p.1) new.
Proof.
  revert n rows. induction es as [|e es IH]; intros n rows; simpl.
  - exists []. by rewrite app_nil_r.
  - destruct (IH (S n) (upsert (S n) e rows)) as (new2 & H2 & F2).
    destruct (decide (customer_id e ∈ keys rows)) as [Hin | Hout].
    + rewrite (upsert_hit _ _ _ Hin) in *. rewrite map_map in H2.
      rewrite (map_ext _ identity (fun r => hit_identity e r)) in H2.
      exists new2. split; [done |].
      eapply Forall_impl; [done |]. simpl. lia.
    + rewrite (upsert_miss _ _ _ Hout) in *. rewrite map_app in H2. simpl in H2.
      exists ((S n, customer_id e) :: new2). rewrite H2, <- app_assoc.
      split; [done |]. constructor; [simpl; lia |].
      eapply Forall_impl; [done |]. simpl. lia.
Qed.

Lemma keys_upsert_iff n e rows key :
  key ∈ keys (upsert n e rows) <-> key ∈ keys rows \/ key = customer_id e.
Proof.
  destruct (decide (customer_id e ∈ keys rows)) as [Hin | Hout].
  - rewrite (upsert_hit _ _ _ Hin), keys_hit. split; [auto |].
    by intros [H | ->].
  - rewrite (upsert_miss _ _ _ Hout). unfold keys. rewrite map_app. simpl.
    by rewrite elem_of_app, list_elem_of_singleton.
Qed.

Lemma keys_upsert_all n es rows key :
  key ∈ keys (upsert_all n es rows)
  <-> key ∈ keys rows \/ key ∈ map customer_id es.
Proof.
  revert n rows. induction es as [|e es IH]; intros n rows; simpl.
  - split; [auto |]. intros [H | H]; [done |]. by apply elem_of_nil in H.
  - rewrite IH, keys_upsert_iff, elem_of_cons. tauto.
Qed.

Lemma NoDup_upsert n e rows : NoDup (keys rows) -> NoDup (keys (upsert n e rows)).
Proof.
  intros Hnd. destruct (decide (customer_id e ∈ keys rows)) as [Hin | Hout].
  - by rewrite (upsert_hit _ _ _ Hin), keys_hit.
  - rewrite (upsert_miss _ _ _ Hout). unfold keys. rewrite map_app. simpl.
    apply NoDup_app. split; [done |]. split; [| apply NoDup_singleton].
    intros key Hk Hk'%list_elem_of_singleton. by subst.
Qed.

Lemma NoDup_upsert_all n es rows :
  NoDup (keys rows) -> NoDup (keys (upsert_all n es rows)).
Proof.
  revert n rows. induction es as [|e es IH]; intros n rows Hnd; simpl; [done |].
  by apply IH, NoDup_upsert.
Qed.

Lemma overwrite_unhit es r :
  Forall (fun e => customer_id e <> customer_id (cols r)) es -> overwrite es r = r.
Proof.
  unfold overwrite. induction 1 as [|e es He _ IH]; simpl; [done |].
  unfold hit at 2, conflicts. rewrite bool_decide_eq_false_2; [done |].
  by intros Heq.
Qed.

Lemma overwrite_last l1 e l2 r :
  customer_id e = customer_id (cols r) ->
  Forall (fun e' => customer_id e' <> customer_id e) l2 ->
  cols (overwrite (l1 ++ e :: l2) r) = e.
Proof.
  intros Hk Hl2. unfold overwrite. rewrite foldl_app. simpl.
  fold (overwrite l1 r). fold (overwrite l2 (hit e (overwrite l1 r))).
  destruct (overwrite_same l1 r) as [_ Hk1].
  assert (Hhit : hit e (overwrite l1 r) = mkCustomer (id (overwrite l1 r)) e).
  { unfold hit, conflicts. rewrite bool_decide_eq_true_2 by congruence.
    apply do_update_cols. congruence. }
  rewrite Hhit, overwrite_unhit; [done |]. by simpl.
Qed.

Lemma upsert_all_untouched n es rows r :
  r ∈ upsert_all n es rows ->
  customer_id (cols r) ∉ map customer_id es ->
  r ∈ rows.
Proof.
  revert n rows. induction es as [|e es IH]; intros n rows Hin Hk; simpl in *;
    [done |].
  apply not_elem_of_cons in Hk as [Hne Hk].
  specialize (IH _ _ Hin Hk).
  destruct (decide (customer_id e ∈ keys rows)) as [He | He].
  - rewrite (upsert_hit _ _ _ He) in IH.
    apply list_elem_of_In, in_map_iff in IH as (r0 & <- & Hr0%list_elem_of_In).
    destruct (hit_same e r0) as [_ Hsame]. rewrite Hsame in Hne.
    unfold hit, conflicts. by rewrite bool_decide_eq_false_2.
  - rewrite (upsert_miss _ _ _ He) in IH.
    apply elem_of_app in IH as [IH | IH%list_elem_of_singleton]; [done |].
    subst r. by destruct Hne.
Qed.

(** What a load that returns has done to the table the session sees. *)
Lemma load_table fs name bs records s s' v rows :
  fs name = Csv records ->
  process_and_insert_csv fs name bs s = (s', Ok v) ->
  snapshot (conn s) = Some rows ->
  exists es,
    coerced (map row_tuple (kept (DictReader records))) es
    /\ snapshot (conn s') = Some (upsert_all (serial (conn s)) es rows).
Proof.
  intros Hfs H Hs.
  destruct (load_ok _ _ _ _ _ _ _ Hfs H)
    as (_ & _ & _ & full & rest & _ & Hc & (es & Hco & Hsn & _) & _).
  exists es. rewrite Hc in Hco. by rewrite Hsn, Hs.
Qed.

(** X7.  A load that returns deletes and renumbers nothing: the rows stored
    before are still there, in their order, each under its [id] and its
    [customer_id]; the rows it adds come after them, with ids the sequence
    had not given out. *)
Theorem load_keeps_stored_rows (fs : string -> file) (name : string) (bs : Z)
    (records : list (list string)) (s s' : env) (v : pyval)
    (rows : list customer) :
  fs name = Csv records ->
  process_and_insert_csv fs name bs s = (s', Ok v) ->
  snapshot (conn s) = Some rows ->
  exists rows' new,
    snapshot (conn s') = Some rows'
    /\ map identity rows' = map identity rows ++ new
    /\ Forall (fun p => serial (conn s) < p.1) new.
Proof.
  intros Hfs H Hs. destruct (load_table _ _ _ _ _ _ _ _ Hfs H Hs) as (es & _ & ->).
  destruct (identity_upsert_all (serial (conn s)) es rows) as (new & Hn & Hf).
  eauto.
Qed.

(** X8.  After a load that returns, the [customer_id]s stored are those
    stored before and those of the rows that passed the filter, and no
    [customer_id] is stored twice if none was before. *)
Theorem load_stores_each_key_once (fs : string -> file) (name : string) (bs : Z)
    (records : list (list string)) (s s' : env) (v : pyval)
    (rows : list customer) :
  fs name = Csv records ->
  process_and_insert_csv fs name bs s = (s', Ok v) ->
  snapshot (conn s) = Some rows ->
  NoDup (keys rows) ->
  exists rows' es,
    snapshot (conn s') = Some rows'
    /\ coerced (map row_tuple (kept (DictReader records))) es
    /\ NoDup (keys rows')
    /\ forall key, key ∈ keys rows' <-> key ∈ keys rows \/ key ∈ map customer_id es.
Proof.
  intros Hfs H Hs Hnd.
  destruct (load_table _ _ _ _ _ _ _ _ Hfs H Hs) as (es & Hco & ->).
  eexists _, es. split; [done |]. split; [done |].
  split; [by apply NoDup_upsert_all | apply keys_upsert_all].
Qed.

(** X9.  After a load that returns, a stored row whose [customer_id] occurs
    among the rows that passed the filter holds the columns of the last of
    them, and a stored row whose [customer_id] does not occur among them is
    a row that was stored before, unchanged. *)
Theorem last_row_wins (fs : string -> file) (name : string) (bs : Z)
    (records : list (list string)) (s s' : env) (v : pyval)
    (rows : list customer) :
  fs name = Csv records ->
  process_and_insert_csv fs name bs s = (s', Ok v) ->
  snapshot (conn s) = Some rows ->
  exists rows' es,
    snapshot (conn s') = Some rows'
    /\ coerced (map row_tuple (kept (DictReader records))) es
    /\ (forall r l1 e l2,
          r ∈ rows' -> es = l1 ++ e :: l2 ->
          customer_id e = customer_id (cols r) ->
          Forall (fun e' => customer_id e' <> customer_id e) l2 ->
          cols r = e)
    /\ (forall r, r ∈ rows' -> customer_id (cols r) ∉ map customer_id es ->
          r ∈ rows).
Proof.
  intros Hfs H Hs.
  destruct (load_table _ _ _ _ _ _ _ _ Hfs H Hs) as (es & Hco & ->).
  eexists _, es. split; [done |]. split; [done |]. split.
  - intros r l1 e l2 Hin -> Hk Hl2.
    rewrite <- (upsert_all_settled _ _ _ _ Hin) at 1.
    by apply overwrite_last.
  - intros r. apply upsert_all_untouched.
Qed.

(** ** The filter of the loader and the filter of the report *)

Lemma varchar_keeps_first n s s' a :
  varchar (S n) s = Some s' ->
  String.prefix (String a "") s = true ->
  String.prefix (String a "") s' = true.
Proof.
  unfold varchar. destruct s as [|b rest]; [done |]. intros H Hp.
  destruct (Nat.leb _ _); [by injection H as <- |].
  destruct (all_spaces _); [| done]. injection H as <-.
  simpl in *. destruct (ascii_dec a b); [| done].
  by destruct (substring 0 n rest).
Qed.

Lemma coerce_names a f l d e0 f0 g h i j k e :
  coerce [a; PStr f; PStr l; d; e0; f0; g; h; i; j; k] = Some (Some e) ->
  exists f' l', varchar 255 f = Some f' /\ varchar 255 l = Some l'
                /\ first_name e = Some f' /\ last_name e = Some l'.
Proof.
  unfold coerce. simpl.
  destruct (varchar_in 100 a) as [[a'|]|]; [| | done];
    (destruct (has_nul f); [done |]);
    (destruct (varchar 255 f) as [f'|]; simpl; [| done]);
    (destruct (has_nul l); [done |]);
    (destruct (varchar 255 l) as [l'|]; simpl; [| done]);
    repeat (case_match; try done); intros [= <-]; by exists f', l'.
Qed.

(** X10.  A row that passes the filter of the loader and is accepted by the
    store is a row the query of the report selects: its stored
    [first_name] begins with [A] and its stored [last_name] with [F]. *)
Theorem kept_rows_match_the_report (row : gmap string pyval) (e : columns) (n : nat) :
  name_filter row = true ->
  coerce (row_tuple row) = Some (Some e) ->
  where_clause (mkCustomer n e) = true.
Proof.
  unfold name_filter, where_clause, row_tuple, data_tuple.
  intros [Hf Hl]%andb_true_iff Hco.
  destruct (field_text_get row "First Name") as [Ef | [_ Ef]];
    [| rewrite Ef in Hf; discriminate].
  destruct (field_text_get row "Last Name") as [El | [_ El]];
    [| rewrite El in Hl; discriminate].
  rewrite Ef, El in Hco.
  apply coerce_names in Hco as (f' & l' & Hf' & Hl' & Hfn & Hln). simpl.
  rewrite Hfn, Hln. simpl.
  by rewrite (varchar_keeps_first _ _ _ _ Hf' Hf), (varchar_keeps_first _ _ _ _ Hl' Hl).
Qed.

(** ** What a run leaves committed *)

Ltac conn_cases :=
  repeat (progress (unfold setup_database, get_filtered_customers, execute_create,
                      execute_query, commit, rollback, close, end_txn, handlers,
                      shutdown in *));
  run; unfold cursor, round_trip, lose in *; simpl in *;
  repeat (case_match; simpl in *; simplify_eq); simpl in *; subst; simpl in *.

Lemma setup_ok_fresh s s' v :
  fresh (conn s) -> setup_database s = (s', Ok v) ->
  fresh (conn s')
  /\ durable (conn s') = Some (default [] (durable (conn s))).
Proof.
  destruct s as [o [d sn se it l cl h]]. unfold fresh. simpl.
  intros (-> & -> & ->) H. conn_cases; subst; done.
Qed.

Lemma setup_raise_durable s s' e :
  setup_database s = (s', Raise e) -> durable (conn s') = durable (conn s).
Proof.
  destruct s as [o [d sn se it l cl h]]. intros H. conn_cases; done.
Qed.

Lemma commit_ok_fresh c c' u :
  (in_txn c = false -> snapshot c = durable c) ->
  commit c = (c', Ok u) ->
  fresh c' /\ durable c' = snapshot c.
Proof.
  destruct c as [d sn se it l cl h]. unfold fresh. simpl.
  intros Hq H. conn_cases; try done; by rewrite Hq.
Qed.

Lemma commit_raise_durable c c' e :
  commit c = (c', Raise e) -> durable c' = durable c.
Proof. destruct c as [d sn se it l cl h]. intros H. conn_cases; done. Qed.

Lemma execute_query_durable c : durable (execute_query c).1 = durable c.
Proof. destruct c as [d sn se it l cl h]. conn_cases; done. Qed.

Lemma report_durable s : durable (conn (get_filtered_customers s).1) = durable (conn s).
Proof.
  pose proof each_print as EP. pose proof (execute_query_durable (conn s)) as Hd.
  unfold get_filtered_customers. run.
  destruct (execute_query (conn s)) as [c1 [results|e]]; simpl in *; [| done].
  destruct results as [|r results]; [by run |]. by rewrite EP.
Qed.

Lemma handlers_durable e s : durable (conn (handlers e s).1) = durable (conn s).
Proof. destruct s as [o [d sn se it l cl h]]. destruct e; conn_cases; done. Qed.

Lemma shutdown_closes s :
  exists c',
    shutdown s = (mkEnv (out s ++ [Text (nl +:+ "Database connection closed.")]) c',
                  Ok tt)
    /\ closed c' = true /\ durable c' = durable (conn s)
    /\ snapshot c' = durable c' /\ in_txn c' = false
    /\ history c' = history (conn s) ++ [EvClose].
Proof. unfold shutdown, close. run. eauto 10. Qed.

Lemma insert_one_in_txn t c c' u : insert_one t c = (c', Ok u) -> in_txn c' = true.
Proof.
  unfold insert_one. run.
  destruct (mogrify 11 t) as [[]|e0]; simpl; [| done].
  destruct (round_trip c) as [c1 [[]|e]]; simpl; [| done].
  destruct (snapshot c1) as [rows|]; [| done].
  destruct (coerce t) as [[x|]|]; [| | done];
    (destruct (Z.leb serial_max (Z.of_nat (serial c1))); [done |]); [| done].
  destruct (pkey_violation (S (serial c1)) x rows); [done |]. by intros [= <-].
Qed.

Lemma insert_one_keeps_txn t c c' u :
  insert_one t c = (c', Ok u) -> in_txn c' = true.
Proof. apply insert_one_in_txn. Qed.

Lemma each_insert_quiet ts c c' u :
  each insert_one ts c = (c', Ok u) ->
  (in_txn c = false -> snapshot c = durable c) ->
  in_txn c' = false -> snapshot c' = durable c'.
Proof.
  revert c. induction ts as [|t ts IH]; intros c; simpl; run.
  - by intros [= <-].
  - destruct (insert_one t c) as [c1 [[]|e]] eqn:I; simpl; [| done].
    apply insert_one_in_txn in I. intros H _. apply (IH _ H). by rewrite I.
Qed.

Lemma executemany_quiet ts c c' u :
  executemany ts c = (c', Ok u) ->
  (in_txn c = false -> snapshot c = durable c) ->
  in_txn c' = false -> snapshot c' = durable c'.
Proof.
  unfold executemany. run. unfold cursor. destruct (closed c); [done |].
  intros H Hq. by apply (each_insert_quiet _ _ _ _ H).
Qed.

Lemma for_rows_quiet bs rows st s s' st' :
  for_rows bs rows st s = (s', Ok st') ->
  (in_txn (conn s) = false -> snapshot (conn s) = durable (conn s)) ->
  in_txn (conn s') = false -> snapshot (conn s') = durable (conn s').
Proof.
  revert st s. induction rows as [|row rows IH]; intros st s; simpl; run.
  - by intros [= <- _].
  - unfold loop_body. run.
    destruct (select_row row st) as [st1|e]; simpl; [| done].
    unfold flush_if_full. destruct (bs <=? _)%Z; run; [| apply IH].
    destruct (executemany (batch st1) (conn s)) as [c1 [[]|e]] eqn:X; simpl; [| done].
    intros H Hq. apply (IH _ _ H). simpl. by apply (executemany_quiet _ _ _ _ X).
Qed.

Lemma load_quiet fs name bs s s' v :
  process_and_insert_csv fs name bs s = (s', Ok v) ->
  (in_txn (conn s) = false -> snapshot (conn s) = durable (conn s)) ->
  in_txn (conn s') = false -> snapshot (conn s') = durable (conn s').
Proof.
  unfold process_and_insert_csv, open_rows.
  destruct (fs name) as [| |records]; run; [by intros [= <- _] | done |].
  destruct (for_rows bs _ _ _) as [s1 [st|e]] eqn:Loop; simpl;
    [| pose proof (for_rows_raise _ _ _ _ _ _ Loop); by destruct e].
  pose proof (for_rows_quiet _ _ _ _ _ _ Loop) as Hq1. simpl in Hq1.
  unfold flush_rest, report_totals. destruct (batch st) as [|t ts]; run.
  - intros [= <- _]. simpl. auto.
  - destruct (executemany (t :: ts) (conn s1)) as [c2 [[]|e]] eqn:X; simpl;
      [| pose proof (executemany_raise _ _ _ _ X); by destruct e].
    intros [= <- _] Hq. simpl. apply (executemany_quiet _ _ _ _ X). auto.
Qed.

(** The table a load that returns leaves in the session, from the tuples of
    the source of the main block. *)
Lemma load_source_table fs bs s s' v rows :
  process_and_insert_csv fs CSV_FILE_TO_PROCESS bs s = (s', Ok v) ->
  snapshot (conn s) = Some rows ->
  exists es,
    coerced (source_tuples fs) es
    /\ snapshot (conn s') = Some (upsert_all (serial (conn s)) es rows).
Proof.
  intros H Hs. unfold source_tuples.
  change "customers.csv" with CSV_FILE_TO_PROCESS.
  destruct (fs CSV_FILE_TO_PROCESS) as [| |records] eqn:Hfs.
  - rewrite (missing_source_is_skipped _ _ _ _ Hfs) in H. injection H as <- _.
    exists []. split; [constructor | done].
  - revert H. unfold process_and_insert_csv, open_rows. rewrite Hfs. by run.
  - by apply (load_table _ _ _ _ _ _ _ _ Hfs H).
Qed.

(** The committed table at the end of the [try] body of the main block. *)
Lemma steps_durable fs c s r :
  fresh c ->
  steps fs (mkEnv [] c) = (s, r) ->
  (r = Ok tt ->
   exists n es, coerced (source_tuples fs) es
     /\ durable (conn s) = Some (upsert_all n es (default [] (durable c))))
  /\ (r <> Ok tt ->
      durable (conn s) = durable c
      \/ durable (conn s) = Some (default [] (durable c))).
Proof.
  intros Hc. unfold steps, load_and_commit. run.
  destruct (setup_database _) as [sa [va|e]] eqn:Setup; simpl.
  2:{ apply setup_raise_durable in Setup. simpl in Setup.
      intros [= <- <-]. split; [done |]. auto. }
  apply setup_ok_fresh in Setup as ((Hca & Hta & Hsa) & Hda); [| done].
  simpl in Hda.
  destruct (load_any fs CSV_FILE_TO_PROCESS 1000 sa) as (Hdb & _).
  destruct (process_and_insert_csv fs CSV_FILE_TO_PROCESS 1000 sa)
    as [sb [vb|e]] eqn:Load; simpl in *.
  2:{ intros [= <- <-]. split; [done |]. intros _. right. congruence. }
  pose proof (load_quiet _ _ _ _ _ _ Load (fun _ => Hsa)) as Hqb.
  destruct (load_source_table fs 1000 sa sb vb _ Load
              ltac:(by rewrite Hsa, Hda)) as (es & Hco & Hsb).
  destruct (commit (conn sb)) as [cc [[]|e]] eqn:Commit; simpl.
  2:{ apply commit_raise_durable in Commit.
      intros [= <- <-]. split; [done |]. intros _. right. simpl. congruence. }
  apply commit_ok_fresh in Commit as [_ Hdc]; [| done].
  set (sc := mkEnv _ cc).
  pose proof (report_durable sc) as Hdq. pose proof (report_returns sc) as Hrq.
  destruct (get_filtered_customers sc) as [sq rq]. simpl in *. subst rq.
  intros [= <- <-]. split; [| done]. intros _.
  exists (serial (conn sa)), es. split; [done |]. by rewrite Hdq, Hdc.
Qed.

(** The main block around its [try] statement: whatever the statement left,
    the [finally] clause closes the connection. *)
Lemma main_finally fs c s1 r1 :
  try_except (steps fs) handlers (mkEnv [] c) = (s1, r1) ->
  exists c',
    main fs (Some c)
    = (out s1 ++ [Text (nl +:+ "Database connection closed.")], Some c', r1)
    /\ closed c' = true /\ durable c' = durable (conn s1)
    /\ in_txn c' = false
    /\ history c' = history (conn s1) ++ [EvClose].
Proof.
  intros H. unfold main, try_finally. rewrite H.
  destruct (shutdown_closes s1) as (c' & -> & Hc & Hd & _ & Ht & Hh).
  exists c'. by destruct r1.
Qed.

(** X11.  A run is all or nothing.  On a fresh connection, what the server
    holds committed when the main block ends is one of three tables: the
    one it held before the run, that table created empty if it did not
    exist, or that table with every row of the source that passes the
    filter upserted.  It is the last whenever the [try] body succeeded, and
    one of the first two whenever the [try] body failed: a load that fails
    part way leaves none of its rows committed. *)
Theorem run_is_all_or_nothing (fs : string -> file) (c : connection) :
  fresh c ->
  exists o c' r,
    main fs (Some c) = (o, Some c', r)
    /\ (durable c' = durable c
        \/ durable c' = Some (default [] (durable c))
        \/ exists n es, coerced (source_tuples fs) es
             /\ durable c' = Some (upsert_all n es (default [] (durable c))))
    /\ ((steps fs (mkEnv [] c)).2 = Ok tt ->
        exists n es, coerced (source_tuples fs) es
          /\ durable c' = Some (upsert_all n es (default [] (durable c))))
    /\ ((steps fs (mkEnv [] c)).2 <> Ok tt ->
        durable c' = durable c
        \/ durable c' = Some (default [] (durable c))).
Proof.
  intros Hc.
  destruct (try_except (steps fs) handlers (mkEnv [] c)) as [s1 r1] eqn:Try.
  destruct (main_finally _ _ _ _ Try) as (c' & -> & _ & Hd & _).
  exists (out s1 ++ [Text (nl +:+ "Database connection closed.")]), c', r1.
  split; [done |]. rewrite Hd. revert Try. unfold try_except.
  destruct (steps fs (mkEnv [] c)) as [s r] eqn:Steps.
  destruct (steps_durable _ _ _ _ Hc Steps) as [Hok Hfail].
  destruct r as [[]|e]; simpl.
  - intros [= <- <-]. split; [| done]. right. right. by apply Hok.
  - pose proof (handlers_durable e s) as Hh. intros Try. rewrite Try in Hh.
    simpl in Hh. rewrite Hh.
    destruct Hfail as [Hf | Hf]; [done | |]; (split; [auto |]); (split; [done |]);
      auto.
Qed.

(** X12.  Whatever happens in a run that got a connection, the main block
    closes it: the connection ends closed, [close] is the last call made on
    it, no transaction is left open, and the closing line is the last line
    printed. *)
Theorem connection_always_closed (fs : string -> file) (c : connection) :
  exists o c' r,
    main fs (Some c) = (o ++ [Text (nl +:+ "Database connection closed.")], Some c', r)
    /\ closed c' = true
    /\ in_txn c' = false
    /\ last (history c') = Some EvClose.
Proof.
  destruct (try_except (steps fs) handlers (mkEnv [] c)) as [s1 r1] eqn:Try.
  destruct (main_finally _ _ _ _ Try) as (c' & -> & Hc & _ & Ht & Hh).
  exists (out s1), c', r1. split; [done |]. split; [done |]. split; [done |].
  by rewrite Hh, last_snoc.
Qed.

(** X13.  An exception that leaves the [try] body of the main block is
    handled by class: for [OperationalError] the connection is closed
    without a call of [rollback]; for every other exception [rollback] is
    called and then [close].  In both cases what the server holds committed
    is what it held when the exception was raised. *)
Theorem handler_rolls_back_unless_operational (fs : string -> file)
    (c : connection) (s : env) (e : exn) :
  steps fs (mkEnv [] c) = (s, Raise e) ->
  exists o c' r,
    main fs (Some c) = (o, Some c', r)
    /\ history c'
       = history (conn s)
         ++ (if decide (e = OperationalError) then [EvClose]
             else [EvRollback; EvClose])
    /\ durable c' = durable (conn s).
Proof.
  intros H.
  destruct (failure_handling _ _ _ _ H) as (o & c' & r & Hm & _ & Hh).
  exists o, c', r. split; [done |]. split; [done |].
  destruct (try_except (steps fs) handlers (mkEnv [] c)) as [s1 r1] eqn:Try.
  destruct (main_finally _ _ _ _ Try) as (c1 & Hm1 & _ & Hd1 & _).
  rewrite Hm in Hm1. injection Hm1 as _ <- _. rewrite Hd1.
  revert Try. unfold try_except. rewrite H.
  pose proof (handlers_durable e s) as Hd. intros Try. by rewrite Try in Hd.
Qed.

(** ** Runs that succeed *)

(** ** Loads that succeed *)

Lemma varchar_in_nul n v x : varchar_in n v = Some x -> nul_free v.
Proof. destruct v as [|s]; simpl; [done |]. by destruct (has_nul s). Qed.

Lemma date_col_nul v x : date_col v = Some x -> nul_free v.
Proof. destruct v as [|s]; simpl; [done |]. by destruct (has_nul s). Qed.

Lemma coerce_nul_free t x : coerce t = Some x -> Forall nul_free t.
Proof.
  destruct t as [|a [|b [|c [|d [|e [|f [|g [|h [|i [|j [|k [|l t]]]]]]]]]]]];
    simpl; intros H; try discriminate H.
  destruct (varchar_in 100 a) eqn:Ha; [| done].
  destruct (varchar_in 255 b) eqn:Hb; [| done].
  destruct (varchar_in 255 c) eqn:Hc; [| done].
  destruct (varchar_in 255 d) eqn:Hd; [| done].
  destruct (varchar_in 255 e) eqn:He; [| done].
  destruct (varchar_in 255 f) eqn:Hf; [| done].
  destruct (varchar_in 100 g) eqn:Hg; [| done].
  destruct (varchar_in 100 h) eqn:Hh; [| done].
  destruct (varchar_in 255 i) eqn:Hi; [| done].
  destruct (date_col j) eqn:Hj; [| done].
  destruct (varchar_in 255 k) eqn:Hk; [| done].
  repeat (apply Forall_cons; split;
          [first [by eapply varchar_in_nul | by eapply date_col_nul] |]).
  apply Forall_nil_2.
Qed.

Lemma mogrify_ok n t : length t = n -> Forall nul_free t -> mogrify n t = Ok tt.
Proof.
  intros <- H. induction H as [|v t Hv _ IH]; simpl; [done |].
  destruct v as [|s]; [done |]. simpl in Hv. by rewrite Hv.
Qed.

Lemma coerce_mogrify t x : coerce t = Some x -> mogrify 11 t = Ok tt.
Proof.
  intros H. apply mogrify_ok; [by apply coerce_length in H |].
  by apply coerce_nul_free in H.
Qed.

Lemma ids_below_free n e rows :
  Forall (fun r => id r <= n) rows -> pkey_violation (S n) e rows = false.
Proof.
  intros H. unfold pkey_violation.
  assert (existsb (fun r => Nat.eqb (id r) (S n)) rows = false) as ->;
    [| by rewrite andb_false_r].
  induction H as [|r rows Hr _ IH]; simpl; [done |].
  rewrite IH, orb_false_r. apply Nat.eqb_neq. lia.
Qed.

Lemma upsert_ids_below n e rows :
  Forall (fun r => id r <= n) rows ->
  Forall (fun r => id r <= S n) (upsert (S n) e rows).
Proof.
  intros H. unfold upsert. destruct (existsb _ rows).
  - apply Forall_map. eapply Forall_impl; [done |]. simpl.
    intros r Hr. destruct (conflicts _ r); simpl; lia.
  - apply Forall_app. split; [| repeat constructor].
    eapply Forall_impl; [done |]. simpl. lia.
Qed.

Lemma insert_one_succeeds t c :
  serving c -> sequence_ahead c -> room 1 c -> coercible t ->
  exists c', insert_one t c = (c', Ok tt)
             /\ serving c' /\ sequence_ahead c' /\ serial c' = S (serial c).
Proof.
  intros (Hc & Hl & rows & Hs) Ha Hr [e He].
  unfold insert_one. rewrite (coerce_mogrify _ _ He).
  run. unfold round_trip. rewrite Hc, Hl. simpl. rewrite Hs, He.
  destruct (Z.leb_spec serial_max (Z.of_nat (serial c))) as [Hmax | _];
    [unfold room in Hr; lia |].
  rewrite (ids_below_free _ _ _ (Ha _ Hs)).
  eexists. split; [done |]. unfold serving, sequence_ahead. simpl.
  split; [eauto |]. split; [| done].
  intros rows' [= <-]. apply upsert_ids_below. by apply Ha.
Qed.

Lemma each_insert_succeeds ts c :
  serving c -> sequence_ahead c -> room (length ts) c -> Forall coercible ts ->
  exists c', each insert_one ts c = (c', Ok tt)
             /\ serving c' /\ sequence_ahead c'
             /\ serial c' = serial c + length ts.
Proof.
  intros Hc Ha Hr Hts. revert c Hc Ha Hr.
  induction Hts as [|t ts Ht _ IH]; intros c Hc Ha Hr; simpl; run.
  - eexists. split; [done |]. split; [done |]. split; [done | lia].
  - destruct (insert_one_succeeds t c Hc Ha) as (c1 & -> & Hc1 & Ha1 & Hn1);
      [unfold room in *; lia | done |].
    simpl. destruct (IH c1 Hc1 Ha1) as (c' & -> & Hc' & Ha' & Hn');
      [unfold room in *; lia |].
    eexists. split; [done |]. split; [done |]. split; [done | lia].
Qed.

Lemma executemany_succeeds ts c :
  serving c -> sequence_ahead c -> room (length ts) c -> Forall coercible ts ->
  exists c', executemany ts c = (c', Ok tt)
             /\ serving c' /\ sequence_ahead c'
             /\ serial c' = serial c + length ts.
Proof.
  intros Hc Ha Hr Hts. unfold executemany. run. unfold cursor.
  destruct Hc as (Hc & Hl & Hs). rewrite Hc.
  apply (each_insert_succeeds ts (record_event (EvExecutemany sql_insert ts) c));
    [by unfold serving | done | done | done].
Qed.

Lemma for_rows_succeeds bs rows st s :
  Forall accepted rows -> Forall coercible (batch st) ->
  serving (conn s) -> sequence_ahead (conn s) ->
  room (length (batch st) + length (kept rows)) (conn s) ->
  exists s' st',
    for_rows bs rows st s = (s', Ok st')
    /\ serving (conn s') /\ sequence_ahead (conn s')
    /\ Forall coercible (batch st') /\ room (length (batch st')) (conn s').
Proof.
  intros Hrows. revert st s.
  induction Hrows as [|row rows (b & Hb & Hco) _ IH]; intros st s Hst Hc Ha Hr;
    simpl; run.
  { exists s, st. unfold kept in Hr. simpl in Hr. rewrite Nat.add_0_r in Hr. auto. }
  unfold loop_body, select_row. run. rewrite Hb.
  pose proof (passes_name_filter _ _ Hb) as Hnf.
  rewrite kept_cons, <- Hnf, length_app in Hr.
  set (st1 := if b then _ else _).
  assert (exists st1', st1 = Ok st1' /\ Forall coercible (batch st1')
                       /\ room (length (batch st1') + length (kept rows)) (conn s))
    as (st1' & -> & Hst1 & Hr1).
  { subst st1. destruct b; eexists; (split; [done |]); simpl.
    - split; [| rewrite length_app; simpl in *; unfold room in *; lia].
      apply Forall_app. split; [done |]. repeat constructor. by apply Hco.
    - split; [done |]. simpl in *. unfold room in *. lia. }
  simpl. unfold flush_if_full.
  destruct (bs <=? Z.of_nat (length (batch st1')))%Z; run; [| by apply IH].
  destruct (executemany_succeeds (batch st1') (conn s) Hc Ha) as (c1 & -> & Hc1 & Ha1 & Hn1);
    [unfold room in *; lia | done |].
  simpl. apply IH; simpl; [done | done | done |]. unfold room in *. lia.
Qed.

(** On a connection that serves, whose sequence is ahead of the stored ids
    and has room for the rows that pass the filter, a readable source whose
    rows are accepted is loaded without an exception, whatever the batch
    size. *)
Lemma load_succeeds_serving fs name bs records s :
  fs name = Csv records ->
  Forall accepted (DictReader records) ->
  serving (conn s) -> sequence_ahead (conn s) ->
  room (length (kept (DictReader records))) (conn s) ->
  exists s', process_and_insert_csv fs name bs s = (s', Ok PNone)
             /\ serving (conn s').
Proof.
  intros Hfs Hrows Hc Ha Hr. unfold process_and_insert_csv, open_rows.
  rewrite Hfs. run.
  set (s0 := mkEnv _ _).
  destruct (for_rows_succeeds bs _ (mkLoop [] 0 0) s0 Hrows)
    as (s1 & st & -> & Hc1 & Ha1 & Hst & Hr1); [constructor | done | done | done |].
  simpl. unfold flush_rest, report_totals.
  destruct (batch st) as [|t ts] eqn:B; run; [eauto |].
  destruct (executemany_succeeds (t :: ts) (conn s1) Hc1 Ha1 Hr1 Hst)
    as (c2 & -> & Hc2 & _).
  simpl. eauto.
Qed.

Lemma load_succeeds fs name bs records s :
  fs name = Csv records ->
  Forall accepted (DictReader records) ->
  serving (conn s) -> sequence_ahead (conn s) ->
  room (length (kept (DictReader records))) (conn s) ->
  exists s', process_and_insert_csv fs name bs s = (s', Ok PNone).
Proof.
  intros Hfs Hrows Hc Ha Hr.
  destruct (load_succeeds_serving fs name bs records s Hfs Hrows Hc Ha Hr)
    as (s' & H & _).
  eauto.
Qed.


Lemma commit_serving c :
  serving c -> exists c', commit c = (c', Ok tt).
Proof.
  destruct c as [d sn se it l cl h]. unfold serving. simpl.
  intros (-> & -> & _). unfold commit, end_txn. run. unfold round_trip. simpl.
  destruct it; eauto.
Qed.

Lemma setup_keeps_sequence s k :
  closed (conn s) = false -> link (conn s) = None ->
  sequence_ahead (conn s) -> room k (conn s) ->
  exists s', setup_database s = (s', Ok PNone)
             /\ serving (conn s') /\ sequence_ahead (conn s') /\ room k (conn s').
Proof.
  destruct s as [o [d sn se it l cl h]]. simpl. intros -> -> Ha Hr.
  unfold setup_database, execute_create, commit, end_txn, serving. run.
  unfold cursor, round_trip. simpl.
  destruct sn as [rows|]; simpl; eexists; (split; [reflexivity |]); simpl;
    (split; [eauto |]).
  - split; [| done]. intros rows' [= <-]. by apply Ha.
  - split; [by intros rows' [= <-] |]. unfold room in *. simpl in *. lia.
Qed.

(** X14.  On a fresh connection whose link holds, with a readable source
    whose rows the loop gets through and the store accepts, on a table
    whose [id]s the sequence has all given out and whose sequence can give
    out one value for each row that passes the filter, the run succeeds:
    the main block ends without an exception and the server holds committed
    the table it held before, created if it did not exist, with every row
    that passes the filter upserted in source order. *)
Theorem run_succeeds (fs : string -> file) (c : connection)
    (records : list (list string)) :
  fresh c ->
  link c = None ->
  fs "customers.csv" = Csv records ->
  Forall accepted (DictReader records) ->
  sequence_ahead c ->
  room (length (kept (DictReader records))) c ->
  exists o c' n es,
    main fs (Some c) = (o, Some c', Ok tt)
    /\ coerced (map row_tuple (kept (DictReader records))) es
    /\ durable c' = Some (upsert_all n es (default [] (durable c))).
Proof.
  intros Hc Hl Hfs Hrows Hahead Hroom.
  assert (exists s, steps fs (mkEnv [] c) = (s, Ok tt)) as [s Steps].
  { unfold steps, load_and_commit. run.
    destruct (setup_keeps_sequence
                (mkEnv [Text "Database connection established."] c)
                (length (kept (DictReader records))))
      as (sa & -> & Hsa & Haa & Hra); [apply Hc | done | done | done |]. simpl.
    destruct (load_succeeds_serving fs CSV_FILE_TO_PROCESS 1000 records sa Hfs
                Hrows Hsa Haa Hra)
      as (sb & -> & Hsb). simpl.
    destruct (commit_serving _ Hsb) as [cc ->]. simpl.
    set (sc := mkEnv _ cc). pose proof (report_returns sc) as Hr.
    destruct (get_filtered_customers sc) as [sq rq]. simpl in *. subst rq. eauto. }
  destruct (steps_durable _ _ _ _ Hc Steps) as [Hok _].
  destruct (Hok eq_refl) as (n & es & Hco & Hd).
  unfold source_tuples in Hco. rewrite Hfs in Hco.
  destruct (main_finally fs c s (Ok tt)) as (c' & Hm & _ & Hd' & _).
  { unfold try_except. by rewrite Steps. }
  exists (out s ++ [Text (nl +:+ "Database connection closed.")]), c', n, es.
  split; [done |]. split; [done |]. by rewrite Hd'.
Qed.

(** X15.  Running the script again over the same source changes nothing:
    when a run has succeeded and a second run, on a fresh connection to the
    server as the first left it, succeeds too, the server holds committed
    after the second what it held after the first. *)
Theorem rerun_changes_nothing (fs : string -> file) (c1 c2 : connection)
    (s1 s2 : env) :
  fresh c1 ->
  steps fs (mkEnv [] c1) = (s1, Ok tt) ->
  fresh c2 ->
  durable c2 = durable (conn s1) ->
  steps fs (mkEnv [] c2) = (s2, Ok tt) ->
  durable (conn s2) = durable (conn s1)
  /\ exists o1 o2 c1' c2',
       main fs (Some c1) = (o1, Some c1', Ok tt)
       /\ main fs (Some c2) = (o2, Some c2', Ok tt)
       /\ durable c2' = durable c1'.
Proof.
  intros Hc1 Steps1 Hc2 Heq Steps2.
  destruct (steps_durable _ _ _ _ Hc1 Steps1) as [Hok1 _].
  destruct (steps_durable _ _ _ _ Hc2 Steps2) as [Hok2 _].
  destruct (Hok1 eq_refl) as (n1 & es1 & Hco1 & Hd1).
  destruct (Hok2 eq_refl) as (n2 & es2 & Hco2 & Hd2).
  rewrite (coerced_functional _ _ _ Hco2 Hco1) in Hd2.
  assert (Hsame : durable (conn s2) = durable (conn s1)).
  { rewrite Hd2, Heq, Hd1. simpl. by rewrite upsert_all_idempotent. }
  split; [done |].
  destruct (main_finally fs c1 s1 (Ok tt)) as (c1' & Hm1 & _ & Hd1' & _).
  { unfold try_except. by rewrite Steps1. }
  destruct (main_finally fs c2 s2 (Ok tt)) as (c2' & Hm2 & _ & Hd2' & _).
  { unfold try_except. by rewrite Steps2. }
  do 4 eexists. split; [done |]. split; [done |]. congruence.
Qed.

(** ** Cells by label *)

Lemma restval_fill_present d labels key :
  key ∈ labels -> restval_fill d labels !! key = Some PNone.
Proof.
  unfold restval_fill. revert d.
  induction labels as [|k labels IH]; intros d Hk; simpl.
  - by apply elem_of_nil in Hk.
  - destruct (decide (key ∈ labels)) as [Hin | Hout]; [by apply IH |].
    apply elem_of_cons in Hk as [-> | Hk]; [| done].
    fold (restval_fill (<[k:=PNone]> d) labels).
    rewrite restval_fill_absent by done. apply lookup_insert_eq.
Qed.

Lemma zip_fold_lookup (d : gmap string pyval) fieldnames record i key :
  NoDup fieldnames -> fieldnames !! i = Some key ->
  foldl (fun d kv => <[kv.1 := PStr kv.2]> d) d (zip fieldnames record) !! key
  = match record !! i with Some v => Some (PStr v) | None => d !! key end.
Proof.
  intros Hnd. revert d record i.
  induction Hnd as [|k ks Hfresh _ IH]; intros d record i Hi; [done |].
  destruct record as [|v vs]; simpl; [done |].
  destruct i as [|i]; simpl in *.
  - injection Hi as ->. rewrite zip_fold_absent by done. apply lookup_insert_eq.
  - rewrite (IH _ _ _ Hi). destruct (vs !! i); [done |].
    apply lookup_insert_ne. intros ->. apply Hfresh.
    by apply list_elem_of_lookup_2 in Hi.
Qed.

Lemma DictReader_row_lookup fieldnames record i key :
  NoDup fieldnames -> fieldnames !! i = Some key ->
  DictReader_row fieldnames record !! key = Some (cell record i).
Proof.
  intros Hnd Hi. unfold DictReader_row, dict_zip, cell.
  destruct (record !! i) as [v|] eqn:Hr.
  - rewrite restval_fill_absent.
    + by rewrite (zip_fold_lookup _ _ _ _ _ Hnd Hi), Hr.
    + intros Hin. apply list_elem_of_lookup in Hin as [j Hj].
      rewrite lookup_drop in Hj.
      apply lookup_lt_Some in Hr.
      assert (length record + j = i); [| lia].
      by eapply NoDup_lookup.
  - apply restval_fill_present. apply lookup_ge_None in Hr.
    apply list_elem_of_lookup. exists (i - length record).
    rewrite lookup_drop. by replace (length record + (i - length record)) with i by lia.
Qed.

(** X16.  The tuple is filled by label, in the order of [DB_COLUMNS],
    wherever the columns stand in the file: for a header without a repeated
    label, the position of [customer_id], [company], [city], [country],
    [phone_1], [phone_2], [email] and [website] holds the cell the record
    has at the position of the matching label in the header, [None] when
    the record is too short to have it, and [None] also when the header
    lacks the label. *)
Theorem tuple_follows_labels (header record : list string) (label : string)
    (pos : nat) :
  NoDup header ->
  (label, pos) ∈ passed_on ->
  (forall i, header !! i = Some label ->
     row_tuple (DictReader_row header record) !! pos = Some (cell record i))
  /\ (label ∉ header ->
      row_tuple (DictReader_row header record) !! pos = Some PNone).
Proof.
  intros Hnd Hin.
  assert (Hget : row_tuple (DictReader_row header record) !! pos
                 = Some (dict_get (DictReader_row header record) label)).
  { unfold passed_on in Hin.
    repeat (apply elem_of_cons in Hin as [[= -> ->] | Hin]; [done |]).
    by apply elem_of_nil in Hin. }
  rewrite Hget. unfold dict_get. split.
  - intros i Hi. by rewrite (DictReader_row_lookup _ _ _ _ Hnd Hi).
  - intros Hout. by rewrite DictReader_row_absent.
Qed.

(** ** A batch size that is not positive *)

Lemma for_rows_nonpositive bs rows st s s' st' :
  (bs <= 0)%Z ->
  batch st = [] ->
  for_rows bs rows st s = (s', Ok st') ->
  batch st' = []
  /\ history (conn s')
     = history (conn s) ++ map (EvExecutemany sql_insert) (map row_batch rows).
Proof.
  intros Hbs. revert st s. induction rows as [|row rows IH]; intros st s Hb; simpl; run.
  - intros [= <- <-]. by rewrite app_nil_r.
  - unfold loop_body. run.
    destruct (select_row row st) as [st1|e] eqn:Sel; simpl; [| done].
    apply select_row_ok in Sel. rewrite Hb in Sel. simpl in Sel.
    unfold flush_if_full.
    destruct (Z.leb_spec bs (Z.of_nat (length (batch st1)))) as [_ | Hgt]; [| lia].
    run.
    destruct (executemany (batch st1) (conn s)) as [c1 [[]|e]] eqn:X; simpl; [| done].
    apply executemany_ok in X as (_ & Hh & _).
    intros Hrun. apply IH in Hrun as [Hb' Hh']; [| done]. split; [done |].
    rewrite Hh'. simpl. rewrite Hh, <- app_assoc. simpl.
    do 3 f_equal. subst st1. unfold row_batch. by destruct (name_filter row).
Qed.

(** X17.  A batch size of zero or less is not refused: a load that returns
    has then called [executemany] once for every data row, with the row's
    tuple when the row passes the filter and with no tuple at all when it
    does not, and nothing is left for a final flush. *)
Theorem nonpositive_batch_size_writes_every_row (fs : string -> file)
    (name : string) (bs : Z) (records : list (list string)) (s s' : env)
    (v : pyval) :
  (bs <= 0)%Z ->
  fs name = Csv records ->
  process_and_insert_csv fs name bs s = (s', Ok v) ->
  history (conn s')
  = history (conn s)
    ++ map (EvExecutemany sql_insert) (map row_batch (DictReader records)).
Proof.
  intros Hbs Hfs. unfold process_and_insert_csv, open_rows. rewrite Hfs. run.
  destruct (for_rows bs _ _ _) as [s1 [st|e]] eqn:Loop; simpl;
    [| pose proof (for_rows_raise _ _ _ _ _ _ Loop); by destruct e].
  apply for_rows_nonpositive in Loop as [Hb Hh]; [| done | done].
  unfold flush_rest, report_totals. rewrite Hb. run.
  by intros [= <- _].
Qed.

(** ** A link that holds

    What the calls leave of a connection that is open on a link that does
    not drop: it stays so, whatever the outcome of the call, and the call
    does not raise [OperationalError]. *)









Lemma handlers_raise e s s' e' :
  handlers e s = (s', Raise e') ->
  e <> OperationalError
  /\ (e' = InterfaceError \/ e' = OperationalError)
  /\ history (conn s') = history (conn s) ++ [EvRollback].
Proof.
  destruct s as [o [d sn se it l cl h]]. intros H.
  destruct e; conn_cases; try discriminate; auto.
Qed.


(** X19.  The only exception that can leave the script is one raised by
    [conn.rollback()] in the generic handler of the main block: the [try]
    body has then failed with an exception other than [OperationalError],
    [rollback] has been called on a connection that is closed or whose link
    is lost, and the connection is closed all the same. *)
Theorem only_rollback_can_fail (fs : string -> file) (c c' : connection)
    (o : list message) (e : exn) :
  main fs (Some c) = (o, Some c', Raise e) ->
  (e = InterfaceError \/ e = OperationalError)
  /\ closed c' = true
  /\ exists s e0,
       steps fs (mkEnv [] c) = (s, Raise e0)
       /\ e0 <> OperationalError
       /\ history c' = history (conn s) ++ [EvRollback; EvClose].
Proof.
  intros Hm.
  destruct (try_except (steps fs) handlers (mkEnv [] c)) as [s1 r1] eqn:Try.
  destruct (main_finally _ _ _ _ Try) as (c1 & Hm1 & Hc1 & _ & _ & Hh1).
  rewrite Hm in Hm1. injection Hm1 as _ -> <-.
  revert Try. unfold try_except.
  destruct (steps fs (mkEnv [] c)) as [s [[]|e0]]; [done |].
  intros Try. apply handlers_raise in Try as (Hne & He & Hh).
  split; [done |]. split; [done |]. exists s, e0.
  split; [done |]. split; [done |]. by rewrite Hh1, Hh, <- app_assoc.
Qed.

(** X20.  When the connection is closed, or its link is lost on the table
    creation or on its commit, [setup_database] fails and the [rollback] of
    its handler fails in turn, on a connection that is closed by then:
    [InterfaceError] leaves the function in place of the first exception,
    and the line [Error during table setup] is not printed.  [rollback] is
    the last call made, and the server holds committed what it held. *)
Theorem setup_failure_rolls_back (s : env) :
  closed (conn s) = true \/ link (conn s) = Some 0 \/ link (conn s) = Some 1 ->
  exists s',
    setup_database s = (s', Raise InterfaceError)
    /\ out s' = out s
    /\ durable (conn s') = durable (conn s)
    /\ closed (conn s') = true
    /\ history (conn s')
       = history (conn s)
         ++ (if closed (conn s) then []
             else if decide (link (conn s) = Some 0)
                  then [EvExecute create_table_sql]
                  else [EvExecute create_table_sql; EvCommit])
         ++ [EvRollback].
Proof.
  destruct s as [o [d sn se it l cl h]]. simpl.
  intros H. destruct cl.
  - eexists. split; [reflexivity |]. by repeat split.
  - destruct H as [H | [-> | ->]]; [done | |].
    + eexists. split; [reflexivity |]. simpl. by rewrite <- app_assoc.
    + destruct sn; eexists; (split; [reflexivity |]); simpl;
        by rewrite <- !app_assoc.
Qed.

(** X21.  The report only reads: whatever it meets, the server holds
    committed what it held, the sequence of ids is where it was, and the
    one call it makes on an open connection is the query. *)
Theorem report_reads_only (s : env) :
  durable (conn (get_filtered_customers s).1) = durable (conn s)
  /\ serial (conn (get_filtered_customers s).1) = serial (conn s)
  /\ (snapshot (conn (get_filtered_customers s).1) = snapshot (conn s)
      \/ snapshot (conn (get_filtered_customers s).1) = durable (conn s))
  /\ history (conn (get_filtered_customers s).1)
     = history (conn s) ++ (if closed (conn s) then [] else [EvExecute sql_query]).
Proof.
  pose proof each_print as EP.
  assert (Hq : durable (execute_query (conn s)).1 = durable (conn s)
               /\ serial (execute_query (conn s)).1 = serial (conn s)
               /\ (snapshot (execute_query (conn s)).1 = snapshot (conn s)
                   \/ snapshot (execute_query (conn s)).1 = durable (conn s))
               /\ history (execute_query (conn s)).1
                  = history (conn s)
                    ++ (if closed (conn s) then [] else [EvExecute sql_query])).
  { destruct (conn s) as [d sn se it l cl h]. conn_cases; rewrite ?app_nil_r; auto. }
  unfold get_filtered_customers. run.
  destruct (execute_query (conn s)) as [c1 [results|e]]; simpl in *; [| done].
  destruct results as [|r results]; [by run |]. by rewrite EP.
Qed.

(** X22.  A missing file does not stop the run.  On a fresh connection
    whose link holds, the main block ends normally: the table is created if
    it was not there and nothing else is committed, the file is reported as
    not found, and the calls on the connection are the table creation, the
    two commits, the query and [close]. *)
Theorem missing_source_only_creates (fs : string -> file) (c : connection) :
  fresh c ->
  link c = None ->
  fs "customers.csv" = Missing ->
  exists o c',
    main fs (Some c) = (o, Some c', Ok tt)
    /\ durable c' = Some (default [] (durable c))
    /\ history c'
       = history c ++ [ EvExecute create_table_sql; EvCommit; EvCommit;
                        EvExecute sql_query; EvClose ]
    /\ Text "Error: Input file 'customers.csv' not found." ∈ o.
Proof.
  pose proof each_print as EP.
  destruct c as [d sn se it l cl h]. unfold fresh. simpl.
  intros (-> & -> & ->) -> Hfs.
  unfold main, try_finally, try_except, steps, load_and_commit,
    process_and_insert_csv, open_rows, CSV_FILE_TO_PROCESS.
  rewrite Hfs.
  unfold setup_database, get_filtered_customers, execute_create, execute_query,
    commit, end_txn, shutdown, close.
  run. unfold cursor, round_trip. simpl.
  assert (Hin : forall rest : list message,
             Text "Error: Input file 'customers.csv' not found."
             ∈ Text "Database connection established."
               :: Text "Successfully ensured 'customers' table exists."
               :: Text ("Starting to process '" +:+ "customers.csv" +:+ "'...")
               :: Text ("Error: Input file '" +:+ "customers.csv" +:+ "' not found.")
               :: rest).
  { intros rest. do 3 (apply elem_of_cons; right). apply elem_of_cons. by left. }
  destruct d as [rows|]; simpl;
    try destruct (fetchall (run_query rows)) as [[|r results]|e];
    cbv beta iota; rewrite ?EP; simpl; eexists _, _; (split; [reflexivity |]); simpl;
    (split; [done |]); (split; [by rewrite <- !app_assoc | apply Hin]).
Qed.

(** ** Invariants of a load

    What every statement that goes through preserves, and the entry of a
    call in the history does not touch, holds after a load that returns. *)

Section Invariant.

Variable P : connection -> Prop.
Hypothesis P_insert : forall t c c' u, insert_one t c = (c', Ok u) -> P c -> P c'.
Hypothesis P_event : forall ev c, P c -> P (record_event ev c).

Lemma each_insert_inv ts c c' u :
  each insert_one ts c = (c', Ok u) -> P c -> P c'.
Proof.
  revert c. induction ts as [|t ts IH]; intros c; simpl; run.
  - by intros [= <-].
  - destruct (insert_one t c) as [c1 [[]|e]] eqn:I; simpl; [| done].
    intros H Hc. apply (IH _ H). by apply (P_insert _ _ _ _ I).
Qed.

Lemma executemany_inv ts c c' u :
  executemany ts c = (c', Ok u) -> P c -> P c'.
Proof.
  unfold executemany. run. unfold cursor. destruct (closed c); [done |].
  intros H Hc. apply (each_insert_inv _ _ _ _ H). by apply P_event.
Qed.

Lemma for_rows_inv bs rows st s s' st' :
  for_rows bs rows st s = (s', Ok st') -> P (conn s) -> P (conn s').
Proof.
  revert st s. induction rows as [|row rows IH]; intros st s; simpl; run.
  - by intros [= <- _].
  - unfold loop_body. run.
    destruct (select_row row st) as [st1|e]; simpl; [| done].
    unfold flush_if_full. destruct (bs <=? _)%Z; run; [| apply IH].
    destruct (executemany (batch st1) (conn s)) as [c1 [[]|e]] eqn:X; simpl; [| done].
    intros H Hc. apply (IH _ _ H). simpl. by apply (executemany_inv _ _ _ _ X).
Qed.

Lemma load_inv fs name bs s s' v :
  process_and_insert_csv fs name bs s = (s', Ok v) -> P (conn s) -> P (conn s').
Proof.
  unfold process_and_insert_csv, open_rows.
  destruct (fs name) as [| |records]; run; [by intros [= <- _] | done |].
  destruct (for_rows bs _ _ _) as [s1 [st|e]] eqn:Loop; simpl;
    [| pose proof (for_rows_raise _ _ _ _ _ _ Loop); by destruct e].
  pose proof (for_rows_inv _ _ _ _ _ _ Loop) as H1. simpl in H1.
  unfold flush_rest, report_totals. destruct (batch st) as [|t ts]; run.
  - intros [= <- _]. simpl. auto.
  - destruct (executemany (t :: ts) (conn s1)) as [c2 [[]|e]] eqn:X; simpl;
      [| pose proof (executemany_raise _ _ _ _ X); by destruct e].
    intros [= <- _] Hc. simpl. apply (executemany_inv _ _ _ _ X). auto.
Qed.

End Invariant.

Lemma upsert_ids_unique n e rows :
  NoDup (ids rows) -> pkey_violation n e rows = false ->
  NoDup (ids (upsert n e rows)).
Proof.
  unfold upsert, pkey_violation, ids. intros Hnd Hpk.
  destruct (existsb (conflicts (customer_id e)) rows); simpl in Hpk.
  - rewrite map_map.
    rewrite (map_ext _ id); [done |].
    intros r. by destruct (conflicts (customer_id e) r).
  - rewrite map_app. simpl. apply NoDup_app. split; [done |].
    split; [| apply NoDup_singleton].
    intros k Hk ->%list_elem_of_singleton. clear Hnd.
    induction rows as [|r rows IH]; simpl in *; [by apply elem_of_nil in Hk |].
    apply orb_false_elim in Hpk as [Hr Hrows].
    apply elem_of_cons in Hk as [Hk | Hk]; [| by apply IH].
    apply Nat.eqb_neq in Hr. by rewrite Hk in Hr.
Qed.

(** X23.  [PRIMARY KEY (id)] holds after every load that returns: when no
    two stored rows have the same [id], a load that returns has left no two
    rows with the same [id] either.  A row whose [id], drawn from the
    sequence, is taken already makes its statement fail instead. *)
Theorem load_keeps_ids_unique (fs : string -> file) (name : string) (bs : Z)
    (s s' : env) (v : pyval) (rows : list customer) :
  process_and_insert_csv fs name bs s = (s', Ok v) ->
  snapshot (conn s) = Some rows ->
  NoDup (ids rows) ->
  exists rows', snapshot (conn s') = Some rows' /\ NoDup (ids rows').
Proof.
  intros Load Hs Hnd.
  assert (H : exists rows', snapshot (conn s') = Some rows' /\ NoDup (ids rows'));
    [| done].
  apply (load_inv
           (fun c => exists rows', snapshot c = Some rows' /\ NoDup (ids rows'))
           ) with (fs := fs) (name := name) (bs := bs) (s := s) (v := v);
    [| | done | eauto].
  - intros t c c' u I (rows0 & Hs0 & Hnd0).
    destruct (insert_one_checked _ _ _ _ I) as (_ & _ & e & rows1 & Hco & Hs1 & Hpk).
    apply insert_one_ok in I as (e' & rows2 & Hco' & Hs2 & Hs' & _).
    assert (e' = e) as -> by congruence.
    assert (rows2 = rows0) as -> by congruence.
    assert (rows1 = rows0) as -> by congruence.
    eexists. split; [done |]. by apply upsert_ids_unique.
  - intros ev c (rows0 & Hs0 & Hnd0). by exists rows0.
Qed.

End Store.

(** ** The statements at the sample inputs *)


(** C2: at the row of the specification's example, which passes the filter
    and has [2020-01-01] under [Subscription Date], the tuple sent to the
    store holds [None] in the [subscription_date] position, and the row the
    run commits has a null [subscription_date]. *)
Theorem example_date_is_dropped :
  name_filter (DictReader_row CSV_HEADERS alice) = true
  /\ dict_get (DictReader_row CSV_HEADERS alice) "Subscription Date"
     = PStr "2020-01-01"
  /\ row_tuple (DictReader_row CSV_HEADERS alice) !! 9 = Some PNone
  /\ exists o c,
       main iso_date_in (disk example_source) (Some (new_session None))
       = (o, Some c, Ok tt)
       /\ (map (fun r => (customer_id (cols r), subscription_date (cols r)))
           <$> durable c) = Some [("1", None)].
Proof.
  split; [by vm_compute |]. split; [by vm_compute |]. split; [by vm_compute |].
  eexists _, _. split; by vm_compute.
Qed.

(** C3 fails as stated: a source with two data rows, one of which passes the
    filter, and a source with a header only are both loaded without an
    exception, and the value handed back is [None] for both; the counters
    cannot be read off it. *)
Lemma return_value_carries_no_counters :
  (process_and_insert_csv iso_date_in (disk example_source) "customers.csv" 1000
     (mkEnv [] ready_session)).2 = Ok PNone
  /\ (process_and_insert_csv iso_date_in (disk [CSV_HEADERS]) "customers.csv" 1000
        (mkEnv [] ready_session)).2 = Ok PNone
  /\ (length (DictReader example_source), length (kept (DictReader example_source)))
     = (2, 1)
  /\ (length (DictReader [CSV_HEADERS]), length (kept (DictReader [CSV_HEADERS])))
     = (0, 0)
  /\ ~ exists decode : pyval -> nat * nat,
         forall records v,
           (process_and_insert_csv iso_date_in (disk records) "customers.csv" 1000
              (mkEnv [] ready_session)).2 = Ok v ->
           decode v = (length (DictReader records), length (kept (DictReader records))).
Proof.
  split; [by vm_compute |]. split; [by vm_compute |].
  split; [by vm_compute |]. split; [by vm_compute |].
  intros [decode H].
  pose proof (H example_source PNone ltac:(by vm_compute)) as H1.
  pose proof (H [CSV_HEADERS] PNone ltac:(by vm_compute)) as H2.
  rewrite H1 in H2. vm_compute in H2. discriminate.
Qed.

Lemma counters_are_printed_witness :
  (disk example_source "customers.csv" = Csv example_source
   /\ process_and_insert_csv iso_date_in (disk example_source) "customers.csv" 1000
        (mkEnv [] ready_session)
      = ((process_and_insert_csv iso_date_in (disk example_source) "customers.csv"
            1000 (mkEnv [] ready_session)).1, Ok PNone))
  /\ (PNone = PNone
      /\ exists lines,
           out (process_and_insert_csv iso_date_in (disk example_source)
                  "customers.csv" 1000 (mkEnv [] ready_session)).1
           = [] ++ lines
             ++ [ Text (nl +:+ "--- Processing Complete ---");
                  Text ("Total rows processed from CSV: "
                        +:+ str_int (length (DictReader example_source)));
                  Text ("Total rows inserted/updated in DB: "
                        +:+ str_int (length (kept (DictReader example_source)))) ]).
Proof.
  split; [split; by vm_compute |].
  apply (counters_are_printed iso_date_in (disk example_source) "customers.csv"
           1000 example_source (mkEnv [] ready_session)); by vm_compute.
Defined.

Lemma write_calls_ceil_witness :
  ((0 < 2)%Z
   /\ disk three_kept "customers.csv" = Csv three_kept
   /\ process_and_insert_csv iso_date_in (disk three_kept) "customers.csv" 2
        (mkEnv [] ready_session)
      = ((process_and_insert_csv iso_date_in (disk three_kept) "customers.csv" 2
            (mkEnv [] ready_session)).1, Ok PNone))
  /\ exists calls,
       history (conn (process_and_insert_csv iso_date_in (disk three_kept)
                        "customers.csv" 2 (mkEnv [] ready_session)).1)
       = [] ++ map (EvExecutemany sql_insert) calls
       /\ Z.of_nat (length calls)
          = ((Z.of_nat (length (kept (DictReader three_kept))) + 2 - 1) / 2)%Z
       /\ (forall i b, calls !! i = Some b -> S i < length calls ->
             Z.of_nat (length b) = 2%Z)
       /\ (forall b, last calls = Some b ->
             Z.of_nat (length b)
             = if (Z.of_nat (length (kept (DictReader three_kept))) mod 2 =? 0)%Z
               then 2%Z
               else (Z.of_nat (length (kept (DictReader three_kept))) mod 2)%Z)
       /\ (length (kept (DictReader three_kept)) = 0 -> calls = []).
Proof.
  split; [split; [lia | split; by vm_compute] |].
  apply (write_calls_ceil iso_date_in (disk three_kept) "customers.csv" 2
           three_kept (mkEnv [] ready_session) _ PNone); [lia | by vm_compute ..].
Defined.

Lemma writes_concat_kept_witness :
  ((0 < 2)%Z
   /\ disk three_kept "customers.csv" = Csv three_kept
   /\ process_and_insert_csv iso_date_in (disk three_kept) "customers.csv" 2
        (mkEnv [] ready_session)
      = ((process_and_insert_csv iso_date_in (disk three_kept) "customers.csv" 2
            (mkEnv [] ready_session)).1, Ok PNone))
  /\ exists calls,
       history (conn (process_and_insert_csv iso_date_in (disk three_kept)
                        "customers.csv" 2 (mkEnv [] ready_session)).1)
       = [] ++ map (EvExecutemany sql_insert) calls
       /\ concat calls = map row_tuple (kept (DictReader three_kept)).
Proof.
  split; [split; [lia | split; by vm_compute] |].
  apply (writes_concat_kept iso_date_in (disk three_kept) "customers.csv" 2
           three_kept (mkEnv [] ready_session) _ PNone); [lia | by vm_compute ..].
Defined.

(** C5: re-ingesting a record does not bring the newest source value into
    every column.  The table holds the row of [customer_id] 1 with the
    company [Acme] and the [subscription_date] 2020-01-01; the source holds
    a record of [customer_id] 1 with the company [Initech] and, under
    [Subscription Date], 2021-06-30, which the store accepts as a date.
    The run succeeds and leaves one row under that [customer_id]: its
    company is the newest one, its [subscription_date] is null, which is
    neither the newest source value nor the value stored before. *)
Theorem reingest_loses_the_date :
  name_filter (DictReader_row CSV_HEADERS alice_again) = true
  /\ dict_get (DictReader_row CSV_HEADERS alice_again) "Company" = PStr "Initech"
  /\ dict_get (DictReader_row CSV_HEADERS alice_again) "Subscription Date"
     = PStr "2021-06-30"
  /\ iso_date_in "2021-06-30" = Some (Day 2021 6 30)
  /\ (company (cols stored_alice), subscription_date (cols stored_alice))
     = (Some "Acme", Some (Day 2020 1 1))
  /\ exists o c,
       main iso_date_in (disk [CSV_HEADERS; alice_again])
            (Some (session_on [stored_alice] 1))
       = (o, Some c, Ok tt)
       /\ durable c
          = Some [ mkCustomer 1
                     (mkColumns "1" (Some "Alice") (Some "Fox") (Some "Initech")
                                (Some "Oslo") (Some "Norway") (Some "555-0100")
                                (Some "555-0101") (Some "alice@example.org")
                                None (Some "example.org")) ]
       /\ (map (fun r => subscription_date (cols r)) <$> durable c)
          <> Some [Some (Day 2021 6 30)].
Proof.
  split; [by vm_compute |]. split; [by vm_compute |]. split; [by vm_compute |].
  split; [by vm_compute |]. split; [by vm_compute |].
  eexists _, _. split; [by vm_compute |]. split; [by vm_compute |].
  vm_compute. discriminate.
Qed.

Lemma upsert_replaces_witness :
  (coerce iso_date_in (row_tuple (DictReader_row CSV_HEADERS
                                    [ "9"; "1"; "Alice"; "Fox"; "Initech" ]))
   = Some (Some (mkColumns "1" (Some "Alice") (Some "Fox") (Some "Initech")
                           None None None None None None None))
   /\ (exists rows',
         snapshot (insert_one iso_date_in
                     (row_tuple (DictReader_row CSV_HEADERS
                                   [ "9"; "1"; "Alice"; "Fox"; "Initech" ]))
                     (mkConn None (Some [stored_alice; stored_bob]) 3 false None
                             false [])).1
         = Some rows'
         /\ length rows' = 2
         /\ NoDup (keys rows')
         /\ filter (fun r => customer_id (cols r) = "1") rows'
            = [ mkCustomer 1
                  (mkColumns "1" (Some "Alice") (Some "Fox") (Some "Initech")
                             None None None None None None None) ]
         /\ filter (fun r => customer_id (cols r) <> "1") rows'
            = filter (fun r => customer_id (cols r) <> "1")
                     [stored_alice; stored_bob]))
  /\ snapshot (conn (process_and_insert_csv iso_date_in (disk three_kept)
                       "customers.csv" 1000
                       (process_and_insert_csv iso_date_in (disk three_kept)
                          "customers.csv" 2 (mkEnv [] ready_session)).1).1)
     = snapshot (conn (process_and_insert_csv iso_date_in (disk three_kept)
                         "customers.csv" 2 (mkEnv [] ready_session)).1).
Proof.
  split; [split; [by vm_compute |] |].
  - apply (proj1 (upsert_replaces_and_reload_is_idempotent iso_date_in)
             (row_tuple (DictReader_row CSV_HEADERS
                           [ "9"; "1"; "Alice"; "Fox"; "Initech" ]))
             (mkColumns "1" (Some "Alice") (Some "Fox") (Some "Initech")
                        None None None None None None None)
             (mkConn None (Some [stored_alice; stored_bob]) 3 false None false [])
             _ tt [stored_alice; stored_bob] stored_alice);
      [by vm_compute | by vm_compute | | | by vm_compute | by vm_compute].
    + apply NoDup_cons. split; [| apply NoDup_singleton].
      intros H%list_elem_of_singleton. discriminate.
    + by left.
  - apply (proj2 (upsert_replaces_and_reload_is_idempotent iso_date_in)
             (disk three_kept) "customers.csv" 2%Z 1000%Z three_kept
             (mkEnv [] ready_session)
             (process_and_insert_csv iso_date_in (disk three_kept)
                "customers.csv" 2 (mkEnv [] ready_session)).1
             (process_and_insert_csv iso_date_in (disk three_kept)
                "customers.csv" 2 (mkEnv [] ready_session)).1
             _ PNone PNone);
      by vm_compute.
Defined.

(** C6 fails as stated: the run over the example source, on a server that
    does not have the table yet, succeeds and commits twice; the first
    commit, made by the schema initializer, has made the new table durable
    before the loader starts. *)
Lemma example_run_commits_twice :
  durable (conn (setup_database (mkEnv [] (new_session None))).1) = Some []
  /\ exists o c,
       main iso_date_in (disk example_source) (Some (new_session None))
       = (o, Some c, Ok tt)
       /\ history c
          = [ EvExecute create_table_sql; EvCommit;
              EvExecutemany sql_insert [row_tuple (DictReader_row CSV_HEADERS alice)];
              EvCommit; EvExecute sql_query; EvClose ]
       /\ commits (history c) = 2
       /\ commits (history c) <> 1.
Proof.
  split; [by vm_compute |]. eexists _, _.
  split; [by vm_compute |]. split; [by vm_compute |]. split; by vm_compute.
Qed.

Lemma run_commits_twice_witness :
  steps iso_date_in (disk example_source) (mkEnv [] (new_session None))
  = ((steps iso_date_in (disk example_source) (mkEnv [] (new_session None))).1, Ok tt)
  /\ exists calls c' sa sb va vb,
       main iso_date_in (disk example_source) (Some (new_session None))
       = (out (steps iso_date_in (disk example_source)
                 (mkEnv [] (new_session None))).1
            ++ [Text (nl +:+ "Database connection closed.")], Some c', Ok tt)
       /\ history c'
          = history (new_session None) ++ [EvExecute create_table_sql; EvCommit]
              ++ map (EvExecutemany sql_insert) calls
              ++ [EvCommit; EvExecute sql_query; EvClose]
       /\ commits (history c') = commits (history (new_session None)) + 2
       /\ setup_database (mkEnv [Text "Database connection established."]
                                (new_session None))
          = (sa, Ok va)
       /\ process_and_insert_csv iso_date_in (disk example_source)
            CSV_FILE_TO_PROCESS 1000 sa = (sb, Ok vb)
       /\ durable (conn sb) = durable (conn sa).
Proof.
  split; [by vm_compute |].
  apply (run_commits_twice iso_date_in (disk example_source) (new_session None)).
  by vm_compute.
Defined.

(** C7: when the link to the server is lost during the first bulk write, the
    exception leaves the loader and reaches the main block, where the
    clause for [OperationalError] takes it: the connection-error lines are
    printed, [rollback] is not called, and the connection is closed. *)
Theorem lost_link_is_not_rolled_back :
  exists o c,
    main iso_date_in (disk example_source) (Some (new_session (Some 2)))
    = (o, Some c, Ok tt)
    /\ o = [ Text "Database connection established.";
             Text "Successfully ensured 'customers' table exists.";
             Text "Starting to process 'customers.csv'...";
             TextExn "An error occurred while processing the file: " OperationalError;
             Text "CRITICAL: Connection Error. Check credentials/host/port.";
             TextExn "Details: " OperationalError;
             Text (nl +:+ "Database connection closed.") ]
    /\ history c
       = [ EvExecute create_table_sql; EvCommit;
           EvExecutemany sql_insert [row_tuple (DictReader_row CSV_HEADERS alice)];
           EvClose ]
    /\ EvRollback ∉ history c.
Proof.
  eexists _, _. split; [by vm_compute |]. split; [by vm_compute |].
  split; [by vm_compute |].
  vm_compute. intros H. repeat (apply elem_of_cons in H as [H | H]; [discriminate |]).
  by apply elem_of_nil in H.
Qed.

Lemma report_reader_witness :
  (closed (session_on [stored_bob; stored_alice; stored_anna] 3) = false
   /\ link (session_on [stored_bob; stored_alice; stored_anna] 3) <> Some 0)
  /\ exists sorted,
       sorted ≡ₚ filter (fun r => where_clause r = true)
                        [stored_bob; stored_alice; stored_anna]
       /\ StronglySorted
            (fun r1 r2 => desc (subscription_date (cols r1))
                               (subscription_date (cols r2))) sorted
       /\ ((exists dates,
              Forall2 (fun r d => typecast_date (subscription_date (cols r)) = Ok d)
                      sorted dates)
           \/ Exists (fun r => typecast_date (subscription_date (cols r))
                               = Raise ValueError) sorted)
       /\ (forall dates,
             Forall2 (fun r d => typecast_date (subscription_date (cols r)) = Ok d)
                     sorted dates ->
             out (get_filtered_customers
                    (mkEnv [] (session_on [stored_bob; stored_alice; stored_anna] 3))).1
             = []
               ++ [Text (nl +:+ "--- Querying Database for Inserted Customers (Sorted by Date) ---")]
               ++ match sorted with
                  | [] => [Text "No matching customers found in the database."]
                  | _ :: _ =>
                      zip_with
                        (fun r d =>
                           Text ("Name: " +:+ str_text (first_name (cols r))
                                 +:+ " " +:+ str_text (last_name (cols r))
                                 +:+ ", Company: " +:+ str_text (company (cols r))
                                 +:+ ", Subscribed: " +:+ str_date_opt d))
                        sorted dates
                  end)
       /\ (Exists (fun r => typecast_date (subscription_date (cols r))
                            = Raise ValueError) sorted ->
           out (get_filtered_customers
                  (mkEnv [] (session_on [stored_bob; stored_alice; stored_anna] 3))).1
           = []
             ++ [ Text (nl +:+ "--- Querying Database for Inserted Customers (Sorted by Date) ---");
                  TextExn "An error occurred while querying the database: "
                          ValueError ]).
Proof.
  split; [split; [done | discriminate] |].
  apply (proj1 (proj2 (proj2 (report_reader_spec iso_date_in
           (mkEnv [] (session_on [stored_bob; stored_alice; stored_anna] 3)))))
           [stored_bob; stored_alice; stored_anna]);
    [done | discriminate | done].
Defined.

(** What the report prints: the rows in descending order of date, each date
    in its ISO form; and, when a selected row has a date of the year 10000,
    the failure of [fetchall] in place of every row. *)
Example report_runs :
  out (get_filtered_customers
         (mkEnv [] (session_on [stored_bob; stored_alice; stored_anna] 3))).1
  = [ Text (nl +:+ "--- Querying Database for Inserted Customers (Sorted by Date) ---");
      Text "Name: Anna Frost, Company: Globex, Subscribed: 2021-12-24";
      Text "Name: Alice Fox, Company: Acme, Subscribed: 2020-01-01" ]
  /\ where_clause stored_far = true
  /\ typecast_date (subscription_date (cols stored_far)) = Raise ValueError
  /\ typecast_date (Some PlusInfinity) = Ok (Some (mkDate (Z.to_nat 9999) 12 31))
  /\ get_filtered_customers
       (mkEnv [] (session_on [stored_alice; stored_far; stored_anna] 4))
     = (mkEnv [ Text (nl +:+ "--- Querying Database for Inserted Customers (Sorted by Date) ---");
                TextExn "An error occurred while querying the database: "
                        ValueError ]
              (mkConn (Some [stored_alice; stored_far; stored_anna])
                      (Some [stored_alice; stored_far; stored_anna]) 4 true None
                      false [EvExecute sql_query]),
        Ok PNone).
Proof. repeat split; by vm_compute. Qed.

Lemma subscription_date_witness :
  (disk three_kept "customers.csv" = Csv (CSV_HEADERS :: [alice; bob; anna; adam])
   /\ CSV_HEADERS ≡ₚ CSV_HEADERS)
  /\ (forall record st st',
         select_row (DictReader_row CSV_HEADERS record) st = Ok st' ->
         exists added, batch st' = batch st ++ added /\ Forall dateless added)
  /\ exists evs,
       history (conn (process_and_insert_csv iso_date_in (disk three_kept)
                        "customers.csv" 2 (mkEnv [] ready_session)).1)
       = history (conn (mkEnv [] ready_session)) ++ evs
       /\ Forall writes_dateless evs.
Proof.
  split; [split; [by vm_compute | done] |].
  apply (subscription_date_always_none iso_date_in (disk three_kept)
           "customers.csv" 2 CSV_HEADERS [alice; bob; anna; adam]
           (mkEnv [] ready_session)); [by vm_compute | done].
Defined.

(** A run without the source file: the loader reports the missing file and
    returns, the main block commits, the report finds nothing and the
    connection is closed. *)
Example missing_source_run :
  main iso_date_in empty_disk (Some (new_session None))
  = ([ Text "Database connection established.";
       Text "Successfully ensured 'customers' table exists.";
       Text "Starting to process 'customers.csv'...";
       Text "Error: Input file 'customers.csv' not found.";
       Text (nl +:+ "All database changes have been committed.");
       Text (nl +:+ "--- Querying Database for Inserted Customers (Sorted by Date) ---");
       Text "No matching customers found in the database.";
       Text (nl +:+ "Database connection closed.") ],
     Some (mkConn (Some []) (Some []) 0 false None true
                  [ EvExecute create_table_sql; EvCommit; EvCommit;
                    EvExecute sql_query; EvClose ]),
     Ok tt).
Proof. by vm_compute. Qed.

(** A run in which the store rejects a row: the tuple of a record that is
    cut short after the names has no [customer_id]; the exception reaches
    the generic clause of the main block, which calls [rollback] before the
    connection is closed, and only the table creation stays committed. *)
Example rejected_row_run :
  exists o c,
    main iso_date_in (disk [ ["First Name"; "Last Name"; "Customer Id"];
                             ["Alice"; "Fox"] ])
         (Some (new_session None))
    = (o, Some c, Ok tt)
    /\ history c
       = [ EvExecute create_table_sql; EvCommit;
           EvExecutemany sql_insert
             [ [PNone; PStr "Alice"; PStr "Fox"; PNone; PNone; PNone; PNone;
                PNone; PNone; PNone; PNone] ];
           EvRollback; EvClose ]
    /\ durable c = Some [].
Proof. eexists _, _. split; [by vm_compute |]. split; by vm_compute. Qed.

(** ** Further statements at sample inputs *)

Lemma batches_are_bounded_witness :
  (0 < 2)%Z
  /\ exists calls,
       history (conn (process_and_insert_csv iso_date_in (disk three_kept)
                        "customers.csv" 2 (mkEnv [] ready_session)).1)
       = history (conn (mkEnv [] ready_session))
         ++ map (EvExecutemany sql_insert) calls
       /\ Forall (fun b => 0 < length b /\ (Z.of_nat (length b) <= 2)%Z) calls.
Proof.
  split; [lia |].
  apply (batches_are_bounded iso_date_in (disk three_kept) "customers.csv" 2
           (mkEnv [] ready_session)). lia.
Defined.

(** A load that fails: the link carries one statement, the second bulk
    write is lost. *)
Lemma writes_are_a_prefix_witness :
  disk three_kept "customers.csv" = Csv three_kept
  /\ (process_and_insert_csv iso_date_in (disk three_kept) "customers.csv" 1
        (mkEnv [] (mkConn (Some []) (Some []) 0 false (Some 1) false []))).2
     = Raise OperationalError
  /\ exists calls,
       history (conn (process_and_insert_csv iso_date_in (disk three_kept)
                        "customers.csv" 1
                        (mkEnv [] (mkConn (Some []) (Some []) 0 false (Some 1)
                                          false []))).1)
       = history (conn (mkEnv [] (mkConn (Some []) (Some []) 0 false (Some 1)
                                         false [])))
         ++ map (EvExecutemany sql_insert) calls
       /\ concat calls `prefix_of` map row_tuple (kept (DictReader three_kept)).
Proof.
  split; [by vm_compute |]. split; [by vm_compute |].
  apply (writes_are_a_prefix iso_date_in (disk three_kept) "customers.csv" 1
           three_kept). by vm_compute.
Defined.

Lemma unread_columns_witness :
  process_and_insert_csv iso_date_in (disk example_source) "customers.csv" 1000
    (mkEnv [] ready_session)
  = process_and_insert_csv iso_date_in
      (disk [ CSV_HEADERS;
              [ "77"; "1"; "Alice"; "Fox"; "Acme"; "Oslo"; "Norway"; "555-0100";
                "555-0101"; "alice@example.org"; "1999-12-31"; "example.org" ];
              [ "78"; "2"; "Bob"; "Fox"; "Initech"; "Bergen"; "Norway";
                "555-0102"; "555-0103"; "bob@example.org"; ""; "example.net" ] ])
      "customers.csv" 1000 (mkEnv [] ready_session)
  /\ ("Index" ∉ read_labels) /\ ("Subscription Date" ∉ read_labels).
Proof.
  apply (unread_columns_are_ignored iso_date_in (disk example_source)
           (disk [ CSV_HEADERS;
              [ "77"; "1"; "Alice"; "Fox"; "Acme"; "Oslo"; "Norway"; "555-0100";
                "555-0101"; "alice@example.org"; "1999-12-31"; "example.org" ];
              [ "78"; "2"; "Bob"; "Fox"; "Initech"; "Bergen"; "Norway";
                "555-0102"; "555-0103"; "bob@example.org"; ""; "example.net" ] ])
           "customers.csv" 1000 _ _ (mkEnv [] ready_session) eq_refl eq_refl).
  repeat constructor; intros key Hin; unfold read_labels in Hin;
    repeat (apply elem_of_cons in Hin as [-> | Hin]; [by vm_compute |]);
    by apply elem_of_nil in Hin.
Defined.

Lemma short_record_witness :
  (DictReader [CSV_HEADERS; alice; ["5"; "5"]; anna]
   = [DictReader_row CSV_HEADERS alice]
       ++ DictReader_row CSV_HEADERS ["5"; "5"]
       :: [DictReader_row CSV_HEADERS anna]
   /\ DictReader_row CSV_HEADERS ["5"; "5"] !! "First Name" = Some PNone)
  /\ process_and_insert_csv iso_date_in
       (disk [CSV_HEADERS; alice; ["5"; "5"]; anna]) "customers.csv" 1000
       (mkEnv [] ready_session)
     = (mkEnv ([] ++ [ Text ("Starting to process '" +:+ "customers.csv" +:+ "'...");
                       TextExn "An error occurred while processing the file: "
                               AttributeError ])
              ready_session,
        Raise AttributeError).
Proof.
  split; [split; by vm_compute |].
  apply (short_record_aborts iso_date_in
           (disk [CSV_HEADERS; alice; ["5"; "5"]; anna]) "customers.csv" 1000
           [CSV_HEADERS; alice; ["5"; "5"]; anna]
           [DictReader_row CSV_HEADERS alice] [DictReader_row CSV_HEADERS anna]
           (DictReader_row CSV_HEADERS ["5"; "5"]) (mkEnv [] ready_session));
    [by vm_compute | by vm_compute | by vm_compute | | by vm_compute].
  repeat constructor. exists true. by vm_compute.
Defined.

Lemma setup_creates_witness :
  (closed (new_session None) = false /\ link (new_session None) = None)
  /\ exists s' s'',
       setup_database (mkEnv [] (new_session None)) = (s', Ok PNone)
       /\ durable (conn s') = Some (default [] (snapshot (new_session None)))
       /\ snapshot (conn s') = durable (conn s')
       /\ in_txn (conn s') = false
       /\ out s' = [] ++ [Text "Successfully ensured 'customers' table exists."]
       /\ setup_database s' = (s'', Ok PNone)
       /\ durable (conn s'') = durable (conn s')
       /\ snapshot (conn s'') = snapshot (conn s').
Proof.
  split; [done |].
  by apply (setup_creates_if_absent (mkEnv [] (new_session None))).
Defined.

Lemma load_keeps_stored_rows_witness :
  (process_and_insert_csv iso_date_in (disk three_kept) "customers.csv" 2
     (mkEnv [] (mkConn (Some [stored_bob]) (Some [stored_bob]) 3 false None
                       false []))).2 = Ok PNone
  /\ exists rows' new,
       snapshot (conn (process_and_insert_csv iso_date_in (disk three_kept)
                         "customers.csv" 2
                         (mkEnv [] (mkConn (Some [stored_bob]) (Some [stored_bob])
                                           3 false None false []))).1)
       = Some rows'
       /\ map identity rows' = map identity [stored_bob] ++ new
       /\ Forall (fun p => 3 < p.1) new.
Proof.
  split; [by vm_compute |].
  apply (load_keeps_stored_rows iso_date_in (disk three_kept) "customers.csv" 2
           three_kept
           (mkEnv [] (mkConn (Some [stored_bob]) (Some [stored_bob]) 3 false None
                             false [])) _ PNone [stored_bob]);
    by vm_compute.
Defined.

Lemma load_stores_each_key_once_witness :
  NoDup (keys [stored_alice; stored_bob])
  /\ exists rows' es,
       snapshot (conn (process_and_insert_csv iso_date_in (disk three_kept)
                         "customers.csv" 2
                         (mkEnv [] (mkConn (Some [stored_alice; stored_bob])
                                           (Some [stored_alice; stored_bob])
                                           3 false None false []))).1)
       = Some rows'
       /\ coerced iso_date_in (map row_tuple (kept (DictReader three_kept))) es
       /\ NoDup (keys rows')
       /\ forall key, key ∈ keys rows'
                      <-> key ∈ keys [stored_alice; stored_bob]
                          \/ key ∈ map customer_id es.
Proof.
  assert (Hnd : NoDup (keys [stored_alice; stored_bob])).
  { apply NoDup_cons. split; [| apply NoDup_singleton].
    intros H%list_elem_of_singleton. discriminate. }
  split; [done |].
  apply (load_stores_each_key_once iso_date_in (disk three_kept) "customers.csv" 2
           three_kept
           (mkEnv [] (mkConn (Some [stored_alice; stored_bob])
                             (Some [stored_alice; stored_bob]) 3 false None
                             false [])) _ PNone [stored_alice; stored_bob]);
    [by vm_compute | by vm_compute | by vm_compute | done].
Defined.

Lemma last_row_wins_witness :
  exists rows' es,
    snapshot (conn (process_and_insert_csv iso_date_in
                      (disk [ CSV_HEADERS; alice;
                              ["9"; "1"; "Alice"; "Fox"; "Initech"] ])
                      "customers.csv" 1000
                      (mkEnv [] (mkConn (Some [stored_bob]) (Some [stored_bob])
                                        3 false None false []))).1)
    = Some rows'
    /\ coerced iso_date_in
         (map row_tuple (kept (DictReader [ CSV_HEADERS; alice;
                                            ["9"; "1"; "Alice"; "Fox"; "Initech"] ])))
         es
    /\ (forall r l1 e l2,
          r ∈ rows' -> es = l1 ++ e :: l2 ->
          customer_id e = customer_id (cols r) ->
          Forall (fun e' => customer_id e' <> customer_id e) l2 ->
          cols r = e)
    /\ (forall r, r ∈ rows' -> customer_id (cols r) ∉ map customer_id es ->
          r ∈ [stored_bob]).
Proof.
  apply (last_row_wins iso_date_in
           (disk [ CSV_HEADERS; alice; ["9"; "1"; "Alice"; "Fox"; "Initech"] ])
           "customers.csv" 1000
           [ CSV_HEADERS; alice; ["9"; "1"; "Alice"; "Fox"; "Initech"] ]
           (mkEnv [] (mkConn (Some [stored_bob]) (Some [stored_bob]) 3 false None
                             false [])) _ PNone [stored_bob]);
    by vm_compute.
Defined.

Lemma kept_rows_match_witness :
  (name_filter (DictReader_row CSV_HEADERS alice) = true
   /\ coerce iso_date_in (row_tuple (DictReader_row CSV_HEADERS alice))
      = Some (Some (mkColumns "1" (Some "Alice") (Some "Fox") (Some "Acme")
                              (Some "Oslo") (Some "Norway") (Some "555-0100")
                              (Some "555-0101") (Some "alice@example.org") None
                              (Some "example.org"))))
  /\ where_clause
       (mkCustomer 1 (mkColumns "1" (Some "Alice") (Some "Fox") (Some "Acme")
                                (Some "Oslo") (Some "Norway") (Some "555-0100")
                                (Some "555-0101") (Some "alice@example.org") None
                                (Some "example.org")))
     = true.
Proof.
  split; [split; by vm_compute |].
  apply (kept_rows_match_the_report iso_date_in (DictReader_row CSV_HEADERS alice));
    by vm_compute.
Defined.

(** A run that fails part way: the first row of the bulk write is inserted,
    the second holds NUL and is refused, and nothing of the load is
    committed. *)
Lemma run_is_all_or_nothing_witness :
  (fresh (new_session None)
   /\ (steps iso_date_in (disk [CSV_HEADERS; alice; nul_record])
         (mkEnv [] (new_session None))).2 = Raise ValueError)
  /\ exists o c' r,
       main iso_date_in (disk [CSV_HEADERS; alice; nul_record])
            (Some (new_session None))
       = (o, Some c', r)
       /\ (durable c' = durable (new_session None)
           \/ durable c' = Some (default [] (durable (new_session None)))
           \/ exists n es,
                coerced iso_date_in
                  (source_tuples (disk [CSV_HEADERS; alice; nul_record])) es
                /\ durable c'
                   = Some (upsert_all n es
                             (default [] (durable (new_session None)))))
       /\ ((steps iso_date_in (disk [CSV_HEADERS; alice; nul_record])
              (mkEnv [] (new_session None))).2 = Ok tt ->
           exists n es,
             coerced iso_date_in
               (source_tuples (disk [CSV_HEADERS; alice; nul_record])) es
             /\ durable c'
                = Some (upsert_all n es
                          (default [] (durable (new_session None)))))
       /\ ((steps iso_date_in (disk [CSV_HEADERS; alice; nul_record])
              (mkEnv [] (new_session None))).2 <> Ok tt ->
           durable c' = durable (new_session None)
           \/ durable c' = Some (default [] (durable (new_session None)))).
Proof.
  assert (Hc : fresh (new_session None)) by (split; [| split]; reflexivity).
  split; [split; [exact Hc | by vm_compute] |].
  exact (run_is_all_or_nothing iso_date_in (disk [CSV_HEADERS; alice; nul_record])
           (new_session None) Hc).
Defined.

(** The link is lost after the table has been created and committed. *)
Lemma handler_witness :
  steps iso_date_in (disk example_source) (mkEnv [] (new_session (Some 2)))
  = ((steps iso_date_in (disk example_source)
        (mkEnv [] (new_session (Some 2)))).1, Raise OperationalError)
  /\ exists o c' r,
       main iso_date_in (disk example_source) (Some (new_session (Some 2)))
       = (o, Some c', r)
       /\ history c'
          = history (conn (steps iso_date_in (disk example_source)
                             (mkEnv [] (new_session (Some 2)))).1)
            ++ (if decide (OperationalError = OperationalError) then [EvClose]
                else [EvRollback; EvClose])
       /\ durable c'
          = durable (conn (steps iso_date_in (disk example_source)
                             (mkEnv [] (new_session (Some 2)))).1).
Proof.
  split; [by vm_compute |].
  apply (handler_rolls_back_unless_operational iso_date_in (disk example_source)
           (new_session (Some 2))
           (steps iso_date_in (disk example_source)
              (mkEnv [] (new_session (Some 2)))).1 OperationalError).
  by vm_compute.
Defined.

Lemma run_succeeds_witness :
  (fresh (session_on [stored_bob] 3) /\ link (session_on [stored_bob] 3) = None
   /\ Forall (accepted iso_date_in) (DictReader three_kept)
   /\ sequence_ahead (session_on [stored_bob] 3)
   /\ room (length (kept (DictReader three_kept))) (session_on [stored_bob] 3))
  /\ exists o c' n es,
       main iso_date_in (disk three_kept) (Some (session_on [stored_bob] 3))
       = (o, Some c', Ok tt)
       /\ coerced iso_date_in (map row_tuple (kept (DictReader three_kept))) es
       /\ durable c'
          = Some (upsert_all n es
                    (default [] (durable (session_on [stored_bob] 3)))).
Proof.
  assert (Hc : fresh (session_on [stored_bob] 3)) by (split; [| split]; reflexivity).
  assert (Hrows : Forall (accepted iso_date_in) (DictReader three_kept)).
  { repeat (apply Forall_cons; split;
            [first [ exists true; split;
                       [by vm_compute | intros _; eexists; reflexivity]
                   | exists false; split; [by vm_compute | discriminate] ] |]).
    apply Forall_nil_2. }
  assert (Ha : sequence_ahead (session_on [stored_bob] 3)).
  { intros rows [= <-]. repeat constructor. }
  assert (Hr : room (length (kept (DictReader three_kept)))
                    (session_on [stored_bob] 3)) by (by vm_compute).
  split; [split; [exact Hc | split; [reflexivity | split; [exact Hrows |
          split; [exact Ha | exact Hr]]]] |].
  exact (run_succeeds iso_date_in (disk three_kept) (session_on [stored_bob] 3)
           three_kept Hc eq_refl eq_refl Hrows Ha Hr).
Defined.

(** A second session, opened on the server as the first run left it. *)
Lemma rerun_changes_nothing_witness :
  durable (conn (steps iso_date_in (disk three_kept)
                   (mkEnv [] (mkConn
                      (durable (conn (steps iso_date_in (disk three_kept)
                                        (mkEnv [] (new_session None))).1))
                      (durable (conn (steps iso_date_in (disk three_kept)
                                        (mkEnv [] (new_session None))).1))
                      (serial (conn (steps iso_date_in (disk three_kept)
                                       (mkEnv [] (new_session None))).1))
                      false None false []))).1)
  = durable (conn (steps iso_date_in (disk three_kept)
                     (mkEnv [] (new_session None))).1)
  /\ exists o1 o2 c1' c2',
       main iso_date_in (disk three_kept) (Some (new_session None))
       = (o1, Some c1', Ok tt)
       /\ main iso_date_in (disk three_kept)
            (Some (mkConn
                     (durable (conn (steps iso_date_in (disk three_kept)
                                       (mkEnv [] (new_session None))).1))
                     (durable (conn (steps iso_date_in (disk three_kept)
                                       (mkEnv [] (new_session None))).1))
                     (serial (conn (steps iso_date_in (disk three_kept)
                                      (mkEnv [] (new_session None))).1))
                     false None false []))
          = (o2, Some c2', Ok tt)
       /\ durable c2' = durable c1'.
Proof.
  apply (rerun_changes_nothing iso_date_in (disk three_kept) (new_session None)
           (mkConn
              (durable (conn (steps iso_date_in (disk three_kept)
                                (mkEnv [] (new_session None))).1))
              (durable (conn (steps iso_date_in (disk three_kept)
                                (mkEnv [] (new_session None))).1))
              (serial (conn (steps iso_date_in (disk three_kept)
                               (mkEnv [] (new_session None))).1))
              false None false [])
           (steps iso_date_in (disk three_kept) (mkEnv [] (new_session None))).1
           (steps iso_date_in (disk three_kept)
              (mkEnv [] (mkConn
                 (durable (conn (steps iso_date_in (disk three_kept)
                                   (mkEnv [] (new_session None))).1))
                 (durable (conn (steps iso_date_in (disk three_kept)
                                   (mkEnv [] (new_session None))).1))
                 (serial (conn (steps iso_date_in (disk three_kept)
                                  (mkEnv [] (new_session None))).1))
                 false None false []))).1).
  - split; [| split]; reflexivity.
  - by vm_compute.
  - split; [| split]; reflexivity.
  - reflexivity.
  - by vm_compute.
Defined.

(** A file whose columns stand in another order, and a record that stops
    before the last of them. *)
Lemma tuple_follows_labels_witness :
  (NoDup ["Website"; "Customer Id"; "Company"]
   /\ ("Company", 3) ∈ passed_on)
  /\ (forall i, ["Website"; "Customer Id"; "Company"] !! i = Some "Company" ->
        row_tuple (DictReader_row ["Website"; "Customer Id"; "Company"]
                     ["example.org"; "7"]) !! 3
        = Some (cell ["example.org"; "7"] i))
  /\ ("Company" ∉ ["Website"; "Customer Id"; "Company"] ->
      row_tuple (DictReader_row ["Website"; "Customer Id"; "Company"]
                   ["example.org"; "7"]) !! 3
      = Some PNone).
Proof.
  assert (Hnd : NoDup ["Website"; "Customer Id"; "Company"]).
  { repeat (apply NoDup_cons; split;
            [intros H; repeat (apply elem_of_cons in H as [H | H];
                               [discriminate |]);
             by apply elem_of_nil in H |]).
    apply NoDup_nil_2. }
  assert (Hin : ("Company", 3) ∈ passed_on).
  { unfold passed_on. apply elem_of_cons. right. apply elem_of_cons. by left. }
  split; [split; [exact Hnd | exact Hin] |].
  exact (tuple_follows_labels ["Website"; "Customer Id"; "Company"]
           ["example.org"; "7"] "Company" 3 Hnd Hin).
Defined.

Lemma nonpositive_batch_size_witness :
  (0 <= 0)%Z
  /\ history (conn (process_and_insert_csv iso_date_in (disk three_kept)
                      "customers.csv" 0 (mkEnv [] ready_session)).1)
     = history (conn (mkEnv [] ready_session))
       ++ map (EvExecutemany sql_insert)
              (map row_batch (DictReader three_kept)).
Proof.
  split; [lia |].
  apply (nonpositive_batch_size_writes_every_row iso_date_in (disk three_kept)
           "customers.csv" 0 three_kept (mkEnv [] ready_session) _ PNone);
    [lia | by vm_compute | by vm_compute].
Defined.


(** The link is lost on the first statement: [rollback] fails in
    [setup_database] and again in the main block. *)
Lemma only_rollback_can_fail_witness :
  main iso_date_in (disk example_source) (Some (new_session (Some 0)))
  = ((main iso_date_in (disk example_source) (Some (new_session (Some 0)))).1.1,
     Some (default (new_session None)
             (main iso_date_in (disk example_source)
                (Some (new_session (Some 0)))).1.2),
     Raise InterfaceError)
  /\ (InterfaceError = InterfaceError \/ InterfaceError = OperationalError)
  /\ closed (default (new_session None)
               (main iso_date_in (disk example_source)
                  (Some (new_session (Some 0)))).1.2) = true
  /\ exists s e0,
       steps iso_date_in (disk example_source) (mkEnv [] (new_session (Some 0)))
       = (s, Raise e0)
       /\ e0 <> OperationalError
       /\ history (default (new_session None)
                     (main iso_date_in (disk example_source)
                        (Some (new_session (Some 0)))).1.2)
          = history (conn s) ++ [EvRollback; EvClose].
Proof.
  split; [by vm_compute |].
  apply (only_rollback_can_fail iso_date_in (disk example_source)
           (new_session (Some 0))
           (default (new_session None)
              (main iso_date_in (disk example_source)
                 (Some (new_session (Some 0)))).1.2)
           (main iso_date_in (disk example_source)
              (Some (new_session (Some 0)))).1.1
           InterfaceError).
  by vm_compute.
Defined.

(** The link carries the table creation and is lost on its commit. *)
Lemma setup_failure_witness :
  (closed (conn (mkEnv [] (new_session (Some 1)))) = true
   \/ link (conn (mkEnv [] (new_session (Some 1)))) = Some 0
   \/ link (conn (mkEnv [] (new_session (Some 1)))) = Some 1)
  /\ exists s',
       setup_database (mkEnv [] (new_session (Some 1))) = (s', Raise InterfaceError)
       /\ out s' = out (mkEnv [] (new_session (Some 1)))
       /\ durable (conn s') = durable (conn (mkEnv [] (new_session (Some 1))))
       /\ closed (conn s') = true
       /\ history (conn s')
          = history (conn (mkEnv [] (new_session (Some 1))))
            ++ (if closed (conn (mkEnv [] (new_session (Some 1)))) then []
                else if decide (link (conn (mkEnv [] (new_session (Some 1))))
                                = Some 0)
                     then [EvExecute create_table_sql]
                     else [EvExecute create_table_sql; EvCommit])
            ++ [EvRollback].
Proof.
  assert (H : closed (conn (mkEnv [] (new_session (Some 1)))) = true
              \/ link (conn (mkEnv [] (new_session (Some 1)))) = Some 0
              \/ link (conn (mkEnv [] (new_session (Some 1)))) = Some 1)
    by (right; right; reflexivity).
  split; [exact H |].
  exact (setup_failure_rolls_back (mkEnv [] (new_session (Some 1))) H).
Defined.

Lemma missing_source_witness :
  (fresh (new_session None) /\ link (new_session None) = None
   /\ empty_disk "customers.csv" = Missing)
  /\ exists o c',
       main iso_date_in empty_disk (Some (new_session None)) = (o, Some c', Ok tt)
       /\ durable c' = Some (default [] (durable (new_session None)))
       /\ history c'
          = history (new_session None)
            ++ [ EvExecute create_table_sql; EvCommit; EvCommit;
                 EvExecute sql_query; EvClose ]
       /\ Text "Error: Input file 'customers.csv' not found." ∈ o.
Proof.
  assert (Hc : fresh (new_session None)) by (split; [| split]; reflexivity).
  split; [split; [exact Hc | split; reflexivity] |].
  exact (missing_source_only_creates iso_date_in empty_disk (new_session None)
           Hc eq_refl eq_refl).
Defined.


(** A table that holds a row under the [id] 2 while its sequence has given
    out one value: the first new row takes the [id] 2 and its statement
    fails; with a sequence that is ahead, the [id]s stay apart. *)
Lemma load_keeps_ids_unique_witness :
  (process_and_insert_csv iso_date_in (disk three_kept) "customers.csv" 2
     (mkEnv [] (session_on [stored_anna] 1))).2 = Raise IntegrityError
  /\ (snapshot (conn (mkEnv [] (session_on [stored_bob] 3))) = Some [stored_bob]
      /\ NoDup (ids [stored_bob]))
  /\ exists rows',
       snapshot (conn (process_and_insert_csv iso_date_in (disk three_kept)
                         "customers.csv" 2
                         (mkEnv [] (session_on [stored_bob] 3))).1)
       = Some rows'
       /\ NoDup (ids rows').
Proof.
  split; [by vm_compute |].
  assert (Hnd : NoDup (ids [stored_bob])) by apply NoDup_singleton.
  split; [split; [reflexivity | exact Hnd] |].
  apply (load_keeps_ids_unique iso_date_in (disk three_kept) "customers.csv" 2
           (mkEnv [] (session_on [stored_bob] 3)) _ PNone [stored_bob]);
    [by vm_compute | reflexivity | exact Hnd].
Defined.

(** A run over a source with a cell that holds NUL: the first row of the
    bulk write is inserted, psycopg2 refuses the second before it is sent,
    the main block rolls back and only the table creation stays
    committed. *)
Example nul_cell_run :
  main iso_date_in (disk [CSV_HEADERS; alice; nul_record]) (Some (new_session None))
  = ([ Text "Database connection established.";
       Text "Successfully ensured 'customers' table exists.";
       Text "Starting to process 'customers.csv'...";
       TextExn "An error occurred while processing the file: " ValueError;
       Text "An error occurred. Rolling back all changes.";
       TextExn "Details: " ValueError;
       Text (nl +:+ "Database connection closed.") ],
     Some (mkConn (Some []) (Some []) 1 false None true
             [ EvExecute create_table_sql; EvCommit;
               EvExecutemany sql_insert
                 [ row_tuple (DictReader_row CSV_HEADERS alice);
                   row_tuple (DictReader_row CSV_HEADERS nul_record) ];
               EvRollback; EvClose ]),
     Ok tt).
Proof. by vm_compute. Qed.
